(** * Job board: routes, validation and schema, embedded and verified

    Definitions, in the layout of the server:
    - [JS]          the JavaScript values the handlers compare and test;
    - [Schema]      the tables of database/schema.sql, their unique keys,
                    their ON DELETE CASCADE foreign keys and the
                    comparison of their text columns;
    - [Eff]         a state-and-exception monad for the handler bodies
                    (every handler is `try { ... } catch { 500 }`);
    - [Http], [Auth]  replies, middleware, middleware/auth.js;
    - [Express]     what [router.METHOD] asks of the handles it is given;
    - [Orm]         the associations of models/index.js and the includes
                    a query may name;
    - [Joi], [Validation]  middleware/validation.js over a model of the
                    Joi schemas it builds;
    - [Applications], [Jobs], [Resumes], [AI]  the four routers: the
                    handles each module binds, the routes it registers,
                    and the callbacks of the routes;
    - [Server]      the mutating requests in one type;
    - [Props], [Sample]  the predicates of the statements, sample rows.

    Proofs: [ApplicationsProofs], [Invariant], [StatsProofs],
    [CascadeProofs], [ValidationProofs], [JobsProofs], [AIProofs],
    [ResumesProofs], [KeptProofs], [IntegrityProofs].

    Identifiers are natural numbers (AUTO_INCREMENT keys), other numbers
    are integers, time is an integer time stamp.  A model call of the ORM
    is the query it denotes once its includes resolve against the
    associations; what Joi reads as an address, a number or a date, the
    clock, JSON.parse and the completion service are parameters. *)

From Stdlib Require Import List String Ascii ZArith Bool Arith Lia DecimalString.
Import ListNotations.
Open Scope string_scope.
Open Scope nat_scope.
Open Scope list_scope.

Set Implicit Arguments.

(* ------------------------------------------------------------------ *)
(** ** JavaScript values *)

Module JS.

(** A JSON value as it sits in [req.body]. *)
#[warnings="-register-all"]
Inductive value :=
| VUndefined
| VNull
| VBool (b : bool)
| VNum (n : Z)
| VStr (s : string)
| VArr (l : list value)
| VObj (fields : list (string * value)).

(** ToBoolean. *)
Definition truthy (v : value) : bool :=
  match v with
  | VUndefined | VNull => false
  | VBool b => b
  | VNum n => negb (n =? 0)%Z
  | VStr s => negb (s =? "")%string
  | VArr _ | VObj _ => true
  end.

(** Property read [obj.k]; a missing key reads [undefined]. *)
Fixpoint lookup (k : string) (fields : list (string * value)) : value :=
  match fields with
  | [] => VUndefined
  | (k', v) :: rest => if (k' =? k)%string then v else lookup k rest
  end.

Definition get (k : string) (v : value) : value :=
  match v with
  | VObj fields => lookup k fields
  | _ => VUndefined
  end.

(** [{...v}] for an object (own keys of other values are not modelled). *)
Definition spread (v : value) : list (string * value) :=
  match v with
  | VObj fields => fields
  | _ => []
  end.

(** [xs.includes(v)] for an array literal of strings: SameValueZero, so
    only a string equal to one of the elements is included. *)
Definition includes (xs : list string) (v : value) : bool :=
  match v with
  | VStr s => existsb (String.eqb s) xs
  | _ => false
  end.

(** The relational operator [a > b] on numbers and strings.  Two strings
    are compared by code units, a string against a number is first
    converted with [to_number] (NaN, here [None], compares false). *)
Definition gt (to_number : string -> option Z) (a b : value) : bool :=
  match a, b with
  | VNum x, VNum y => (y <? x)%Z
  | VStr s, VStr t => String.ltb t s
  | VNum x, VStr t =>
      match to_number t with Some y => (y <? x)%Z | None => false end
  | VStr s, VNum y =>
      match to_number s with Some x => (y <? x)%Z | None => false end
  | _, _ => false
  end.

(** Decimal integer numerals, the strings [Number] and Joi read as an
    integer: an optional minus sign and at least one digit. *)
Definition digit_of (c : ascii) : option Z :=
  let n := nat_of_ascii c in
  if (48 <=? n) && (n <=? 57) then Some (Z.of_nat (n - 48)) else None.

Fixpoint digits (acc : Z) (s : string) : option Z :=
  match s with
  | EmptyString => Some acc
  | String c rest =>
      match digit_of c with
      | Some d => digits (10 * acc + d) rest
      | None => None
      end
  end.

Definition integer_of_string (s : string) : option Z :=
  match s with
  | EmptyString => None
  | String "-" EmptyString => None
  | String "-" rest => option_map Z.opp (digits 0 rest)
  | _ => digits 0 s
  end.

(** [s.toLowerCase()] and [s.toUpperCase()], on the letters of ASCII. *)
Definition lower_char (c : ascii) : ascii :=
  let n := nat_of_ascii c in
  if (65 <=? n) && (n <=? 90) then ascii_of_nat (n + 32) else c.

Fixpoint lower (s : string) : string :=
  match s with
  | EmptyString => EmptyString
  | String c rest => String (lower_char c) (lower rest)
  end.

Definition upper_char (c : ascii) : ascii :=
  let n := nat_of_ascii c in
  if (97 <=? n) && (n <=? 122) then ascii_of_nat (n - 32) else c.

Fixpoint upper (s : string) : string :=
  match s with
  | EmptyString => EmptyString
  | String c rest => String (upper_char c) (upper rest)
  end.

End JS.

(* ------------------------------------------------------------------ *)
(** ** The relational schema (database/schema.sql) *)

Module Schema.

Record User := {
  user_id : nat;
  user_email : string;
  user_role : string;          (* ENUM('applicant','employer','admin') *)
  user_is_active : bool
}.

Record Resume := {
  resume_id : nat;
  resume_user_id : nat;        (* REFERENCES users(id) ON DELETE CASCADE *)
  resume_title : string;
  resume_summary : option string;
  resume_experience_years : Z;
  resume_file_url : option string
}.

Record Skill := {
  skill_id : nat;
  skill_name : string;         (* UNIQUE *)
  skill_category : string
}.

Record ResumeSkill := {
  rs_id : nat;
  rs_resume_id : nat;          (* REFERENCES resumes(id) ON DELETE CASCADE *)
  rs_skill_id : nat;           (* REFERENCES skills(id) ON DELETE CASCADE *)
  rs_proficiency_level : string;
  rs_years_experience : Z
}.

Record WorkExperience := {
  we_id : nat;
  we_resume_id : nat;          (* REFERENCES resumes(id) ON DELETE CASCADE *)
  we_company_name : string;
  we_position : string
}.

Record Education := {
  edu_id : nat;
  edu_resume_id : nat;         (* REFERENCES resumes(id) ON DELETE CASCADE *)
  edu_institution : string;
  edu_degree : string
}.

Record Job := {
  job_id : nat;
  job_employer_id : nat;       (* REFERENCES users(id) ON DELETE CASCADE *)
  job_title : string;
  job_description : string;
  job_requirements : option string;
  job_location : option string;
  job_salary_min : option Z;
  job_salary_max : option Z;
  job_employment_type : string;
  job_experience_level : string;
  job_is_active : bool;
  job_application_deadline : option Z
}.

Record Application := {
  app_id : nat;
  app_job_id : nat;            (* REFERENCES jobs(id) ON DELETE CASCADE *)
  app_applicant_id : nat;      (* REFERENCES users(id) ON DELETE CASCADE *)
  app_resume_id : nat;         (* REFERENCES resumes(id) ON DELETE CASCADE *)
  app_cover_letter : option string;
  app_status : string;
  app_notes : option string
}.

Record AIAnalysis := {
  ai_id : nat;
  ai_resume_id : option nat;   (* REFERENCES resumes(id) ON DELETE CASCADE *)
  ai_job_id : option nat;      (* REFERENCES jobs(id) ON DELETE CASCADE *)
  ai_analysis_type : string;
  ai_score : JS.value;
  ai_insights : JS.value
}.

(** The store: one list of rows per table, in insertion order, and the
    AUTO_INCREMENT counter of each table the routers insert into. *)
Record DB := {
  users : list User;
  resumes : list Resume;
  skills : list Skill;
  resume_skills : list ResumeSkill;
  work_experience : list WorkExperience;
  education : list Education;
  jobs : list Job;
  applications : list Application;
  ai_analysis : list AIAnalysis;
  next_resume_id : nat;
  next_skill_id : nat;
  next_resume_skill_id : nat;
  next_work_experience_id : nat;
  next_education_id : nat;
  next_job_id : nat;
  next_application_id : nat;
  next_ai_analysis_id : nat
}.

Definition set_resumes (f : list Resume -> list Resume) (n : nat) (d : DB) : DB :=
  {| users := users d; resumes := f (resumes d); skills := skills d;
     resume_skills := resume_skills d; work_experience := work_experience d;
     education := education d; jobs := jobs d; applications := applications d;
     ai_analysis := ai_analysis d;
     next_resume_id := n; next_skill_id := next_skill_id d;
     next_resume_skill_id := next_resume_skill_id d;
     next_work_experience_id := next_work_experience_id d;
     next_education_id := next_education_id d; next_job_id := next_job_id d;
     next_application_id := next_application_id d;
     next_ai_analysis_id := next_ai_analysis_id d |}.

Definition set_skills (f : list Skill -> list Skill) (n : nat) (d : DB) : DB :=
  {| users := users d; resumes := resumes d; skills := f (skills d);
     resume_skills := resume_skills d; work_experience := work_experience d;
     education := education d; jobs := jobs d; applications := applications d;
     ai_analysis := ai_analysis d;
     next_resume_id := next_resume_id d; next_skill_id := n;
     next_resume_skill_id := next_resume_skill_id d;
     next_work_experience_id := next_work_experience_id d;
     next_education_id := next_education_id d; next_job_id := next_job_id d;
     next_application_id := next_application_id d;
     next_ai_analysis_id := next_ai_analysis_id d |}.

Definition set_resume_skills (f : list ResumeSkill -> list ResumeSkill) (n : nat) (d : DB) : DB :=
  {| users := users d; resumes := resumes d; skills := skills d;
     resume_skills := f (resume_skills d); work_experience := work_experience d;
     education := education d; jobs := jobs d; applications := applications d;
     ai_analysis := ai_analysis d;
     next_resume_id := next_resume_id d; next_skill_id := next_skill_id d;
     next_resume_skill_id := n;
     next_work_experience_id := next_work_experience_id d;
     next_education_id := next_education_id d; next_job_id := next_job_id d;
     next_application_id := next_application_id d;
     next_ai_analysis_id := next_ai_analysis_id d |}.

Definition set_work_experience (f : list WorkExperience -> list WorkExperience) (n : nat) (d : DB) : DB :=
  {| users := users d; resumes := resumes d; skills := skills d;
     resume_skills := resume_skills d; work_experience := f (work_experience d);
     education := education d; jobs := jobs d; applications := applications d;
     ai_analysis := ai_analysis d;
     next_resume_id := next_resume_id d; next_skill_id := next_skill_id d;
     next_resume_skill_id := next_resume_skill_id d;
     next_work_experience_id := n;
     next_education_id := next_education_id d; next_job_id := next_job_id d;
     next_application_id := next_application_id d;
     next_ai_analysis_id := next_ai_analysis_id d |}.

Definition set_education (f : list Education -> list Education) (n : nat) (d : DB) : DB :=
  {| users := users d; resumes := resumes d; skills := skills d;
     resume_skills := resume_skills d; work_experience := work_experience d;
     education := f (education d); jobs := jobs d; applications := applications d;
     ai_analysis := ai_analysis d;
     next_resume_id := next_resume_id d; next_skill_id := next_skill_id d;
     next_resume_skill_id := next_resume_skill_id d;
     next_work_experience_id := next_work_experience_id d;
     next_education_id := n; next_job_id := next_job_id d;
     next_application_id := next_application_id d;
     next_ai_analysis_id := next_ai_analysis_id d |}.

Definition set_jobs (f : list Job -> list Job) (n : nat) (d : DB) : DB :=
  {| users := users d; resumes := resumes d; skills := skills d;
     resume_skills := resume_skills d; work_experience := work_experience d;
     education := education d; jobs := f (jobs d); applications := applications d;
     ai_analysis := ai_analysis d;
     next_resume_id := next_resume_id d; next_skill_id := next_skill_id d;
     next_resume_skill_id := next_resume_skill_id d;
     next_work_experience_id := next_work_experience_id d;
     next_education_id := next_education_id d; next_job_id := n;
     next_application_id := next_application_id d;
     next_ai_analysis_id := next_ai_analysis_id d |}.

Definition set_applications (f : list Application -> list Application) (n : nat) (d : DB) : DB :=
  {| users := users d; resumes := resumes d; skills := skills d;
     resume_skills := resume_skills d; work_experience := work_experience d;
     education := education d; jobs := jobs d; applications := f (applications d);
     ai_analysis := ai_analysis d;
     next_resume_id := next_resume_id d; next_skill_id := next_skill_id d;
     next_resume_skill_id := next_resume_skill_id d;
     next_work_experience_id := next_work_experience_id d;
     next_education_id := next_education_id d; next_job_id := next_job_id d;
     next_application_id := n;
     next_ai_analysis_id := next_ai_analysis_id d |}.

Definition set_ai_analysis (f : list AIAnalysis -> list AIAnalysis) (n : nat) (d : DB) : DB :=
  {| users := users d; resumes := resumes d; skills := skills d;
     resume_skills := resume_skills d; work_experience := work_experience d;
     education := education d; jobs := jobs d; applications := applications d;
     ai_analysis := f (ai_analysis d);
     next_resume_id := next_resume_id d; next_skill_id := next_skill_id d;
     next_resume_skill_id := next_resume_skill_id d;
     next_work_experience_id := next_work_experience_id d;
     next_education_id := next_education_id d; next_job_id := next_job_id d;
     next_application_id := next_application_id d;
     next_ai_analysis_id := n |}.

(** *** Text columns

    schema.sql names no character set and no collation, so the text and
    ENUM columns take the default of the server, which does not tell the
    case of letters apart: [WHERE name = 'react'] finds the row 'React',
    and the UNIQUE key on [skills.name] refuses the one next to the other.
    The comparison is taken on the letters of ASCII. *)
Definition collate_eq (a b : string) : bool := (JS.lower a =? JS.lower b)%string.

(** *** ON DELETE CASCADE

    [DELETE FROM t WHERE id = ?] removes the row and, for every foreign key
    declared [REFERENCES t(id) ON DELETE CASCADE], the rows that point at
    it, recursively.  One function per parent table, one filter per
    foreign key of the schema. *)

Definition refers (o : option nat) (id : nat) : bool :=
  match o with Some x => x =? id | None => false end.

(** applications has no child table. *)
Definition delete_application (id : nat) (d : DB) : DB :=
  set_applications (filter (fun a => negb (app_id a =? id))) (next_application_id d) d.

(** jobs <- applications.job_id, ai_analysis.job_id *)
Definition delete_job (id : nat) (d : DB) : DB :=
  {| users := users d; resumes := resumes d; skills := skills d;
     resume_skills := resume_skills d; work_experience := work_experience d;
     education := education d;
     jobs := filter (fun j => negb (job_id j =? id)) (jobs d);
     applications := filter (fun a => negb (app_job_id a =? id)) (applications d);
     ai_analysis := filter (fun x => negb (refers (ai_job_id x) id)) (ai_analysis d);
     next_resume_id := next_resume_id d; next_skill_id := next_skill_id d;
     next_resume_skill_id := next_resume_skill_id d;
     next_work_experience_id := next_work_experience_id d;
     next_education_id := next_education_id d; next_job_id := next_job_id d;
     next_application_id := next_application_id d;
     next_ai_analysis_id := next_ai_analysis_id d |}.

(** resumes <- resume_skills, work_experience, education,
    applications.resume_id, ai_analysis.resume_id *)
Definition delete_resume (id : nat) (d : DB) : DB :=
  {| users := users d;
     resumes := filter (fun r => negb (resume_id r =? id)) (resumes d);
     skills := skills d;
     resume_skills := filter (fun l => negb (rs_resume_id l =? id)) (resume_skills d);
     work_experience := filter (fun w => negb (we_resume_id w =? id)) (work_experience d);
     education := filter (fun e => negb (edu_resume_id e =? id)) (education d);
     jobs := jobs d;
     applications := filter (fun a => negb (app_resume_id a =? id)) (applications d);
     ai_analysis := filter (fun x => negb (refers (ai_resume_id x) id)) (ai_analysis d);
     next_resume_id := next_resume_id d; next_skill_id := next_skill_id d;
     next_resume_skill_id := next_resume_skill_id d;
     next_work_experience_id := next_work_experience_id d;
     next_education_id := next_education_id d; next_job_id := next_job_id d;
     next_application_id := next_application_id d;
     next_ai_analysis_id := next_ai_analysis_id d |}.

(** users <- resumes.user_id, jobs.employer_id, applications.applicant_id;
    the removed resumes and jobs cascade in turn. *)
Definition delete_user (id : nat) (d : DB) : DB :=
  let owned_resumes := map resume_id (filter (fun r => resume_user_id r =? id) (resumes d)) in
  let owned_jobs := map job_id (filter (fun j => job_employer_id j =? id) (jobs d)) in
  let d1 := fold_right delete_resume d owned_resumes in
  let d2 := fold_right delete_job d1 owned_jobs in
  {| users := filter (fun u => negb (user_id u =? id)) (users d2);
     resumes := resumes d2; skills := skills d2;
     resume_skills := resume_skills d2; work_experience := work_experience d2;
     education := education d2; jobs := jobs d2;
     applications := filter (fun a => negb (app_applicant_id a =? id)) (applications d2);
     ai_analysis := ai_analysis d2;
     next_resume_id := next_resume_id d2; next_skill_id := next_skill_id d2;
     next_resume_skill_id := next_resume_skill_id d2;
     next_work_experience_id := next_work_experience_id d2;
     next_education_id := next_education_id d2; next_job_id := next_job_id d2;
     next_application_id := next_application_id d2;
     next_ai_analysis_id := next_ai_analysis_id d2 |}.

End Schema.

(* ------------------------------------------------------------------ *)
(** ** Effects: store passing with exceptions *)

Module Eff.

Inductive exn :=
| ReferenceError (name : string)    (* an identifier with no binding *)
| TypeError
| SyntaxError                       (* JSON.parse *)
| UniqueConstraintError (key : string)
| DatabaseError                     (* a statement the server refuses *)
| APIError                          (* the completion service *)
| Error (message : string)          (* [throw new Error(message)] *)
| EagerLoadingError (message : string).  (* an include the ORM cannot resolve *)

Inductive result (A : Type) :=
| Ok (a : A)
| Throw (e : exn).
Arguments Throw {A} e.

(** A computation over a store [S]: the store reached is kept when an
    exception is thrown, since no handler opens a transaction. *)
Definition M (S A : Type) := S -> result A * S.

Definition ret {S A} (a : A) : M S A := fun s => (Ok a, s).
Definition throw {S A} (e : exn) : M S A := fun s => (Throw e, s).
Definition bind {S A B} (m : M S A) (k : A -> M S B) : M S B :=
  fun s => match m s with
           | (Ok a, s') => k a s'
           | (Throw e, s') => (Throw e, s')
           end.
Definition gets {S A} (f : S -> A) : M S A := fun s => (Ok (f s), s).
Definition modify {S} (f : S -> S) : M S unit := fun s => (Ok tt, f s).

(** [try { body } catch (error) { handler }] around a whole handler. *)
Definition try_catch {S A} (body : M S A) (handler : exn -> M S A) : M S A :=
  fun s => match body s with
           | (Ok a, s') => (Ok a, s')
           | (Throw e, s') => handler e s'
           end.

(** [for (const x of xs) { await f x }] *)
Fixpoint for_of {S A} (xs : list A) (f : A -> M S unit) : M S unit :=
  match xs with
  | [] => ret tt
  | x :: rest => bind (f x) (fun _ => for_of rest f)
  end.

End Eff.

Declare Scope eff_scope.
Delimit Scope eff_scope with eff.
Notation "x <- m ;; k" := (Eff.bind m (fun x => k))
  (at level 61, m at next level, right associativity) : eff_scope.
Notation "m ;;; k" := (Eff.bind m (fun _ => k))
  (at level 61, right associativity) : eff_scope.

(* ------------------------------------------------------------------ *)
(** ** HTTP responses and middleware *)

Module Http.

(** [res.status(code).json({success, data | error, message})]; a reply
    without [res.status] has code 200. *)
Inductive Response (D : Type) :=
| Success (code : nat) (data : D) (message : option string)
| Failure (code : nat) (error : string).
Arguments Failure {D} code error.

Definition code {D} (r : Response D) : nat :=
  match r with Success c _ _ => c | Failure c _ => c end.

Definition success {D} (r : Response D) : bool :=
  match r with Success _ _ _ => true | Failure _ _ => false end.

Definition success_code {D} (r : Eff.result (Response D)) : option nat :=
  match r with
  | Eff.Ok (Success c _ _) => Some c
  | _ => None
  end.

(** The error taxonomy of the API. *)
Definition is_validation_or_conflict {D} (r : Response D) : Prop := code r = 400.
Definition is_authentication_error {D} (r : Response D) : Prop := code r = 401.
Definition is_authorization_error {D} (r : Response D) : Prop := code r = 403.
Definition is_not_found {D} (r : Response D) : Prop := code r = 404.
Definition is_service_error {D} (r : Response D) : Prop := code r = 500.

(** A middleware either answers or calls [next()]. *)
Inductive Middleware (D : Type) :=
| Next
| Respond (r : Response D).
Arguments Next {D}.

End Http.

(* ------------------------------------------------------------------ *)
(** ** middleware/auth.js *)

Module Auth.
Import Schema Http.

(** [authorize(...roles)]: 401 without [req.user], 403 when the user's
    role is not listed, [next()] otherwise. *)
Definition authorize {D} (roles : list string) (req_user : option User) : Middleware D :=
  match req_user with
  | None => Respond (Failure 401 "Access denied. Please authenticate.")
  | Some u =>
      if negb (existsb (String.eqb (user_role u)) roles)
      then Respond (Failure 403 "Access denied. Insufficient permissions.")
      else Next
  end.

End Auth.

(* ------------------------------------------------------------------ *)
(** ** Express: registering a route

    [router.METHOD(path, ...handles)] looks at each handle before it
    stores the route: a handle that is not a function makes it throw, and
    a throw at the top level of a router module ends the module before
    [module.exports = router]. *)

Module Express.
Import Eff.

(** [typeof handle], as far as the router asks. *)
Inductive handle :=
| AFunction
| AnObject.

Definition is_function (h : handle) : bool :=
  match h with AFunction => true | AnObject => false end.

Record Route := { method : string; path : string; handles : list handle }.

(** [Route.prototype[method]] *)
Definition register (r : Route) : result Route :=
  if forallb is_function (handles r) then Ok r
  else Throw (Error ("Route." ++ method r
                     ++ "() requires a callback function but got a [object Object]")).

(** The registrations of a module, in the order of the file: the routes
    of the router it exports, or the first throw. *)
Fixpoint register_all (routes : list Route) : result (list Route) :=
  match routes with
  | [] => Ok []
  | r :: rest =>
      match register r with
      | Throw e => Throw e
      | Ok r =>
          match register_all rest with
          | Throw e => Throw e
          | Ok registered => Ok (r :: registered)
          end
      end
  end.

End Express.

(* ------------------------------------------------------------------ *)
(** ** The ORM: associations and includes (models/index.js)

    An [include] of a query is resolved against the associations of the
    model queried before any statement is sent.  A string names an
    association by its alias; [{model, as}] names the association to that
    model, with the alias it was declared with when it was declared with
    one.  An include that resolves to no association makes the query
    throw. *)

Module Orm.
Import Eff.

Inductive Model :=
| User | Resume | Skill | ResumeSkill | WorkExperience | Education
| Job | Application | AIAnalysis.

Definition name (m : Model) : string :=
  match m with
  | User => "User" | Resume => "Resume" | Skill => "Skill"
  | ResumeSkill => "ResumeSkill" | WorkExperience => "WorkExperience"
  | Education => "Education" | Job => "Job" | Application => "Application"
  | AIAnalysis => "AIAnalysis"
  end.

Definition same (a b : Model) : bool := (name a =? name b)%string.

(** [source.hasMany(target, {as})] or [source.belongsTo(target, {as})].
    Without [as] the association goes by the name of the target, plural
    for hasMany, and is not aliased. *)
Record Association := {
  source : Model;
  target : Model;
  as_ : string;
  isAliased : bool
}.

Definition aliased (s t : Model) (alias : string) : Association :=
  {| source := s; target := t; as_ := alias; isAliased := true |}.
Definition plain (s t : Model) (default : string) : Association :=
  {| source := s; target := t; as_ := default; isAliased := false |}.

(** The association calls of models/index.js, in the order of the file. *)
Definition associations : list Association :=
  [ aliased User Resume "resumes";
    aliased Resume User "user";
    aliased Resume ResumeSkill "resume_skills";
    plain ResumeSkill Resume "Resume";
    plain Skill ResumeSkill "ResumeSkills";
    aliased ResumeSkill Skill "skill";
    aliased Resume WorkExperience "work_experience";
    plain WorkExperience Resume "Resume";
    aliased Resume Education "education";
    plain Education Resume "Resume";
    aliased User Job "jobs";
    aliased Job User "employer";
    aliased Job Application "applications";
    aliased Application Job "job";
    aliased User Application "applications";
    aliased Application User "applicant";
    plain Resume Application "Applications";
    aliased Application Resume "resume";
    aliased Resume AIAnalysis "ai_analyses";
    plain AIAnalysis Resume "Resume";
    plain Job AIAnalysis "AIAnalyses";
    plain AIAnalysis Job "Job" ].

(** One element of an [include] array. *)
#[warnings="-register-all"]
Inductive Included :=
| Named (alias : string)
| Of (model : Model) (as_ : option string) (nested : list Included).

(** [association.verifyAssociationAlias(alias)] *)
Definition verifies (alias : option string) (a : Association) : bool :=
  match alias with
  | Some x => (as_ a =? x)%string
  | None => negb (isAliased a)
  end.

(** What resolving one include against [from] throws, if it throws; the
    texts of the errors are given without their quotation marks and
    without the advice that follows them. *)
Fixpoint unresolved (from : Model) (i : Included) : option exn :=
  match i with
  | Named alias =>
      if existsb (fun a => same (source a) from && (as_ a =? alias)%string) associations
      then None
      else Some (Error ("Association with alias " ++ alias ++ " does not exist on "
                        ++ name from))
  | Of model alias nested =>
      match filter (fun a => same (source a) from && same (target a) model) associations with
      | [] => Some (EagerLoadingError (name model ++ " is not associated to " ++ name from))
      | found =>
          if existsb (verifies alias) found
          then (fix all (l : list Included) : option exn :=
                  match l with
                  | [] => None
                  | x :: rest =>
                      match unresolved model x with
                      | Some e => Some e
                      | None => all rest
                      end
                  end) nested
          else Some (EagerLoadingError
                       (name model ++ " is associated to " ++ name from ++ " using an alias"))
      end
  end.

Fixpoint first_unresolved (from : Model) (include : list Included) : option exn :=
  match include with
  | [] => None
  | i :: rest =>
      match unresolved from i with
      | Some e => Some e
      | None => first_unresolved from rest
      end
  end.

(** A query on [from] with an [include]. *)
Definition including {S A} (from : Model) (include : list Included) (query : M S A) : M S A :=
  match first_unresolved from include with
  | Some e => throw e
  | None => query
  end.

End Orm.

(* ------------------------------------------------------------------ *)
(** ** A model of the Joi schemas used by middleware/validation.js

    [schema.validate(req.body)] with the default options: values are
    converted ([convert: true], so a numeric string is a number and a
    date), the first error ends the validation ([abortEarly: true]), keys
    are visited in the order of the schema, and a key the schema does not
    list is an error.  The text of Joi's built-in messages is represented
    by the error code and the path of the key; messages overridden with
    [.messages] are the source's. *)

Module Joi.
Import JS.

Inductive kind := KString | KNumber | KDate | KBoolean.

Inductive rule :=
| Min (n : Z)
| Max (n : Z)
| Email
| Pattern (re : string -> bool)
| Positive
| Integer
| GreaterNow.

Record schema := {
  kind_of : kind;
  rules : list rule;             (* in the order they are chained *)
  only : option (list string);   (* .valid(...) *)
  presence_required : bool;      (* .required() / .optional() *)
  custom_messages : list (string * string)
}.

Definition string : schema :=
  {| kind_of := KString; rules := []; only := None; presence_required := false;
     custom_messages := [] |}.
Definition number : schema :=
  {| kind_of := KNumber; rules := []; only := None; presence_required := false;
     custom_messages := [] |}.
Definition date : schema :=
  {| kind_of := KDate; rules := []; only := None; presence_required := false;
     custom_messages := [] |}.
Definition boolean : schema :=
  {| kind_of := KBoolean; rules := []; only := None; presence_required := false;
     custom_messages := [] |}.

(** A key of an object schema: the schema of a value, or
    [Joi.array().items(Joi.object(keys)).optional()]. *)
Inductive field :=
| Value (s : schema)
| Items (keys : list (String.string * schema)).

Definition add_rule (r : rule) (s : schema) : schema :=
  {| kind_of := kind_of s; rules := rules s ++ [r]; only := only s;
     presence_required := presence_required s; custom_messages := custom_messages s |}.
Definition min n := add_rule (Min n).
Definition max n := add_rule (Max n).
Definition email := add_rule Email.
Definition pattern re := add_rule (Pattern re).
Definition positive := add_rule Positive.
Definition integer := add_rule Integer.
Definition greater_now := add_rule GreaterNow.
Definition valid (vs : list String.string) (s : schema) : schema :=
  {| kind_of := kind_of s; rules := rules s; only := Some vs;
     presence_required := presence_required s; custom_messages := custom_messages s |}.
Definition required (s : schema) : schema :=
  {| kind_of := kind_of s; rules := rules s; only := only s;
     presence_required := true; custom_messages := custom_messages s |}.
Definition optional (s : schema) : schema :=
  {| kind_of := kind_of s; rules := rules s; only := only s;
     presence_required := false; custom_messages := custom_messages s |}.
Definition messages (ms : list (String.string * String.string)) (s : schema) : schema :=
  {| kind_of := kind_of s; rules := rules s; only := only s;
     presence_required := presence_required s; custom_messages := ms |}.

Section Validate.
(** What the schemas depend on outside the source: the address syntax of
    [.email()], the numerals Joi converts to a number, the strings it
    converts to a date, and the clock of [.greater('now')]. *)
Variable is_email : String.string -> bool.
Variable to_number : String.string -> option Z.
Variable to_date : String.string -> option Z.
Variable now : Z.

(** [value.length] against the limit; the texts are ASCII, one byte for
    each code unit. *)
Definition string_rule (r : rule) (s : String.string) : option String.string :=
  match r with
  | Min n => if (Z.of_nat (String.length s) <? n)%Z then Some "string.min" else None
  | Max n => if (n <? Z.of_nat (String.length s))%Z then Some "string.max" else None
  | Email => if is_email s then None else Some "string.email"
  | Pattern re => if re s then None else Some "string.pattern.base"
  | _ => None
  end.

Definition number_rule (r : rule) (n : Z) : option String.string :=
  match r with
  | Min m => if (n <? m)%Z then Some "number.min" else None
  | Max m => if (m <? n)%Z then Some "number.max" else None
  | Positive => if (0 <? n)%Z then None else Some "number.positive"
  | _ => None
  end.

Definition date_rule (r : rule) (d : Z) : option String.string :=
  match r with
  | GreaterNow => if (now <? d)%Z then None else Some "date.greater"
  | _ => None
  end.

Fixpoint first_error {A} (check : rule -> A -> option String.string)
    (rs : list rule) (a : A) : option String.string :=
  match rs with
  | [] => None
  | r :: rest =>
      match check r a with
      | Some code => Some code
      | None => first_error check rest a
      end
  end.

(** The error code of one value against one key's schema. *)
Definition validate_value (s : schema) (v : value) : option String.string :=
  match v with
  | VUndefined => if presence_required s then Some "any.required" else None
  | _ =>
      match only s with
      | Some vs => if includes vs v then None else Some "any.only"
      | None =>
          match kind_of s, v with
          | KString, VStr x =>
              if (x =? "")%string then Some "string.empty"
              else first_error string_rule (rules s) x
          | KString, _ => Some "string.base"
          | KNumber, VNum n => first_error number_rule (rules s) n
          | KNumber, VStr x =>
              match to_number x with
              | Some n => first_error number_rule (rules s) n
              | None => Some "number.base"
              end
          | KNumber, _ => Some "number.base"
          | KDate, VNum d => first_error date_rule (rules s) d
          | KDate, VStr x =>
              match to_date x with
              | Some d => first_error date_rule (rules s) d
              | None => Some "date.base"
              end
          | KDate, _ => Some "date.base"
          | KBoolean, VBool _ => None
          | KBoolean, VStr x =>
              if (lower x =? "true")%string || (lower x =? "false")%string then None
              else Some "boolean.base"
          | KBoolean, _ => Some "boolean.base"
          end
      end
  end.

Fixpoint assoc (k : String.string) (l : list (String.string * String.string))
  : option String.string :=
  match l with
  | [] => None
  | (k', v) :: rest => if (k' =? k)%string then Some v else assoc k rest
  end.

(** [error.details[0].message]: the text [.messages] gives for the code of
    the error, and otherwise the text of Joi for the code, which is kept
    as the code and the path of the key. *)
Definition message_of (key : String.string) (s : schema) (code : String.string)
  : String.string :=
  match assoc code (custom_messages s) with
  | Some m => m
  | None => (code ++ ": " ++ key)%string
  end.

Fixpoint validate_keys (keys : list (String.string * schema))
    (body : list (String.string * value)) : option String.string :=
  match keys with
  | [] => None
  | (k, s) :: rest =>
      match validate_value s (lookup k body) with
      | Some code => Some (message_of k s code)
      | None => validate_keys rest body
      end
  end.

Definition unknown_key (keys : list (String.string * schema))
    (body : list (String.string * value)) : option String.string :=
  option_map fst
    (find (fun kv => negb (existsb (fun ks => (fst ks =? fst kv)%string) keys)) body).

(** [Joi.object(keys).validate(body)]: the message of the first error. *)
Definition validate (keys : list (String.string * schema))
    (body : list (String.string * value)) : option String.string :=
  match validate_keys keys body with
  | Some m => Some m
  | None =>
      match unknown_key keys body with
      | Some k => Some ("object.unknown: " ++ k)%string
      | None => None
      end
  end.

(** *** Arrays of objects *)

Fixpoint first_key_error (keys : list (String.string * schema))
    (fields : list (String.string * value))
  : option (String.string * schema * String.string) :=
  match keys with
  | [] => None
  | (k, s) :: rest =>
      match validate_value s (lookup k fields) with
      | Some code => Some (k, s, code)
      | None => first_key_error rest fields
      end
  end.

(** One element of the array, at [path]: an object with the keys of the
    item schema and no other. *)
Definition validate_item (path : String.string) (keys : list (String.string * schema))
    (item : value) : option String.string :=
  match item with
  | VObj fields =>
      match first_key_error keys fields with
      | Some (k, s, code) => Some (message_of (path ++ "." ++ k) s code)
      | None =>
          option_map (fun k => "object.unknown: " ++ path ++ "." ++ k)%string
                     (unknown_key keys fields)
      end
  | VUndefined => Some ("array.sparse: " ++ path)%string
  | _ => Some ("object.base: " ++ path)%string
  end.

Fixpoint validate_items (key : String.string) (keys : list (String.string * schema))
    (index : nat) (items : list value) : option String.string :=
  match items with
  | [] => None
  | item :: rest =>
      match validate_item
              (key ++ "[" ++ NilZero.string_of_uint (Nat.to_uint index) ++ "]") keys item with
      | Some m => Some m
      | None => validate_items key keys (S index) rest
      end
  end.

Definition validate_field (key : String.string) (f : field) (v : value)
  : option String.string :=
  match f with
  | Value s => option_map (message_of key s) (validate_value s v)
  | Items keys =>
      match v with
      | VUndefined => None
      | VArr items => validate_items key keys 0 items
      | _ => Some ("array.base: " ++ key)%string
      end
  end.

Fixpoint validate_each_field (fields : list (String.string * field))
    (body : list (String.string * value)) : option String.string :=
  match fields with
  | [] => None
  | (k, f) :: rest =>
      match validate_field k f (lookup k body) with
      | Some m => Some m
      | None => validate_each_field rest body
      end
  end.

(** [Joi.object(fields).validate(body)] for a schema with array keys. *)
Definition validate_fields (fields : list (String.string * field))
    (body : list (String.string * value)) : option String.string :=
  match validate_each_field fields body with
  | Some m => Some m
  | None =>
      option_map (fun k => "object.unknown: " ++ k)%string
        (find (fun k => negb (existsb (fun kf => (fst kf =? k)%string) fields))
              (map fst body))
  end.

End Validate.
End Joi.

(* ------------------------------------------------------------------ *)
(** ** middleware/validation.js *)

Module Validation.
Import JS Http.

Definition is_digit (c : ascii) : bool :=
  let n := nat_of_ascii c in (48 <=? n) && (n <=? 57).

(** The class [[\d\s\-\(\)]] on the characters a byte string holds. *)
Definition phone_char (c : ascii) : bool :=
  let n := nat_of_ascii c in
  is_digit c
  || (n =? 32) || ((9 <=? n) && (n <=? 13))     (* \s *)
  || (n =? 45) || (n =? 40) || (n =? 41).       (* - ( ) *)

Fixpoint all_chars (p : ascii -> bool) (s : string) : bool :=
  match s with
  | EmptyString => true
  | String c rest => p c && all_chars p rest
  end.

(** [/^[+]?[1-9][\d\s\-\(\)]{7,15}$/] *)
Definition phone_pattern (s : string) : bool :=
  let body := match s with
              | String "+" rest => rest
              | _ => s
              end in
  match body with
  | String c rest =>
      let n := nat_of_ascii c in
      (49 <=? n) && (n <=? 57)
      && (7 <=? String.length rest) && (String.length rest <=? 15)
      && all_chars phone_char rest
  | EmptyString => false
  end.

Section Validators.
Variable is_email : string -> bool.
Variable to_number : string -> option Z.
Variable to_date : string -> option Z.
Variable now : Z.

Definition registration_schema : list (string * Joi.schema) :=
  [ ("email",
     Joi.messages [("string.email", "Please provide a valid email address");
                   ("any.required", "Email is required")]
       (Joi.required (Joi.email Joi.string)));
    ("password",
     Joi.messages [("string.min", "Password must be at least 6 characters long");
                   ("any.required", "Password is required")]
       (Joi.required (Joi.min 6 Joi.string)));
    ("first_name",
     Joi.messages [("string.min", "First name must be at least 2 characters long");
                   ("string.max", "First name cannot exceed 50 characters");
                   ("any.required", "First name is required")]
       (Joi.required (Joi.max 50 (Joi.min 2 Joi.string))));
    ("last_name",
     Joi.messages [("string.min", "Last name must be at least 2 characters long");
                   ("string.max", "Last name cannot exceed 50 characters");
                   ("any.required", "Last name is required")]
       (Joi.required (Joi.max 50 (Joi.min 2 Joi.string))));
    ("phone",
     Joi.messages [("string.pattern.base", "Please provide a valid phone number")]
       (Joi.optional (Joi.pattern phone_pattern Joi.string)));
    ("role",
     Joi.optional (Joi.valid ["applicant"; "employer"] Joi.string)) ].

Definition validateRegistration {D} (body : list (string * value)) : Middleware D :=
  match Joi.validate is_email to_number to_date now registration_schema body with
  | Some message => Respond (Failure 400 message)
  | None => Next
  end.

Definition job_schema : list (string * Joi.schema) :=
  [ ("title",
     Joi.messages [("string.min", "Job title must be at least 5 characters long");
                   ("string.max", "Job title cannot exceed 200 characters");
                   ("any.required", "Job title is required")]
       (Joi.required (Joi.max 200 (Joi.min 5 Joi.string))));
    ("description",
     Joi.messages [("string.min", "Job description must be at least 50 characters long");
                   ("any.required", "Job description is required")]
       (Joi.required (Joi.min 50 Joi.string)));
    ("requirements", Joi.optional Joi.string);
    ("location",
     Joi.messages [("string.max", "Location cannot exceed 200 characters")]
       (Joi.optional (Joi.max 200 Joi.string)));
    ("salary_min",
     Joi.messages [("number.positive", "Minimum salary must be a positive number")]
       (Joi.optional (Joi.positive Joi.number)));
    ("salary_max",
     Joi.messages [("number.positive", "Maximum salary must be a positive number")]
       (Joi.optional (Joi.positive Joi.number)));
    ("employment_type",
     Joi.optional (Joi.valid ["full-time"; "part-time"; "contract"; "internship"] Joi.string));
    ("experience_level",
     Joi.optional (Joi.valid ["entry"; "mid"; "senior"; "executive"] Joi.string));
    ("application_deadline",
     Joi.messages [("date.greater", "Application deadline must be in the future")]
       (Joi.optional (Joi.greater_now Joi.date))) ].

Definition salary_range_error : string :=
  "Minimum salary cannot be greater than maximum salary".

(** [validateJob]: the schema first, then the salary range on the
    values of [req.body] as they were sent. *)
Definition validateJob {D} (body : list (string * value)) : Middleware D :=
  match Joi.validate is_email to_number to_date now job_schema body with
  | Some message => Respond (Failure 400 message)
  | None =>
      if truthy (lookup "salary_min" body)
         && truthy (lookup "salary_max" body)
         && gt to_number (lookup "salary_min" body) (lookup "salary_max" body)
      then Respond (Failure 400 salary_range_error)
      else Next
  end.

Definition resume_schema : list (string * Joi.field) :=
  [ ("title",
     Joi.Value
       (Joi.messages [("string.min", "Resume title must be at least 5 characters long");
                      ("string.max", "Resume title cannot exceed 200 characters");
                      ("any.required", "Resume title is required")]
          (Joi.required (Joi.max 200 (Joi.min 5 Joi.string)))));
    ("summary",
     Joi.Value
       (Joi.messages [("string.max", "Summary cannot exceed 1000 characters")]
          (Joi.optional (Joi.max 1000 Joi.string))));
    ("experience_years",
     Joi.Value
       (Joi.messages [("number.min", "Experience years cannot be negative");
                      ("number.max", "Experience years cannot exceed 50")]
          (Joi.optional (Joi.max 50 (Joi.min 0 (Joi.integer Joi.number))))));
    ("current_position",
     Joi.Value
       (Joi.messages [("string.max", "Current position cannot exceed 200 characters")]
          (Joi.optional (Joi.max 200 Joi.string))));
    ("current_company",
     Joi.Value
       (Joi.messages [("string.max", "Current company cannot exceed 200 characters")]
          (Joi.optional (Joi.max 200 Joi.string))));
    ("location",
     Joi.Value
       (Joi.messages [("string.max", "Location cannot exceed 200 characters")]
          (Joi.optional (Joi.max 200 Joi.string))));
    ("salary_expectation",
     Joi.Value
       (Joi.messages [("number.positive", "Salary expectation must be a positive number")]
          (Joi.optional (Joi.positive Joi.number))));
    ("skills",
     Joi.Items
       [ ("name", Joi.required Joi.string);
         ("proficiency_level",
          Joi.optional
            (Joi.valid ["beginner"; "intermediate"; "advanced"; "expert"] Joi.string));
         ("years_experience", Joi.optional (Joi.min 0 (Joi.integer Joi.number)));
         ("category", Joi.optional Joi.string) ]);
    ("work_experience",
     Joi.Items
       [ ("company_name", Joi.required Joi.string);
         ("position", Joi.required Joi.string);
         ("start_date", Joi.required Joi.date);
         ("end_date", Joi.optional Joi.date);
         ("is_current", Joi.optional Joi.boolean);
         ("description", Joi.optional Joi.string);
         ("location", Joi.optional Joi.string) ]);
    ("education",
     Joi.Items
       [ ("institution", Joi.required Joi.string);
         ("degree", Joi.required Joi.string);
         ("field_of_study", Joi.optional Joi.string);
         ("start_date", Joi.optional Joi.date);
         ("end_date", Joi.optional Joi.date);
         ("grade", Joi.optional Joi.string);
         ("description", Joi.optional Joi.string) ]) ].

Definition validateResume {D} (body : list (string * value)) : Middleware D :=
  match Joi.validate_fields is_email to_number to_date now resume_schema body with
  | Some message => Respond (Failure 400 message)
  | None => Next
  end.

Definition application_schema : list (string * Joi.schema) :=
  [ ("job_id",
     Joi.messages [("number.positive", "Job ID must be a positive number");
                   ("any.required", "Job ID is required")]
       (Joi.required (Joi.positive (Joi.integer Joi.number))));
    ("resume_id",
     Joi.messages [("number.positive", "Resume ID must be a positive number");
                   ("any.required", "Resume ID is required")]
       (Joi.required (Joi.positive (Joi.integer Joi.number))));
    ("cover_letter",
     Joi.messages [("string.max", "Cover letter cannot exceed 2000 characters")]
       (Joi.optional (Joi.max 2000 Joi.string))) ].

Definition validateApplication {D} (body : list (string * value)) : Middleware D :=
  match Joi.validate is_email to_number to_date now application_schema body with
  | Some message => Respond (Failure 400 message)
  | None => Next
  end.

End Validators.
End Validation.

(* ------------------------------------------------------------------ *)
(** ** routes/applications.js *)

Module Applications.
Import Schema Eff Http Auth.
Local Open Scope eff_scope.

(** The fields the handlers read from [req.body]: a body that sends the
    two identifiers as JSON numbers and the cover letter, if any, as a
    string. *)
Record CreateBody := {
  body_job_id : nat;
  body_resume_id : nat;
  body_cover_letter : option string
}.

(** [req.body] as [validateApplication] receives it. *)
Definition body_object (b : CreateBody) : list (string * JS.value) :=
  [("job_id", JS.VNum (Z.of_nat (body_job_id b)));
   ("resume_id", JS.VNum (Z.of_nat (body_resume_id b)))]
  ++ match body_cover_letter b with
     | Some c => [("cover_letter", JS.VStr c)]
     | None => []
     end.

(** *** The model calls the handlers make *)

Definition Job_findOne (where_ : Job -> bool) : M DB (option Job) :=
  gets (fun d => find where_ (jobs d)).

Definition Resume_findOne (where_ : Resume -> bool) : M DB (option Resume) :=
  gets (fun d => find where_ (resumes d)).

Definition Application_findOne (where_ : Application -> bool) : M DB (option Application) :=
  gets (fun d => find where_ (applications d)).

Definition Application_findByPk (id : nat) : M DB (option Application) :=
  Application_findOne (fun a => app_id a =? id).

Definition Application_findAll (where_ : Application -> bool) : M DB (list Application) :=
  gets (fun d => filter where_ (applications d)).

(** [Application.create]: the row takes the next AUTO_INCREMENT key; the
    insert fails on UNIQUE KEY unique_application (job_id, applicant_id). *)
Definition Application_create (job applicant resume : nat) (cover_letter : option string)
    (status : string) : M DB Application :=
  fun d =>
    if existsb (fun a => (app_job_id a =? job) && (app_applicant_id a =? applicant))
               (applications d)
    then (Throw (UniqueConstraintError "unique_application"), d)
    else
      let row := {| app_id := next_application_id d; app_job_id := job;
                    app_applicant_id := applicant; app_resume_id := resume;
                    app_cover_letter := cover_letter; app_status := status;
                    app_notes := None |} in
      (Ok row, set_applications (fun l => l ++ [row]) (S (next_application_id d)) d).

(** [application.update(values)] on a loaded instance: the row with the
    instance's key is rewritten. *)
Definition Application_update (id : nat) (f : Application -> Application) : M DB unit :=
  modify (fun d => set_applications (map (fun a => if app_id a =? id then f a else a))
                                    (next_application_id d) d).

Definition Application_destroy (id : nat) : M DB unit :=
  modify (delete_application id).

Definition with_cover_letter (c : option string) (a : Application) : Application :=
  match c with
  | None => a      (* an undefined value is left out of the UPDATE *)
  | Some _ =>
      {| app_id := app_id a; app_job_id := app_job_id a;
         app_applicant_id := app_applicant_id a; app_resume_id := app_resume_id a;
         app_cover_letter := c; app_status := app_status a; app_notes := app_notes a |}
  end.

Definition with_status (status : string) (notes : option string) (a : Application) : Application :=
  {| app_id := app_id a; app_job_id := app_job_id a;
     app_applicant_id := app_applicant_id a; app_resume_id := app_resume_id a;
     app_cover_letter := app_cover_letter a; app_status := status; app_notes := notes |}.

(** The job of an application, as the include [{model: Job, as: 'job'}]
    joins it. *)
Definition job_of (d : DB) (a : Application) : option Job :=
  find (fun j => job_id j =? app_job_id a) (jobs d).

(** *** POST /api/applications *)

Definition create_handler (now : Z) (user : User) (b : CreateBody)
  : M DB (Response (option Application)) :=
  try_catch
    (job <- Job_findOne (fun j => (job_id j =? body_job_id b) && job_is_active j) ;;
     match job with
     | None => ret (Failure 404 "Job not found or no longer active")
     | Some job =>
     resume <- Resume_findOne (fun r => (resume_id r =? body_resume_id b)
                                        && (resume_user_id r =? user_id user)) ;;
     match resume with
     | None => ret (Failure 404 "Resume not found")
     | Some _ =>
     existingApplication <- Application_findOne
        (fun a => (app_job_id a =? body_job_id b) && (app_applicant_id a =? user_id user)) ;;
     match existingApplication with
     | Some _ => ret (Failure 400 "You have already applied to this job")
     | None =>
     if match job_application_deadline job with
        | Some deadline => (deadline <? now)%Z
        | None => false
        end
     then ret (Failure 400 "Application deadline has passed")
     else
       application <- Application_create (body_job_id b) (user_id user) (body_resume_id b)
                                         (body_cover_letter b) "pending" ;;
       completeApplication <- Application_findByPk (app_id application) ;;
       ret (Success 201 completeApplication (Some "Application submitted successfully"))
     end end end)
    (fun _ => ret (Failure 500 "Failed to submit application")).

(** [router.post('/', auth, authorize('applicant'), validateApplication, ...)] *)
Definition POST_applications (is_email : string -> bool)
    (to_number to_date : string -> option Z) (now : Z) (user : User) (b : CreateBody)
  : M DB (Response (option Application)) :=
  match authorize ["applicant"] (Some user) with
  | Respond r => ret r
  | Next =>
      match Validation.validateApplication is_email to_number to_date now (body_object b) with
      | Respond r => ret r
      | Next => create_handler now user b
      end
  end.

(** *** PUT /api/applications/:id *)

Definition PUT_application (user : User) (id : nat) (cover_letter : option string)
  : M DB (Response (option Application)) :=
  try_catch
    (application <- Application_findOne
        (fun a => (app_id a =? id) && (app_applicant_id a =? user_id user)) ;;
     match application with
     | None => ret (Failure 404 "Application not found")
     | Some application =>
         if negb (app_status application =? "pending")%string
         then ret (Failure 400 "Cannot update application after it has been reviewed")
         else
           Application_update (app_id application) (with_cover_letter cover_letter) ;;;
           updatedApplication <- Application_findByPk (app_id application) ;;
           ret (Success 200 updatedApplication (Some "Application updated successfully"))
     end)
    (fun _ => ret (Failure 500 "Failed to update application")).

(** *** DELETE /api/applications/:id *)

Definition DELETE_application (user : User) (id : nat)
  : M DB (Response (option Application)) :=
  try_catch
    (application <- Application_findOne
        (fun a => (app_id a =? id) && (app_applicant_id a =? user_id user)) ;;
     match application with
     | None => ret (Failure 404 "Application not found")
     | Some application =>
         if negb (app_status application =? "pending")%string
         then ret (Failure 400 "Cannot withdraw application after it has been reviewed")
         else
           Application_destroy (app_id application) ;;;
           ret (Success 200 None (Some "Application withdrawn successfully"))
     end)
    (fun _ => ret (Failure 500 "Failed to withdraw application")).

(** *** PUT /api/applications/:id/status *)

Definition statuses : list string :=
  ["pending"; "reviewed"; "shortlisted"; "rejected"; "hired"].

Definition status_string (v : JS.value) : string :=
  match v with JS.VStr s => s | _ => "" end.

Definition status_handler (user : User) (id : nat) (status : JS.value) (notes : option string)
  : M DB (Response (option Application)) :=
  try_catch
    (if negb (JS.includes statuses status)
     then ret (Failure 400 "Invalid status")
     else
       d <- gets (fun d => d) ;;
       application <- Application_findOne
          (fun a => (app_id a =? id)
                    && match job_of d a with
                       | Some j => job_employer_id j =? user_id user
                       | None => false
                       end) ;;
       match application with
       | None => ret (Failure 404 "Application not found or access denied")
       | Some application =>
           Application_update (app_id application)
             (with_status (status_string status)
                (match notes with
                 | Some n => if (n =? "")%string then app_notes application else Some n
                 | None => app_notes application
                 end)) ;;;
           updatedApplication <- Application_findByPk (app_id application) ;;
           ret (Success 200 updatedApplication
                        (Some "Application status updated successfully"))
       end)
    (fun _ => ret (Failure 500 "Failed to update application status")).

(** [router.put('/:id/status', auth, authorize('employer', 'admin'), ...)] *)
Definition PUT_application_status (user : User) (id : nat) (status : JS.value)
    (notes : option string) : M DB (Response (option Application)) :=
  match authorize ["employer"; "admin"] (Some user) with
  | Respond r => ret r
  | Next => status_handler user id status notes
  end.

(** *** GET /api/applications/stats/overview *)

Record Stats := {
  total : nat;
  pending : nat;
  reviewed : nat;
  shortlisted : nat;
  rejected : nat;
  hired : nat
}.

Definition count_status (s : string) (l : list Application) : nat :=
  List.length (filter (fun app => (app_status app =? s)%string) l).

Definition tally (l : list Application) : Stats :=
  {| total := List.length l;
     pending := count_status "pending" l;
     reviewed := count_status "reviewed" l;
     shortlisted := count_status "shortlisted" l;
     rejected := count_status "rejected" l;
     hired := count_status "hired" l |}.

(** [stats] stays undefined for any other role. *)
Definition GET_stats_overview (user : User) : M DB (Response (option Stats)) :=
  try_catch
    (if (user_role user =? "applicant")%string then
       l <- Application_findAll (fun a => app_applicant_id a =? user_id user) ;;
       ret (Success 200 (Some (tally l)) None)
     else if (user_role user =? "employer")%string then
       d <- gets (fun d => d) ;;
       l <- Application_findAll
              (fun a => match job_of d a with
                        | Some j => job_employer_id j =? user_id user
                        | None => false
                        end) ;;
       ret (Success 200 (Some (tally l)) None)
     else ret (Success 200 None None))
    (fun _ => ret (Failure 500 "Failed to fetch statistics")).

(** *** The module

    [const { auth, authorize } = require('../middleware/auth')] and
    [const { validateApplication } = require('../middleware/validation')]
    bind functions, and [authorize(...)] returns one. *)
Module Bound.
Definition auth : Express.handle := Express.AFunction.
Definition authorize : Express.handle := Express.AFunction.
Definition validateApplication : Express.handle := Express.AFunction.
Definition callback : Express.handle := Express.AFunction.
End Bound.

Definition routes : list Express.Route :=
  [ {| Express.method := "get"; Express.path := "/";
       Express.handles := [Bound.auth; Bound.callback] |};
    {| Express.method := "get"; Express.path := "/:id";
       Express.handles := [Bound.auth; Bound.callback] |};
    {| Express.method := "post"; Express.path := "/";
       Express.handles := [Bound.auth; Bound.authorize; Bound.validateApplication;
                           Bound.callback] |};
    {| Express.method := "put"; Express.path := "/:id";
       Express.handles := [Bound.auth; Bound.callback] |};
    {| Express.method := "delete"; Express.path := "/:id";
       Express.handles := [Bound.auth; Bound.callback] |};
    {| Express.method := "get"; Express.path := "/job/:jobId";
       Express.handles := [Bound.auth; Bound.authorize; Bound.callback] |};
    {| Express.method := "put"; Express.path := "/:id/status";
       Express.handles := [Bound.auth; Bound.authorize; Bound.callback] |};
    {| Express.method := "get"; Express.path := "/stats/overview";
       Express.handles := [Bound.auth; Bound.callback] |} ].

(** [module.exports = router] *)
Definition router : result (list Express.Route) := Express.register_all routes.

End Applications.

(* ------------------------------------------------------------------ *)
(** ** routes/jobs.js *)

Module Jobs.
Import JS Schema Eff Http Auth.
Local Open Scope eff_scope.

Definition Job_findByPk (id : nat) : M DB (option Job) :=
  gets (fun d => find (fun j => job_id j =? id) (jobs d)).

Definition Job_findOne (where_ : Job -> bool) : M DB (option Job) :=
  gets (fun d => find where_ (jobs d)).

Definition Job_insert (mk : nat -> Job) : M DB Job :=
  fun d => let row := mk (next_job_id d) in
           (Ok row, set_jobs (fun l => l ++ [row]) (S (next_job_id d)) d).

Definition Job_update (id : nat) (f : Job -> Job) : M DB unit :=
  modify (fun d => set_jobs (map (fun j => if job_id j =? id then f j else j))
                            (next_job_id d) d).

(** [job.destroy()]: one DELETE statement; the schema cascades. *)
Definition Job_destroy (id : nat) : M DB unit :=
  modify (delete_job id).

Definition with_is_active (b : bool) (j : Job) : Job :=
  {| job_id := job_id j; job_employer_id := job_employer_id j; job_title := job_title j;
     job_description := job_description j; job_requirements := job_requirements j;
     job_location := job_location j; job_salary_min := job_salary_min j;
     job_salary_max := job_salary_max j; job_employment_type := job_employment_type j;
     job_experience_level := job_experience_level j; job_is_active := b;
     job_application_deadline := job_application_deadline j |}.

(** *** The filters of the public list *)

(** [req.query] of GET /api/jobs, numeric parameters read as integers. *)
Record Query := {
  q_page : option Z;
  q_limit : option Z;
  q_location : option string;
  q_employment_type : option string;
  q_experience_level : option string;
  q_salary_min : option Z;
  q_salary_max : option Z;
  q_search : option string;
  q_sort : option string;
  q_order : option string
}.

Record WhereClause := {
  w_is_active : bool;
  w_location : option string;          (* ILIKE %x% *)
  w_employment_type : option string;
  w_experience_level : option string;
  w_salary_min : option Z;             (* salary_min >= x *)
  w_salary_max : option Z;             (* salary_max <= x *)
  w_search : option string             (* title, description or requirements ILIKE %x% *)
}.

Definition given (o : option string) : bool :=
  match o with Some s => negb (s =? "")%string | None => false end.

Fixpoint contains (needle hay : string) : bool :=
  String.prefix needle hay
  || match hay with
     | EmptyString => false
     | String _ rest => contains needle rest
     end.

Definition ilike (x : string) (column : option string) : bool :=
  match column with
  | Some v => contains (lower x) (lower v)
  | None => false
  end.

Definition holds {A} (o : option A) (p : A -> bool) : bool :=
  match o with Some a => p a | None => true end.

Definition matches (w : WhereClause) (j : Job) : bool :=
  Bool.eqb (job_is_active j) (w_is_active w)
  && holds (w_location w) (fun x => ilike x (job_location j))
  && holds (w_employment_type w) (fun x => collate_eq (job_employment_type j) x)
  && holds (w_experience_level w) (fun x => collate_eq (job_experience_level j) x)
  && holds (w_salary_min w)
       (fun x => match job_salary_min j with Some m => (x <=? m)%Z | None => false end)
  && holds (w_salary_max w)
       (fun x => match job_salary_max j with Some m => (m <=? x)%Z | None => false end)
  && holds (w_search w)
       (fun x => ilike x (Some (job_title j)) || ilike x (Some (job_description j))
                 || ilike x (job_requirements j)).

(** The operators of the ORM, were [Op] bound. *)
Inductive Operators := SequelizeOp.

(** routes/jobs.js requires the models, the auth middleware and
    [validateJob], and declares no [Op]: reading the identifier throws. *)
Definition Op : M DB Operators := throw (ReferenceError "Op").

Record Pagination := {
  current_page : Z;
  total_pages : option Z;     (* [None]: not a finite number *)
  total_items : nat;
  items_per_page : Z
}.

(** [Math.ceil(count / limit)] *)
Definition ceil_div (count : nat) (limit : Z) : option Z :=
  if (limit =? 0)%Z then None else Some (- ((- Z.of_nat count) / limit))%Z.

Definition with_location x w :=
  {| w_is_active := w_is_active w; w_location := Some x;
     w_employment_type := w_employment_type w; w_experience_level := w_experience_level w;
     w_salary_min := w_salary_min w; w_salary_max := w_salary_max w; w_search := w_search w |}.
Definition with_employment_type x w :=
  {| w_is_active := w_is_active w; w_location := w_location w;
     w_employment_type := Some x; w_experience_level := w_experience_level w;
     w_salary_min := w_salary_min w; w_salary_max := w_salary_max w; w_search := w_search w |}.
Definition with_experience_level x w :=
  {| w_is_active := w_is_active w; w_location := w_location w;
     w_employment_type := w_employment_type w; w_experience_level := Some x;
     w_salary_min := w_salary_min w; w_salary_max := w_salary_max w; w_search := w_search w |}.
Definition with_salary_min x w :=
  {| w_is_active := w_is_active w; w_location := w_location w;
     w_employment_type := w_employment_type w; w_experience_level := w_experience_level w;
     w_salary_min := Some x; w_salary_max := w_salary_max w; w_search := w_search w |}.
Definition with_salary_max x w :=
  {| w_is_active := w_is_active w; w_location := w_location w;
     w_employment_type := w_employment_type w; w_experience_level := w_experience_level w;
     w_salary_min := w_salary_min w; w_salary_max := Some x; w_search := w_search w |}.
Definition with_search x w :=
  {| w_is_active := w_is_active w; w_location := w_location w;
     w_employment_type := w_employment_type w; w_experience_level := w_experience_level w;
     w_salary_min := w_salary_min w; w_salary_max := w_salary_max w; w_search := Some x |}.

Definition or_default {A} (o : option A) (d : A) : A :=
  match o with Some a => a | None => d end.

(** The columns of the jobs table (schema.sql), and the directions of
    an ORDER BY. *)
Definition columns : list string :=
  ["id"; "employer_id"; "title"; "description"; "requirements"; "location";
   "salary_min"; "salary_max"; "employment_type"; "experience_level"; "is_active";
   "application_deadline"; "created_at"; "updated_at"].

Definition directions : list string := ["ASC"; "DESC"].

Section Router.
Variable is_email : string -> bool.
Variable to_number : string -> option Z.
Variable to_date : string -> option Z.
(** ORDER BY column direction, for a column of the table. *)
Variable order_rows : string -> string -> list Job -> list Job.

(** [Job.findAndCountAll({where, include, limit, offset, order})]: a
    direction that is none of the two, a column the table does not have
    and a negative LIMIT or OFFSET make the statement fail, in the ORM or
    in the server. *)
Definition Job_findAndCountAll (w : WhereClause) (limit offset : Z) (sort order : string)
  : M DB (list Job * nat) :=
  if negb (existsb (String.eqb order) directions) then throw DatabaseError
  else if negb (existsb (collate_eq sort) columns) then throw DatabaseError
  else if (limit <? 0)%Z || (offset <? 0)%Z then throw DatabaseError
  else gets (fun d =>
         let found := filter (matches w) (jobs d) in
         (firstn (Z.to_nat limit) (skipn (Z.to_nat offset) (order_rows sort order found)),
          List.length found)).

(** *** GET /api/jobs *)
Definition GET_jobs (q : Query) : M DB (Response (list Job * Pagination)) :=
  try_catch
    (let page := or_default (q_page q) 1%Z in
     let limit := or_default (q_limit q) 10%Z in
     let sort := or_default (q_sort q) "created_at" in
     let order := or_default (q_order q) "DESC" in
     let offset := ((page - 1) * limit)%Z in
     let whereClause :=
       {| w_is_active := true; w_location := None; w_employment_type := None;
          w_experience_level := None; w_salary_min := None; w_salary_max := None;
          w_search := None |} in
     whereClause <-
       (if given (q_location q)
        then _ <- Op ;; ret (with_location (or_default (q_location q) "") whereClause)
        else ret whereClause) ;;
     whereClause <-
       (if given (q_employment_type q)
        then ret (with_employment_type (or_default (q_employment_type q) "") whereClause)
        else ret whereClause) ;;
     whereClause <-
       (if given (q_experience_level q)
        then ret (with_experience_level (or_default (q_experience_level q) "") whereClause)
        else ret whereClause) ;;
     whereClause <-
       (match q_salary_min q with
        | Some x => _ <- Op ;; ret (with_salary_min x whereClause)
        | None => ret whereClause
        end) ;;
     whereClause <-
       (match q_salary_max q with
        | Some x => _ <- Op ;; ret (with_salary_max x whereClause)
        | None => ret whereClause
        end) ;;
     whereClause <-
       (if given (q_search q)
        then _ <- Op ;; ret (with_search (or_default (q_search q) "") whereClause)
        else ret whereClause) ;;
     jobs <- Job_findAndCountAll whereClause limit offset sort (upper order) ;;
     ret (Success 200
            (fst jobs,
             {| current_page := page;
                total_pages := ceil_div (snd jobs) limit;
                total_items := snd jobs;
                items_per_page := limit |})
            None))
    (fun _ => ret (Failure 500 "Failed to fetch jobs")).

(** *** POST /api/jobs *)

Definition column_string (v : value) : option string :=
  match v with VStr s => Some s | _ => None end.
(** DECIMAL columns take a number or a numeral. *)
Definition column_decimal (v : value) : option Z :=
  match v with VNum n => Some n | VStr s => to_number s | _ => None end.
Definition column_date (v : value) : option Z :=
  match v with VNum n => Some n | VStr s => to_date s | _ => None end.

Definition create_handler (user : User) (body : list (string * value))
  : M DB (Response (option Job)) :=
  try_catch
    (job <- Job_insert (fun id =>
       {| job_id := id;
          job_employer_id := user_id user;
          job_title := or_default (column_string (lookup "title" body)) "";
          job_description := or_default (column_string (lookup "description" body)) "";
          job_requirements := column_string (lookup "requirements" body);
          job_location := column_string (lookup "location" body);
          job_salary_min := column_decimal (lookup "salary_min" body);
          job_salary_max := column_decimal (lookup "salary_max" body);
          job_employment_type :=
            or_default (column_string (lookup "employment_type" body)) "full-time";
          job_experience_level :=
            or_default (column_string (lookup "experience_level" body)) "mid";
          job_is_active := true;
          job_application_deadline := column_date (lookup "application_deadline" body) |}) ;;
     jobWithEmployer <- Job_findByPk (job_id job) ;;
     ret (Success 201 jobWithEmployer (Some "Job created successfully")))
    (fun _ => ret (Failure 500 "Failed to create job")).

(** [router.post('/', auth, authorize('employer', 'admin'), validateJob, ...)] *)
Definition POST_jobs (now : Z) (user : User) (body : list (string * value))
  : M DB (Response (option Job)) :=
  match authorize ["employer"; "admin"] (Some user) with
  | Respond r => ret r
  | Next =>
      match Validation.validateJob is_email to_number to_date now body with
      | Respond r => ret r
      | Next => create_handler user body
      end
  end.

(** *** PUT /api/jobs/:id *)

(** [job.update(req.body)]: the columns the body names are rewritten. *)
Definition sent {A} (body : list (string * value)) (k : string)
    (column : value -> A) (old : A) : A :=
  match lookup k body with
  | VUndefined => old
  | v => column v
  end.

Definition with_body (body : list (string * value)) (j : Job) : Job :=
  {| job_id := job_id j;
     job_employer_id := job_employer_id j;
     job_title := sent body "title" (fun v => or_default (column_string v) "") (job_title j);
     job_description :=
       sent body "description" (fun v => or_default (column_string v) "") (job_description j);
     job_requirements := sent body "requirements" column_string (job_requirements j);
     job_location := sent body "location" column_string (job_location j);
     job_salary_min := sent body "salary_min" column_decimal (job_salary_min j);
     job_salary_max := sent body "salary_max" column_decimal (job_salary_max j);
     job_employment_type :=
       sent body "employment_type" (fun v => or_default (column_string v) "full-time")
            (job_employment_type j);
     job_experience_level :=
       sent body "experience_level" (fun v => or_default (column_string v) "mid")
            (job_experience_level j);
     job_is_active := job_is_active j;
     job_application_deadline :=
       sent body "application_deadline" column_date (job_application_deadline j) |}.

Definition update_handler (user : User) (id : nat) (body : list (string * value))
  : M DB (Response (option Job)) :=
  try_catch
    (job <- Job_findOne (fun j => (job_id j =? id) && (job_employer_id j =? user_id user)) ;;
     match job with
     | None => ret (Failure 404 "Job not found or access denied")
     | Some job =>
         Job_update (job_id job) (with_body body) ;;;
         updatedJob <- Job_findByPk (job_id job) ;;
         ret (Success 200 updatedJob (Some "Job updated successfully"))
     end)
    (fun _ => ret (Failure 500 "Failed to update job")).

(** [router.put('/:id', auth, authorize('employer', 'admin'), validateJob, ...)] *)
Definition PUT_job (now : Z) (user : User) (id : nat) (body : list (string * value))
  : M DB (Response (option Job)) :=
  match authorize ["employer"; "admin"] (Some user) with
  | Respond r => ret r
  | Next =>
      match Validation.validateJob is_email to_number to_date now body with
      | Respond r => ret r
      | Next => update_handler user id body
      end
  end.

End Router.

(** *** DELETE /api/jobs/:id *)

Definition delete_handler (user : User) (id : nat) : M DB (Response (option Job)) :=
  try_catch
    (job <- Job_findOne (fun j => (job_id j =? id) && (job_employer_id j =? user_id user)) ;;
     match job with
     | None => ret (Failure 404 "Job not found or access denied")
     | Some job =>
         Job_destroy (job_id job) ;;;
         ret (Success 200 None (Some "Job deleted successfully"))
     end)
    (fun _ => ret (Failure 500 "Failed to delete job")).

Definition DELETE_job (user : User) (id : nat) : M DB (Response (option Job)) :=
  match authorize ["employer"; "admin"] (Some user) with
  | Respond r => ret r
  | Next => delete_handler user id
  end.

(** *** POST /api/jobs/:id/toggle-status *)

Definition toggle_handler (user : User) (id : nat) : M DB (Response (option Job)) :=
  try_catch
    (job <- Job_findOne (fun j => (job_id j =? id) && (job_employer_id j =? user_id user)) ;;
     match job with
     | None => ret (Failure 404 "Job not found or access denied")
     | Some job =>
         Job_update (job_id job) (with_is_active (negb (job_is_active job))) ;;;
         ret (Success 200 (Some (with_is_active (negb (job_is_active job)) job))
                (Some (if negb (job_is_active job)
                       then "Job activated successfully"
                       else "Job deactivated successfully")))
     end)
    (fun _ => ret (Failure 500 "Failed to toggle job status")).

Definition POST_toggle_status (user : User) (id : nat) : M DB (Response (option Job)) :=
  match authorize ["employer"; "admin"] (Some user) with
  | Respond r => ret r
  | Next => toggle_handler user id
  end.

(** *** The module

    [const { auth, authorize, optionalAuth } = require('../middleware/auth')]
    and [const { validateJob } = require('../middleware/validation')] bind
    functions. *)
Module Bound.
Definition auth : Express.handle := Express.AFunction.
Definition authorize : Express.handle := Express.AFunction.
Definition optionalAuth : Express.handle := Express.AFunction.
Definition validateJob : Express.handle := Express.AFunction.
Definition callback : Express.handle := Express.AFunction.
End Bound.

Definition routes : list Express.Route :=
  [ {| Express.method := "get"; Express.path := "/";
       Express.handles := [Bound.optionalAuth; Bound.callback] |};
    {| Express.method := "get"; Express.path := "/:id";
       Express.handles := [Bound.optionalAuth; Bound.callback] |};
    {| Express.method := "post"; Express.path := "/";
       Express.handles := [Bound.auth; Bound.authorize; Bound.validateJob; Bound.callback] |};
    {| Express.method := "put"; Express.path := "/:id";
       Express.handles := [Bound.auth; Bound.authorize; Bound.validateJob; Bound.callback] |};
    {| Express.method := "delete"; Express.path := "/:id";
       Express.handles := [Bound.auth; Bound.authorize; Bound.callback] |};
    {| Express.method := "get"; Express.path := "/employer/my-jobs";
       Express.handles := [Bound.auth; Bound.authorize; Bound.callback] |};
    {| Express.method := "post"; Express.path := "/:id/toggle-status";
       Express.handles := [Bound.auth; Bound.authorize; Bound.callback] |};
    {| Express.method := "get"; Express.path := "/search/suggestions";
       Express.handles := [Bound.callback] |} ].

(** [module.exports = router] *)
Definition router : result (list Express.Route) := Express.register_all routes.

End Jobs.

(* ------------------------------------------------------------------ *)
(** ** routes/resumes.js *)

Module Resumes.
Import JS Schema Eff Http.
Local Open Scope eff_scope.

(** One entry of [req.body.skills]. *)
Record SkillData := {
  sd_name : string;
  sd_proficiency_level : option string;
  sd_years_experience : option Z;
  sd_category : option string
}.

Record ExperienceData := {
  xd_company_name : string;
  xd_position : string;
  xd_start_date : Z
}.
Record EducationData := { ed_institution : string; ed_degree : string }.

(** The fields the handlers read from [req.body]: a body that sends
    strings as strings, numbers as JSON numbers and the three lists as
    arrays of objects. *)
Record Body := {
  rb_title : string;
  rb_summary : option string;
  rb_experience_years : option Z;
  rb_skills : option (list SkillData);
  rb_work_experience : option (list ExperienceData);
  rb_education : option (list EducationData)
}.

(** [req.body] as [validateResume] receives it. *)
Definition sent {A} (k : string) (to : A -> value) (o : option A) : list (string * value) :=
  match o with
  | Some a => [(k, to a)]
  | None => []
  end.

Definition skill_object (s : SkillData) : value :=
  VObj ([("name", VStr (sd_name s))]
        ++ sent "proficiency_level" VStr (sd_proficiency_level s)
        ++ sent "years_experience" VNum (sd_years_experience s)
        ++ sent "category" VStr (sd_category s)).

Definition experience_object (x : ExperienceData) : value :=
  VObj [("company_name", VStr (xd_company_name x)); ("position", VStr (xd_position x));
        ("start_date", VNum (xd_start_date x))].

Definition education_object (e : EducationData) : value :=
  VObj [("institution", VStr (ed_institution e)); ("degree", VStr (ed_degree e))].

Definition body_object (b : Body) : list (string * value) :=
  [("title", VStr (rb_title b))]
  ++ sent "summary" VStr (rb_summary b)
  ++ sent "experience_years" VNum (rb_experience_years b)
  ++ sent "skills" (fun l => VArr (map skill_object l)) (rb_skills b)
  ++ sent "work_experience" (fun l => VArr (map experience_object l)) (rb_work_experience b)
  ++ sent "education" (fun l => VArr (map education_object l)) (rb_education b).

(** [x || fallback] on an optional string and an optional number. *)
Definition or_string (o : option string) (fallback : string) : string :=
  match o with
  | Some s => if (s =? "")%string then fallback else s
  | None => fallback
  end.

Definition or_number (o : option Z) (fallback : Z) : Z :=
  match o with
  | Some n => if (n =? 0)%Z then fallback else n
  | None => fallback
  end.

Definition Resume_findOne (where_ : Resume -> bool) : M DB (option Resume) :=
  gets (fun d => find where_ (resumes d)).

Definition Resume_create (user : nat) (title : string) (summary : option string)
    (experience_years : Z) (file_url : option string) : M DB Resume :=
  fun d =>
    let row := {| resume_id := next_resume_id d; resume_user_id := user;
                  resume_title := title; resume_summary := summary;
                  resume_experience_years := experience_years;
                  resume_file_url := file_url |} in
    (Ok row, set_resumes (fun l => l ++ [row]) (S (next_resume_id d)) d).

Definition Resume_update (id : nat) (f : Resume -> Resume) : M DB unit :=
  modify (fun d => set_resumes (map (fun r => if resume_id r =? id then f r else r))
                               (next_resume_id d) d).

(** [resume.destroy()]: one DELETE statement; the schema cascades. *)
Definition Resume_destroy (id : nat) : M DB unit :=
  modify (delete_resume id).

(** [Skill.findOrCreate({where: {name}, defaults: {category}})]: the
    SELECT compares the name as the column does. *)
Definition Skill_findOrCreate (name category : string) : M DB Skill :=
  fun d =>
    match find (fun s => collate_eq (skill_name s) name) (skills d) with
    | Some s => (Ok s, d)
    | None =>
        let row := {| skill_id := next_skill_id d; skill_name := name;
                      skill_category := category |} in
        (Ok row, set_skills (fun l => l ++ [row]) (S (next_skill_id d)) d)
    end.

(** [ResumeSkill.create]: the insert fails on
    UNIQUE KEY unique_resume_skill (resume_id, skill_id). *)
Definition ResumeSkill_create (resume skill : nat) (proficiency_level : string)
    (years_experience : Z) : M DB unit :=
  fun d =>
    if existsb (fun l => (rs_resume_id l =? resume) && (rs_skill_id l =? skill))
               (resume_skills d)
    then (Throw (UniqueConstraintError "unique_resume_skill"), d)
    else
      let row := {| rs_id := next_resume_skill_id d; rs_resume_id := resume;
                    rs_skill_id := skill; rs_proficiency_level := proficiency_level;
                    rs_years_experience := years_experience |} in
      (Ok tt, set_resume_skills (fun l => l ++ [row]) (S (next_resume_skill_id d)) d).

(** [ResumeSkill.destroy({where: {resume_id}})] *)
Definition ResumeSkill_destroy_where (resume : nat) : M DB unit :=
  modify (fun d => set_resume_skills (filter (fun l => negb (rs_resume_id l =? resume)))
                                     (next_resume_skill_id d) d).

Definition WorkExperience_create (resume : nat) (x : ExperienceData) : M DB unit :=
  modify (fun d =>
    set_work_experience
      (fun l => l ++ [{| we_id := next_work_experience_id d; we_resume_id := resume;
                         we_company_name := xd_company_name x;
                         we_position := xd_position x |}])
      (S (next_work_experience_id d)) d).

Definition Education_create (resume : nat) (e : EducationData) : M DB unit :=
  modify (fun d =>
    set_education
      (fun l => l ++ [{| edu_id := next_education_id d; edu_resume_id := resume;
                         edu_institution := ed_institution e;
                         edu_degree := ed_degree e |}])
      (S (next_education_id d)) d).

(** The loop both handlers run over the supplied skills. *)
Definition link_skills (resume : nat) (skills : list SkillData) : M DB unit :=
  for_of skills (fun skillData =>
    skill <- Skill_findOrCreate (sd_name skillData)
                                (or_string (sd_category skillData) "General") ;;
    ResumeSkill_create resume (skill_id skill)
      (or_string (sd_proficiency_level skillData) "intermediate")
      (or_number (sd_years_experience skillData) 0%Z)).

(** A resume with its associations, as the final [findByPk] asks for them. *)
Record Complete := {
  c_resume : Resume;
  c_resume_skills : list (ResumeSkill * option Skill);
  c_work_experience : list WorkExperience;
  c_education : list Education
}.

Definition links_of (d : DB) (resume : nat) : list ResumeSkill :=
  filter (fun l => rs_resume_id l =? resume) (resume_skills d).

Definition skill_of (d : DB) (l : ResumeSkill) : option Skill :=
  find (fun s => skill_id s =? rs_skill_id l) (skills d).

(** [include: [{model: ResumeSkill, include: [{model: Skill}]},
               {model: WorkExperience}, {model: Education}]], the include of
    every query of the module that has one. *)
Definition with_associations : list Orm.Included :=
  [ Orm.Of Orm.ResumeSkill None [Orm.Of Orm.Skill None []];
    Orm.Of Orm.WorkExperience None [];
    Orm.Of Orm.Education None [] ].

Definition Resume_findByPk_complete (id : nat) : M DB (option Complete) :=
  Orm.including Orm.Resume with_associations
    (gets (fun d =>
       option_map (fun r =>
         {| c_resume := r;
            c_resume_skills := map (fun l => (l, skill_of d l)) (links_of d id);
            c_work_experience := filter (fun w => we_resume_id w =? id) (work_experience d);
            c_education := filter (fun e => edu_resume_id e =? id) (education d) |})
         (find (fun r => resume_id r =? id) (resumes d)))).

(** *** POST /api/resumes: the callback *)
Definition create_handler (user : User) (file : option string) (b : Body)
  : M DB (Response (option Complete)) :=
  try_catch
    (resume <- Resume_create (user_id user) (rb_title b) (rb_summary b)
                             (or_number (rb_experience_years b) 0%Z) file ;;
     match rb_skills b with
     | Some skills => link_skills (resume_id resume) skills
     | None => ret tt
     end ;;;
     match rb_work_experience b with
     | Some l => for_of l (WorkExperience_create (resume_id resume))
     | None => ret tt
     end ;;;
     match rb_education b with
     | Some l => for_of l (Education_create (resume_id resume))
     | None => ret tt
     end ;;;
     completeResume <- Resume_findByPk_complete (resume_id resume) ;;
     ret (Success 201 completeResume (Some "Resume created successfully")))
    (fun _ => ret (Failure 500 "Failed to create resume")).

(** *** PUT /api/resumes/:id: the callback *)

Definition with_update (file : option string) (b : Body) (r : Resume) : Resume :=
  {| resume_id := resume_id r; resume_user_id := resume_user_id r;
     resume_title := rb_title b;
     resume_summary := match rb_summary b with Some s => Some s | None => resume_summary r end;
     resume_experience_years :=
       match rb_experience_years b with Some n => n | None => resume_experience_years r end;
     resume_file_url := match file with Some f => Some f | None => resume_file_url r end |}.

Definition update_handler (user : User) (id : nat) (file : option string) (b : Body)
  : M DB (Response (option Complete)) :=
  try_catch
    (resume <- Resume_findOne (fun r => (resume_id r =? id)
                                        && (resume_user_id r =? user_id user)) ;;
     match resume with
     | None => ret (Failure 404 "Resume not found")
     | Some resume =>
         Resume_update (resume_id resume) (with_update file b) ;;;
         match rb_skills b with
         | Some skills =>
             ResumeSkill_destroy_where (resume_id resume) ;;;
             link_skills (resume_id resume) skills
         | None => ret tt
         end ;;;
         updatedResume <- Resume_findByPk_complete (resume_id resume) ;;
         ret (Success 200 updatedResume (Some "Resume updated successfully"))
     end)
    (fun _ => ret (Failure 500 "Failed to update resume")).

(** *** DELETE /api/resumes/:id: the callback *)
Definition DELETE_resume (user : User) (id : nat) : M DB (Response (option Complete)) :=
  try_catch
    (resume <- Resume_findOne (fun r => (resume_id r =? id)
                                        && (resume_user_id r =? user_id user)) ;;
     match resume with
     | None => ret (Failure 404 "Resume not found")
     | Some resume =>
         Resume_destroy (resume_id resume) ;;;
         ret (Success 200 None (Some "Resume deleted successfully"))
     end)
    (fun _ => ret (Failure 500 "Failed to delete resume")).

(** *** The handles after [auth]

    [validateResume], then [upload.single('resume_file')], whose outcome
    is the name of the stored file, then the callback. *)
Section Chain.
Variable is_email : string -> bool.
Variable to_number : string -> option Z.
Variable to_date : string -> option Z.

Definition POST_resumes (now : Z) (user : User) (file : option string) (b : Body)
  : M DB (Response (option Complete)) :=
  match Validation.validateResume is_email to_number to_date now (body_object b) with
  | Respond r => ret r
  | Next => create_handler user file b
  end.

Definition PUT_resume (now : Z) (user : User) (id : nat) (file : option string) (b : Body)
  : M DB (Response (option Complete)) :=
  match Validation.validateResume is_email to_number to_date now (body_object b) with
  | Respond r => ret r
  | Next => update_handler user id file b
  end.

End Chain.

(** *** The module

    [const auth = require('../middleware/auth')] binds the object that
    middleware/auth.js exports, [{auth, authorize, optionalAuth}], not the
    function of that name.  The first registration is given the object
    and throws; the callbacks above are the functions the file passes
    next to it. *)
Module Bound.
Definition auth : Express.handle := Express.AnObject.
Definition validateResume : Express.handle := Express.AFunction.
Definition upload_single : Express.handle := Express.AFunction.
Definition callback : Express.handle := Express.AFunction.
End Bound.

Definition routes : list Express.Route :=
  [ {| Express.method := "get"; Express.path := "/";
       Express.handles := [Bound.auth; Bound.callback] |};
    {| Express.method := "get"; Express.path := "/:id";
       Express.handles := [Bound.auth; Bound.callback] |};
    {| Express.method := "post"; Express.path := "/";
       Express.handles := [Bound.auth; Bound.validateResume; Bound.upload_single;
                           Bound.callback] |};
    {| Express.method := "put"; Express.path := "/:id";
       Express.handles := [Bound.auth; Bound.validateResume; Bound.upload_single;
                           Bound.callback] |};
    {| Express.method := "delete"; Express.path := "/:id";
       Express.handles := [Bound.auth; Bound.callback] |} ].

(** [module.exports = router] is not reached. *)
Definition router : result (list Express.Route) := Express.register_all routes.

End Resumes.

(* ------------------------------------------------------------------ *)
(** ** routes/ai.js *)

Module AI.
Import JS Schema Eff Http.
Local Open Scope eff_scope.

(** What one call of [openai.chat.completions.create] comes to: it
    rejects, or it resolves with the text of the first choice. *)
Inductive Completion :=
| CallFails
| Content (text : string).

(** The store of the AI handlers: the database and the outcomes of the
    calls still to be made to the completion service, in order.  A call
    takes the first; when none is left the service is unreachable. *)
Record World := {
  db : DB;
  service : list Completion
}.

Definition liftDB {A} (m : M DB A) : M World A :=
  fun w => let (r, d) := m (db w) in (r, {| db := d; service := service w |}).

Definition openai_create : M World string :=
  fun w =>
    match service w with
    | [] => (Throw APIError, w)
    | CallFails :: rest => (Throw APIError, {| db := db w; service := rest |})
    | Content text :: rest => (Ok text, {| db := db w; service := rest |})
    end.

(** [v.k]: reading a property of [null] or [undefined] throws. *)
Definition prop (k : string) (v : value) : M World value :=
  match v with
  | VUndefined | VNull => throw TypeError
  | _ => ret (get k v)
  end.

Definition AIAnalysis_create (resume : option nat) (job : option nat) (type : string)
    (score insights : value) : M DB AIAnalysis :=
  fun d =>
    let row := {| ai_id := next_ai_analysis_id d; ai_resume_id := resume; ai_job_id := job;
                  ai_analysis_type := type; ai_score := score; ai_insights := insights |} in
    (Ok row, set_ai_analysis (fun l => l ++ [row]) (S (next_ai_analysis_id d)) d).

(** [Resume.findOne({where: {id, user_id}, include})]: each handler
    names its associations by alias. *)
Definition find_resume (include : list string) (user : User) (id : nat)
  : M World (option Resume) :=
  liftDB (Orm.including Orm.Resume (map Orm.Named include)
            (gets (fun d => find (fun r => (resume_id r =? id)
                                           && (resume_user_id r =? user_id user))
                                 (resumes d)))).

(** Data of the replies. *)
Record Analysis := { analysis_id : nat; analysis : value }.
Record JobMatch := { matched_job : Job; matched : value }.
Record Matches := { matches : list JobMatch; total_jobs_analyzed : nat }.

Section Router.
(** [JSON.parse]; [None] when it throws a SyntaxError. *)
Variable JSON_parse : string -> option value.
(** ToNumber on a string; [None] is NaN. *)
Variable to_number : string -> option Z.

Definition parse (text : string) : M World value :=
  match JSON_parse text with
  | Some v => ret v
  | None => throw SyntaxError
  end.

(** *** POST /api/ai/analyze-resume: the callback *)

(** What follows the guard [if (!resume)]. *)
Definition analyze_found (resume : Resume) : M World (Response Analysis) :=
  content <- openai_create ;;
  analysis <- parse content ;;
  score <- prop "score" analysis ;;
  aiAnalysis <- liftDB (AIAnalysis_create (Some (Schema.resume_id resume)) None
                                          "resume_score" score analysis) ;;
  ret (Success 200 {| analysis_id := ai_id aiAnalysis; analysis := analysis |} None).

Definition analyze_resume (user : User) (resume_id : nat) : M World (Response Analysis) :=
  try_catch
    (resume <- find_resume ["skills"; "work_experience"; "education"] user resume_id ;;
     match resume with
     | None => ret (Failure 404 "Resume not found")
     | Some resume => analyze_found resume
     end)
    (fun _ => ret (Failure 500 "Failed to analyze resume")).

(** *** POST /api/ai/match-jobs *)

(** [jobs[match.job_index - 1]]; an index that is no position of the
    array reads [undefined].  Only numbers and numerals are converted. *)
Definition job_at (jobs : list Job) (job_index : value) : option Job :=
  match match job_index with
        | VNum n => Some n
        | VStr s => to_number s
        | _ => None
        end with
  | Some n => if (1 <=? n)%Z then nth_error jobs (Z.to_nat (n - 1)) else None
  | None => None
  end.

Fixpoint map_matches (jobs : list Job) (ms : list value) : M World (list JobMatch) :=
  match ms with
  | [] => ret []
  | m :: rest =>
      job_index <- prop "job_index" m ;;
      match job_at jobs job_index with
      | None => throw TypeError          (* job.id of undefined *)
      | Some job =>
          tail <- map_matches jobs rest ;;
          ret ({| matched_job := job; matched := m |} :: tail)
      end
  end.

Definition match_found (resume : Resume) : M World (Response Matches) :=
  jobs <- liftDB (gets (fun d => firstn 50 (rev (filter job_is_active (jobs d))))) ;;
  content <- openai_create ;;
  parsed <- parse content ;;
  match parsed with
  | VArr ms =>
      jobMatches <- map_matches jobs ms ;;
      for_of (firstn 5 jobMatches) (fun m =>
        _ <- liftDB (AIAnalysis_create
                       (Some (Schema.resume_id resume))
                       (Some (job_id (matched_job m)))
                       "job_match"
                       (get "match_score" (matched m))
                       (VObj [("matching_skills", get "matching_skills" (matched m));
                              ("missing_skills", get "missing_skills" (matched m));
                              ("reasoning", get "reasoning" (matched m))])) ;;
        ret tt) ;;;
      ret (Success 200 {| matches := jobMatches;
                          total_jobs_analyzed := List.length jobs |} None)
  | _ => throw TypeError          (* matches.map is not a function *)
  end.

Definition match_jobs (user : User) (resume_id : nat) : M World (Response Matches) :=
  try_catch
    (resume <- find_resume ["skills"; "work_experience"] user resume_id ;;
     match resume with
     | None => ret (Failure 404 "Resume not found")
     | Some resume => match_found resume
     end)
    (fun _ => ret (Failure 500 "Failed to match jobs")).

(** *** POST /api/ai/skill-gap-analysis: the callback *)
Definition skill_gap_found (resume : Resume) (target_role target_industry : value)
  : M World (Response Analysis) :=
  content <- openai_create ;;
  analysis <- parse content ;;
  score <- prop "overall_readiness" analysis ;;
  aiAnalysis <- liftDB (AIAnalysis_create (Some (Schema.resume_id resume)) None
                          "skill_gap" score
                          (VObj (("target_role", target_role)
                                 :: ("target_industry", target_industry)
                                 :: spread analysis))) ;;
  ret (Success 200 {| analysis_id := ai_id aiAnalysis; analysis := analysis |} None).

Definition skill_gap_analysis (user : User) (resume_id : nat)
    (target_role target_industry : value) : M World (Response Analysis) :=
  try_catch
    (resume <- find_resume ["skills"; "work_experience"] user resume_id ;;
     match resume with
     | None => ret (Failure 404 "Resume not found")
     | Some resume => skill_gap_found resume target_role target_industry
     end)
    (fun _ => ret (Failure 500 "Failed to analyze skill gaps")).

(** *** POST /api/ai/improve-resume: the callback *)
Definition improve_found (resume : Resume) : M World (Response value) :=
  content <- openai_create ;;
  improvements <- parse content ;;
  ret (Success 200 improvements None).

Definition improve_resume (user : User) (resume_id : nat) : M World (Response value) :=
  try_catch
    (resume <- find_resume ["skills"; "work_experience"; "education"] user resume_id ;;
     match resume with
     | None => ret (Failure 404 "Resume not found")
     | Some resume => improve_found resume
     end)
    (fun _ => ret (Failure 500 "Failed to generate improvement suggestions")).

End Router.

(** *** The module

    As in routes/resumes.js, [const auth = require('../middleware/auth')]
    binds the exported object, and the first registration throws. *)
Module Bound.
Definition auth : Express.handle := Express.AnObject.
Definition callback : Express.handle := Express.AFunction.
End Bound.

Definition routes : list Express.Route :=
  [ {| Express.method := "post"; Express.path := "/analyze-resume";
       Express.handles := [Bound.auth; Bound.callback] |};
    {| Express.method := "post"; Express.path := "/match-jobs";
       Express.handles := [Bound.auth; Bound.callback] |};
    {| Express.method := "post"; Express.path := "/skill-gap-analysis";
       Express.handles := [Bound.auth; Bound.callback] |};
    {| Express.method := "get"; Express.path := "/analysis-history";
       Express.handles := [Bound.auth; Bound.callback] |};
    {| Express.method := "post"; Express.path := "/improve-resume";
       Express.handles := [Bound.auth; Bound.callback] |} ].

(** [module.exports = router] is not reached. *)
Definition router : result (list Express.Route) := Express.register_all routes.

End AI.

(* ------------------------------------------------------------------ *)
(** ** The mutating requests of the API, in one type *)

Module Server.
Import JS Schema Eff Http.

(** A request is given with the user [auth] resolved for it.  For the
    routes of the resumes and AI modules, which those modules do not get
    to register, it stands for a run of the handles of the route as the
    files chain them; the store it leaves is then the store a server
    would be left with on which the routes were registered as written. *)
Inductive Request :=
| PostApplication (now : Z) (user : User) (b : Applications.CreateBody)
| PutApplication (user : User) (id : nat) (cover_letter : option string)
| DeleteApplication (user : User) (id : nat)
| PutApplicationStatus (user : User) (id : nat) (status : value) (notes : option string)
| PostJob (now : Z) (user : User) (body : list (string * value))
| PutJob (now : Z) (user : User) (id : nat) (body : list (string * value))
| DeleteJob (user : User) (id : nat)
| ToggleJob (user : User) (id : nat)
| PostResume (now : Z) (user : User) (file : option string) (b : Resumes.Body)
| PutResume (now : Z) (user : User) (id : nat) (file : option string) (b : Resumes.Body)
| DeleteResume (user : User) (id : nat)
| AnalyzeResume (user : User) (resume : nat) (service : list AI.Completion)
| MatchJobs (user : User) (resume : nat) (service : list AI.Completion)
| SkillGap (user : User) (resume : nat) (role industry : value) (service : list AI.Completion)
| ImproveResume (user : User) (resume : nat) (service : list AI.Completion).

Section Handle.
Variable is_email : string -> bool.
Variable to_number : string -> option Z.
Variable to_date : string -> option Z.
Variable JSON_parse : string -> option value.

Definition on_world {A} (service : list AI.Completion) (m : M AI.World A) (d : DB) : DB :=
  AI.db (snd (m {| AI.db := d; AI.service := service |})).

(** The store a request leaves behind. *)
Definition handle (r : Request) (d : DB) : DB :=
  match r with
  | PostApplication now u b =>
      snd (Applications.POST_applications is_email to_number to_date now u b d)
  | PutApplication u id c => snd (Applications.PUT_application u id c d)
  | DeleteApplication u id => snd (Applications.DELETE_application u id d)
  | PutApplicationStatus u id st n => snd (Applications.PUT_application_status u id st n d)
  | PostJob now u body => snd (Jobs.POST_jobs is_email to_number to_date now u body d)
  | PutJob now u id body => snd (Jobs.PUT_job is_email to_number to_date now u id body d)
  | DeleteJob u id => snd (Jobs.DELETE_job u id d)
  | ToggleJob u id => snd (Jobs.POST_toggle_status u id d)
  | PostResume now u file b =>
      snd (Resumes.POST_resumes is_email to_number to_date now u file b d)
  | PutResume now u id file b =>
      snd (Resumes.PUT_resume is_email to_number to_date now u id file b d)
  | DeleteResume u id => snd (Resumes.DELETE_resume u id d)
  | AnalyzeResume u id sv => on_world sv (AI.analyze_resume JSON_parse u id) d
  | MatchJobs u id sv => on_world sv (AI.match_jobs JSON_parse to_number u id) d
  | SkillGap u id role ind sv => on_world sv (AI.skill_gap_analysis JSON_parse u id role ind) d
  | ImproveResume u id sv => on_world sv (AI.improve_resume JSON_parse u id) d
  end.

(** The store after a sequence of requests, served one at a time. *)
Definition serve (rs : list Request) (d : DB) : DB :=
  fold_left (fun d r => handle r d) rs d.

End Handle.
End Server.

(* ------------------------------------------------------------------ *)
(** ** Properties the theorems are stated with *)

Module Props.
Import JS Schema Eff Http.

(** Every stored status is one of the five of the enumeration. *)
Definition statuses_valid (d : DB) : Prop :=
  Forall (fun a => In (app_status a) Applications.statuses) (applications d).

(** Two application rows that differ at most in the cover letter. *)
Definition same_except_cover_letter (a a' : Application) : Prop :=
  app_id a' = app_id a /\ app_job_id a' = app_job_id a
  /\ app_applicant_id a' = app_applicant_id a /\ app_resume_id a' = app_resume_id a
  /\ app_status a' = app_status a /\ app_notes a' = app_notes a.

(** The user owns the job of the application with this key. *)
Definition owning_employer (d : DB) (u : User) (id : nat) : Prop :=
  exists a j, In a (applications d) /\ app_id a = id
              /\ Applications.job_of d a = Some j /\ job_employer_id j = user_id u.

(** Referential integrity: every foreign key of the schema points at a row. *)
Definition has_user (d : DB) (id : nat) : Prop := exists u, In u (users d) /\ user_id u = id.
Definition has_resume (d : DB) (id : nat) : Prop := exists r, In r (resumes d) /\ resume_id r = id.
Definition has_job (d : DB) (id : nat) : Prop := exists j, In j (jobs d) /\ job_id j = id.
Definition has_skill (d : DB) (id : nat) : Prop := exists s, In s (skills d) /\ skill_id s = id.

Definition if_set (P : nat -> Prop) (o : option nat) : Prop :=
  match o with Some id => P id | None => True end.

Record referential_integrity (d : DB) : Prop := {
  fk_resumes : forall r, In r (resumes d) -> has_user d (resume_user_id r);
  fk_resume_skills : forall l, In l (resume_skills d) ->
      has_resume d (rs_resume_id l) /\ has_skill d (rs_skill_id l);
  fk_work_experience : forall w, In w (work_experience d) -> has_resume d (we_resume_id w);
  fk_education : forall e, In e (education d) -> has_resume d (edu_resume_id e);
  fk_jobs : forall j, In j (jobs d) -> has_user d (job_employer_id j);
  fk_applications : forall a, In a (applications d) ->
      has_job d (app_job_id a) /\ has_user d (app_applicant_id a)
      /\ has_resume d (app_resume_id a);
  fk_ai_analysis : forall x, In x (ai_analysis d) ->
      if_set (has_resume d) (ai_resume_id x) /\ if_set (has_job d) (ai_job_id x)
}.

(** No row of any table points at the user, the resume or the job. *)
Definition unreferenced_user (d : DB) (id : nat) : Prop :=
  ~ has_user d id
  /\ (forall r, In r (resumes d) -> resume_user_id r <> id)
  /\ (forall j, In j (jobs d) -> job_employer_id j <> id)
  /\ (forall a, In a (applications d) -> app_applicant_id a <> id).

Definition unreferenced_resume (d : DB) (id : nat) : Prop :=
  ~ has_resume d id
  /\ (forall l, In l (resume_skills d) -> rs_resume_id l <> id)
  /\ (forall w, In w (work_experience d) -> we_resume_id w <> id)
  /\ (forall e, In e (education d) -> edu_resume_id e <> id)
  /\ (forall a, In a (applications d) -> app_resume_id a <> id)
  /\ (forall x, In x (ai_analysis d) -> ai_resume_id x <> Some id).

Definition unreferenced_job (d : DB) (id : nat) : Prop :=
  ~ has_job d id
  /\ (forall a, In a (applications d) -> app_job_id a <> id)
  /\ (forall x, In x (ai_analysis d) -> ai_job_id x <> Some id).

(** A skill link made for one supplied entry: it points at the taxonomy
    entry of that name, as the column compares names, and carries the
    entry's proficiency and years, with the handler's defaults. *)
Definition link_for (d : DB) (resume : nat) (l : ResumeSkill) (sd : Resumes.SkillData) : Prop :=
  rs_resume_id l = resume
  /\ (exists s, In s (skills d) /\ skill_id s = rs_skill_id l
                /\ collate_eq (skill_name s) (Resumes.sd_name sd) = true)
  /\ rs_proficiency_level l
     = Resumes.or_string (Resumes.sd_proficiency_level sd) "intermediate"
  /\ rs_years_experience l = Resumes.or_number (Resumes.sd_years_experience sd) 0%Z.

(** Keys of the taxonomy and of the links as AUTO_INCREMENT hands them out. *)
Record keys_fresh (d : DB) : Prop := {
  skill_keys_unique : NoDup (map skill_id (skills d));
  skill_keys_below : forall s, In s (skills d) -> skill_id s < next_skill_id d;
  link_resumes_below : forall l, In l (resume_skills d) -> rs_resume_id l < next_resume_id d
}.

(** The three failures of the completion call: unreachable, rejected, or
    a reply that is not JSON. *)
Definition upstream_fails (JSON_parse : string -> option value) (w : AI.World) : Prop :=
  match AI.service w with
  | [] => True
  | AI.CallFails :: _ => True
  | AI.Content text :: _ => JSON_parse text = None
  end.

Definition resume_of (u : User) (id : nat) (d : DB) : option Resume :=
  find (fun r => (resume_id r =? id) && (resume_user_id r =? user_id u)) (resumes d).

(** The four operations of the AI module, their replies reduced to the
    status code and error text. *)
Inductive Operation :=
| AnalyzeResume
| MatchJobs
| SkillGapAnalysis (target_role target_industry : value)
| ImproveResume.

Definition failure_of {D} (r : result (Response D)) : option (nat * string) :=
  match r with
  | Ok (Failure c e) => Some (c, e)
  | _ => None
  end.

Definition generic_error (op : Operation) : string :=
  match op with
  | AnalyzeResume => "Failed to analyze resume"
  | MatchJobs => "Failed to match jobs"
  | SkillGapAnalysis _ _ => "Failed to analyze skill gaps"
  | ImproveResume => "Failed to generate improvement suggestions"
  end.


(** A computation under the catch of the operation. *)
Definition caught {A} (op : Operation) (m : M AI.World (Response A)) (w : AI.World)
  : option (nat * string) * AI.World :=
  let (r, w') := try_catch m (fun _ => ret (Failure 500 (generic_error op))) w in
  (failure_of r, w').

(** The resume has a link to the skill the taxonomy holds for the name. *)
Definition linked (d : DB) (resume : nat) (name : string) : Prop :=
  exists s, find (fun s => collate_eq (skill_name s) name) (skills d) = Some s
            /\ existsb (fun l => (rs_resume_id l =? resume) && (rs_skill_id l =? skill_id s))
                       (resume_skills d) = true.

(** The public list as the API describes it, for the two filters that
    are plain equalities: active jobs of the employment type and the
    experience level asked for. *)
Definition listed (q : Jobs.Query) (j : Job) : bool :=
  job_is_active j
  && (if Jobs.given (Jobs.q_employment_type q)
      then collate_eq (job_employment_type j) (Jobs.or_default (Jobs.q_employment_type q) "")
      else true)
  && (if Jobs.given (Jobs.q_experience_level q)
      then collate_eq (job_experience_level j) (Jobs.or_default (Jobs.q_experience_level q) "")
      else true).

(** The query sets none of location, salary_min, salary_max, search. *)
Definition plain (q : Jobs.Query) : Prop :=
  Jobs.given (Jobs.q_location q) = false /\ Jobs.q_salary_min q = None
  /\ Jobs.q_salary_max q = None /\ Jobs.given (Jobs.q_search q) = false.

(** The role values [validateRegistration] lets through. *)
Definition role_accepted (v : value) : Prop :=
  v = VUndefined \/ v = VStr "applicant" \/ v = VStr "employer".

(** [router.post('/register', validateRegistration, handler)] for any
    handler: it runs only after the validator called [next()]. *)
Definition register_route {S D} (is_email : string -> bool) (to_number to_date : string -> option Z)
    (now : Z) (handler : list (string * value) -> M S (Response D))
    (body : list (string * value)) : M S (Response D) :=
  match Validation.validateRegistration is_email to_number to_date now body with
  | Respond r => ret r
  | Next => handler body
  end.

(** An application of the applicant for the job is on file. *)
Definition on_file (d : DB) (job applicant : nat) : Prop :=
  exists a, In a (applications d) /\ app_job_id a = job /\ app_applicant_id a = applicant.

(** The applications the overview counts for its caller: an applicant's
    own, and for an employer those for the jobs the employer posted. *)
Definition counted_for (d : DB) (u : User) : list Application :=
  if (user_role u =? "applicant")%string
  then filter (fun a => app_applicant_id a =? user_id u) (applications d)
  else filter (fun a => match Applications.job_of d a with
                        | Some j => job_employer_id j =? user_id u
                        | None => false
                        end) (applications d).

(** How many of the applications have the status. *)
Definition number_with (status : string) (l : list Application) : nat :=
  count_occ string_dec (map app_status l) status.

(** The overview is the count of these applications, status by status. *)
Definition tallies (st : Applications.Stats) (l : list Application) : Prop :=
  Applications.total st = List.length l
  /\ Applications.pending st = number_with "pending" l
  /\ Applications.reviewed st = number_with "reviewed" l
  /\ Applications.shortlisted st = number_with "shortlisted" l
  /\ Applications.rejected st = number_with "rejected" l
  /\ Applications.hired st = number_with "hired" l.

(** A delete removed the rows that hang on the deleted parent and no
    other: what is left of each table, row by row. *)
Definition only_job_rows_removed (d d' : DB) (id : nat) : Prop :=
  users d' = users d /\ resumes d' = resumes d /\ skills d' = skills d
  /\ resume_skills d' = resume_skills d /\ work_experience d' = work_experience d
  /\ education d' = education d
  /\ (forall j, In j (jobs d') <-> In j (jobs d) /\ job_id j <> id)
  /\ (forall a, In a (applications d') <-> In a (applications d) /\ app_job_id a <> id)
  /\ (forall x, In x (ai_analysis d') <-> In x (ai_analysis d) /\ ai_job_id x <> Some id).

Definition only_resume_rows_removed (d d' : DB) (id : nat) : Prop :=
  users d' = users d /\ skills d' = skills d /\ jobs d' = jobs d
  /\ (forall r, In r (resumes d') <-> In r (resumes d) /\ resume_id r <> id)
  /\ (forall l, In l (resume_skills d') <-> In l (resume_skills d) /\ rs_resume_id l <> id)
  /\ (forall w, In w (work_experience d')
                <-> In w (work_experience d) /\ we_resume_id w <> id)
  /\ (forall e, In e (education d') <-> In e (education d) /\ edu_resume_id e <> id)
  /\ (forall a, In a (applications d') <-> In a (applications d) /\ app_resume_id a <> id)
  /\ (forall x, In x (ai_analysis d')
                <-> In x (ai_analysis d) /\ ai_resume_id x <> Some id).

(** The row POST /api/applications inserts. *)
Definition submitted (d : DB) (u : User) (b : Applications.CreateBody) : Application :=
  {| app_id := next_application_id d; app_job_id := Applications.body_job_id b;
     app_applicant_id := user_id u; app_resume_id := Applications.body_resume_id b;
     app_cover_letter := Applications.body_cover_letter b; app_status := "pending";
     app_notes := None |}.

Definition after_submit (d : DB) (u : User) (b : Applications.CreateBody) : DB :=
  set_applications (fun l => l ++ [submitted d u b]) (S (next_application_id d)) d.

(** [m] keeps [P]: from a store satisfying [P] it ends, with a result or
    an exception, in a store satisfying [P]. *)
Definition keeps {S A} (P : S -> Prop) (m : M S A) : Prop :=
  forall s, P s -> P (snd (m s)).

(** Statements that do not write the applications table. *)
Definition leaves_applications {A} (m : M DB A) : Prop :=
  forall d, applications (snd (m d)) = applications d.

Definition valid_world (w : AI.World) : Prop := statuses_valid (AI.db w).

Definition none_of (ids : list nat) (o : option nat) : Prop :=
  forall k, o = Some k -> ~ In k ids.

Definition owned_resumes (id : nat) (d : DB) : list nat :=
  map resume_id (filter (fun r => resume_user_id r =? id) (resumes d)).
Definition owned_jobs (id : nat) (d : DB) : list nat :=
  map job_id (filter (fun j => job_employer_id j =? id) (jobs d)).

(** For a user: the user's resumes and jobs go, and with them what hangs
    on those. *)
Definition only_user_rows_removed (d d' : DB) (id : nat) : Prop :=
  skills d' = skills d
  /\ (forall u, In u (users d') <-> In u (users d) /\ user_id u <> id)
  /\ (forall r, In r (resumes d')
                <-> In r (resumes d) /\ ~ In (resume_id r) (owned_resumes id d))
  /\ (forall j, In j (jobs d') <-> In j (jobs d) /\ ~ In (job_id j) (owned_jobs id d))
  /\ (forall l, In l (resume_skills d')
                <-> In l (resume_skills d) /\ ~ In (rs_resume_id l) (owned_resumes id d))
  /\ (forall w, In w (work_experience d')
                <-> In w (work_experience d) /\ ~ In (we_resume_id w) (owned_resumes id d))
  /\ (forall e, In e (education d')
                <-> In e (education d) /\ ~ In (edu_resume_id e) (owned_resumes id d))
  /\ (forall a, In a (applications d')
                <-> In a (applications d) /\ app_applicant_id a <> id
                    /\ ~ In (app_resume_id a) (owned_resumes id d)
                    /\ ~ In (app_job_id a) (owned_jobs id d))
  /\ (forall x, In x (ai_analysis d')
                <-> In x (ai_analysis d) /\ none_of (owned_resumes id d) (ai_resume_id x)
                    /\ none_of (owned_jobs id d) (ai_job_id x)).

(** The schema of the registration role, and of the two salary keys. *)
Definition role_schema : Joi.schema :=
  Joi.optional (Joi.valid ["applicant"; "employer"] Joi.string).

Definition salary_schema (message : string) : Joi.schema :=
  Joi.messages [("number.positive", message)] (Joi.optional (Joi.positive Joi.number)).

(** The keys of the taxonomy are distinct and below the counter. *)
Definition skills_ok (d : DB) : Prop :=
  NoDup (map skill_id (skills d))
  /\ forall s, In s (skills d) -> skill_id s < next_skill_id d.

End Props.

(* ------------------------------------------------------------------ *)
(** ** Sample data *)

Module Sample.
Import JS Schema.

Definition employer1 : User :=
  {| user_id := 1; user_email := "ada@example.com"; user_role := "employer";
     user_is_active := true |}.
Definition employer2 : User :=
  {| user_id := 2; user_email := "bob@example.com"; user_role := "employer";
     user_is_active := true |}.
Definition applicant7 : User :=
  {| user_id := 7; user_email := "eve@example.com"; user_role := "applicant";
     user_is_active := true |}.

Definition job1 : Job :=
  {| job_id := 1; job_employer_id := 1; job_title := "Backend engineer";
     job_description := "Builds and runs the services behind the board.";
     job_requirements := None; job_location := Some "Remote";
     job_salary_min := None; job_salary_max := None;
     job_employment_type := "contract"; job_experience_level := "mid";
     job_is_active := true; job_application_deadline := None |}.

Definition resume3 : Resume :=
  {| resume_id := 3; resume_user_id := 7; resume_title := "Backend developer";
     resume_summary := None; resume_experience_years := 4%Z; resume_file_url := None |}.

Definition application5 (status : string) : Application :=
  {| app_id := 5; app_job_id := 1; app_applicant_id := 7; app_resume_id := 3;
     app_cover_letter := Some "Dear Ada"; app_status := status; app_notes := None |}.

(** Two employers, one applicant with a resume, one open job. *)
Definition db0 : DB :=
  {| users := [employer1; employer2; applicant7];
     resumes := [resume3]; skills := []; resume_skills := [];
     work_experience := []; education := [];
     jobs := [job1]; applications := []; ai_analysis := [];
     next_resume_id := 4; next_skill_id := 1; next_resume_skill_id := 1;
     next_work_experience_id := 1; next_education_id := 1; next_job_id := 2;
     next_application_id := 5; next_ai_analysis_id := 1 |}.

(** The same with the applicant's application on file. *)
Definition db1 (status : string) : DB :=
  set_applications (fun _ => [application5 status]) 6 db0.

Definition long_description : string :=
  "We are looking for an engineer who enjoys building reliable services.".

(** Stand-ins for what lies outside the source, for running examples. *)
Definition is_email (s : string) : bool := Jobs.contains "@" s.
Definition to_date (s : string) : option Z := JS.integer_of_string s.
Definition JSON_parse (s : string) : option value :=
  if (s =? "{}")%string then Some (VObj [])
  else if (s =? "[]")%string then Some (VArr [])
  else None.

Definition registration_body (role : value) : list (string * value) :=
  [("email", VStr "eve@example.com"); ("password", VStr "correct horse");
   ("first_name", VStr "Eve"); ("last_name", VStr "Moneypenny");
   ("role", role)].

(** A job posting with the salary bounds as given. *)
Definition job_body (salary_min salary_max : value) : list (string * value) :=
  [("title", VStr "Backend engineer"); ("description", VStr long_description);
   ("salary_min", salary_min); ("salary_max", salary_max)].

Definition skill (name : string) (level : option string) (years : option Z)
  : Resumes.SkillData :=
  {| Resumes.sd_name := name; Resumes.sd_proficiency_level := level;
     Resumes.sd_years_experience := years; Resumes.sd_category := None |}.

Definition resume_body (skills : list Resumes.SkillData) : Resumes.Body :=
  {| Resumes.rb_title := "Full-stack developer"; Resumes.rb_summary := None;
     Resumes.rb_experience_years := Some 5%Z; Resumes.rb_skills := Some skills;
     Resumes.rb_work_experience := None; Resumes.rb_education := None |}.

Definition two_skills : list Resumes.SkillData :=
  [skill "React" (Some "advanced") (Some 3%Z); skill "MySQL" None None].

(** The same skill named twice, with two levels. *)
Definition react_twice : list Resumes.SkillData :=
  [skill "React" (Some "beginner") None; skill "React" (Some "expert") None].

(** And named in two spellings. *)
Definition react_in_two_cases : list Resumes.SkillData :=
  [skill "React" (Some "beginner") None; skill "MySQL" None None;
   skill "react" (Some "expert") None].

(** GET /api/jobs?location=Remote&employment_type=contract&page=1&limit=10 *)
Definition remote_contract_query : Jobs.Query :=
  {| Jobs.q_page := Some 1%Z; Jobs.q_limit := Some 10%Z;
     Jobs.q_location := Some "Remote"; Jobs.q_employment_type := Some "contract";
     Jobs.q_experience_level := None; Jobs.q_salary_min := None;
     Jobs.q_salary_max := None; Jobs.q_search := None;
     Jobs.q_sort := None; Jobs.q_order := None |}.

Definition apply_body : Applications.CreateBody :=
  {| Applications.body_job_id := 1; Applications.body_resume_id := 3; Applications.body_cover_letter := Some "Dear Ada" |}.

Definition apply_body_foreign_resume : Applications.CreateBody :=
  {| Applications.body_job_id := 1; Applications.body_resume_id := 99; Applications.body_cover_letter := None |}.

Definition two_requests : list Server.Request :=
  [Server.PostApplication 0 applicant7
     {| Applications.body_job_id := 1; Applications.body_resume_id := 3;
        Applications.body_cover_letter := None |};
   Server.PutApplicationStatus employer1 5 (VStr "shortlisted") (Some "strong")].

Definition world0 (service : list AI.Completion) : AI.World :=
  {| AI.db := db0; AI.service := service |}.

End Sample.

(* ------------------------------------------------------------------ *)
(** ** Further properties the theorems are stated with *)

Module MoreProps.
Import JS Schema Eff Http Props.

(** A computation meets a postcondition: from a store satisfying [P] it
    ends with a result and a store satisfying [Q], or with an exception
    in a store satisfying [E]. *)
Definition triple {S A} (P : S -> Prop) (m : M S A) (Q : A -> S -> Prop) (E : S -> Prop)
  : Prop :=
  forall s, P s ->
    match m s with
    | (Ok a, s') => Q a s'
    | (Throw _, s') => E s'
    end.

(** No two applications for one (job, applicant) pair. *)
Definition unique_pairs (d : DB) : Prop :=
  NoDup (map (fun a => (app_job_id a, app_applicant_id a)) (applications d)).

(** Keys as AUTO_INCREMENT hands them out: distinct, below the counter. *)
Definition keyed {A} (key : A -> nat) (rows : list A) (next : nat) : Prop :=
  NoDup (map key rows) /\ forall x, In x rows -> key x < next.

Record well_keyed (d : DB) : Prop := {
  keyed_applications : keyed app_id (applications d) (next_application_id d);
  keyed_jobs : keyed job_id (jobs d) (next_job_id d);
  keyed_resumes : keyed resume_id (resumes d) (next_resume_id d);
  keyed_skills : keyed skill_id (skills d) (next_skill_id d)
}.

(** No two skills of one name in the taxonomy. *)
Definition taxonomy_unique (d : DB) : Prop := NoDup (map skill_name (skills d)).

(** The statements the handlers are made of keep [P]. *)
Record kept_by_statements (P : DB -> Prop) : Prop := {
  kept_application_create : forall j a r c s,
      keeps P (Applications.Application_create j a r c s);
  kept_application_update : forall id f,
      (forall a, app_id (f a) = app_id a /\ app_job_id (f a) = app_job_id a
                 /\ app_applicant_id (f a) = app_applicant_id a) ->
      keeps P (Applications.Application_update id f);
  kept_application_destroy : forall id, keeps P (Applications.Application_destroy id);
  kept_job_insert : forall mk,
      (forall id, job_id (mk id) = id) -> keeps P (Jobs.Job_insert mk);
  kept_job_update : forall id f,
      (forall j, job_id (f j) = job_id j) -> keeps P (Jobs.Job_update id f);
  kept_job_destroy : forall id, keeps P (Jobs.Job_destroy id);
  kept_resume_create : forall u t s e f, keeps P (Resumes.Resume_create u t s e f);
  kept_resume_update : forall id f,
      (forall r, resume_id (f r) = resume_id r) -> keeps P (Resumes.Resume_update id f);
  kept_resume_destroy : forall id, keeps P (Resumes.Resume_destroy id);
  kept_skill_findOrCreate : forall n c, keeps P (Resumes.Skill_findOrCreate n c);
  kept_link_create : forall r s p y, keeps P (Resumes.ResumeSkill_create r s p y);
  kept_link_destroy : forall r, keeps P (Resumes.ResumeSkill_destroy_where r);
  kept_work_experience_create : forall r x, keeps P (Resumes.WorkExperience_create r x);
  kept_education_create : forall r x, keeps P (Resumes.Education_create r x);
  kept_analysis_create : forall r j t s i, keeps P (AI.AIAnalysis_create r j t s i)
}.

(** The user [auth] resolved for a request. *)
Definition request_user (r : Server.Request) : User :=
  match r with
  | Server.PostApplication _ u _ | Server.PutApplication u _ _
  | Server.DeleteApplication u _ | Server.PutApplicationStatus u _ _ _
  | Server.PostJob _ u _ | Server.PutJob _ u _ _ | Server.DeleteJob u _
  | Server.ToggleJob u _ | Server.PostResume _ u _ _ | Server.PutResume _ u _ _ _
  | Server.DeleteResume u _ | Server.AnalyzeResume u _ _ | Server.MatchJobs u _ _
  | Server.SkillGap u _ _ _ _ | Server.ImproveResume u _ _ => u
  end.

(** Referential integrity of a store in which the user is a row. *)
Definition integrity_with (u : User) (d : DB) : Prop :=
  referential_integrity d /\ has_user d (user_id u).

(** The same, with a resume that is a row: what the loops over the nested
    lists of a resume keep. *)
Definition with_resume (u : User) (resume : nat) (d : DB) : Prop :=
  integrity_with u d /\ has_resume d resume.

Definition world_with_resume (u : User) (resume : nat) (w : AI.World) : Prop :=
  with_resume u resume (AI.db w).

End MoreProps.

(* ------------------------------------------------------------------ *)
(** ** Applications: proofs *)

Unset Implicit Arguments.

Module ApplicationsProofs.
Import JS Schema Eff Http Auth Applications Props.

Lemma find_app_none (p : Application -> bool) (l : list Application) (a : Application) :
  find p l = None -> p a = true -> find p (l ++ [a]) = Some a.
Proof.
  induction l as [|x l IH]; simpl; intros Hn Hp.
  - now rewrite Hp.
  - destruct (p x); [discriminate | auto].
Qed.

Lemma find_none_existsb {A} (p : A -> bool) (l : list A) :
  find p l = None -> existsb p l = false.
Proof.
  induction l as [|x l IH]; simpl; auto.
  destruct (p x); [discriminate | auto].
Qed.

Lemma authorize_applicant {D} (u : User) :
  user_role u = "applicant" -> authorize (D:=D) ["applicant"] (Some u) = Next.
Proof. intros H. unfold authorize. rewrite H. reflexivity. Qed.

Lemma find_found {A} (p : A -> bool) (l : list A) (x : A) :
  In x l -> p x = true -> exists y, find p l = Some y.
Proof.
  intros Hin Hp. destruct (find p l) as [y|] eqn:F; [now exists y|].
  rewrite (find_none p l F x Hin) in Hp. discriminate.
Qed.

Section Create.
Variable is_email : string -> bool.
Variables to_number to_date : string -> option Z.
Variables (d : DB) (now : Z) (u : User) (b : CreateBody).
Hypothesis Hrole : user_role u = "applicant".

Local Abbreviation validated :=
  (Validation.validateApplication (D := option Application) is_email to_number to_date now
     (body_object b)).
Local Abbreviation POST := (POST_applications is_email to_number to_date now u b).

Lemma first_request_creates (j : Job) (r : Resume) :
  validated = Next ->
  find (fun j => (job_id j =? body_job_id b) && job_is_active j) (jobs d) = Some j ->
  (forall deadline, job_application_deadline j = Some deadline -> (now <= deadline)%Z) ->
  find (fun r => (resume_id r =? body_resume_id b) && (resume_user_id r =? user_id u))
       (resumes d) = Some r ->
  ~ on_file d (body_job_id b) (user_id u) ->
  exists data,
    POST d = (Ok (Success 201 data (Some "Application submitted successfully")),
              after_submit d u b).
Proof.
  intros Hvalid Hjob Hdeadline Hresume Hnone.
  assert (Hfirst : find (fun a => (app_job_id a =? body_job_id b)
                                  && (app_applicant_id a =? user_id u))
                        (applications d) = None).
  { destruct (find _ (applications d)) as [a|] eqn:F; [|reflexivity].
    exfalso. apply Hnone. apply find_some in F. destruct F as [Hin E].
    apply andb_prop in E. destruct E as [E1 E2]. apply Nat.eqb_eq in E1, E2.
    exists a. auto. }
  unfold POST_applications. rewrite (authorize_applicant u Hrole), Hvalid.
  unfold create_handler, try_catch, bind, Job_findOne, Resume_findOne,
    Application_findOne, gets, ret.
  rewrite Hjob, Hresume, Hfirst.
  assert (Hd : match job_application_deadline j with
               | Some deadline => (deadline <? now)%Z
               | None => false
               end = false).
  { destruct (job_application_deadline j) as [dl|] eqn:E; auto.
    apply Z.ltb_ge. auto. }
  rewrite Hd. unfold Application_create.
  rewrite (find_none_existsb _ _ Hfirst).
  unfold Application_findByPk, Application_findOne, gets. simpl.
  eexists. reflexivity.
Qed.

Lemma rejected_while_on_file :
  on_file d (body_job_id b) (user_id u) ->
  exists code error,
    POST d = (Ok (Failure code error), d)
    /\ (code = 400 \/ code = 404)
    /\ (validated = Next ->
        find (fun j => (job_id j =? body_job_id b) && job_is_active j) (jobs d) <> None ->
        find (fun r => (resume_id r =? body_resume_id b) && (resume_user_id r =? user_id u))
             (resumes d) <> None ->
        code = 400 /\ error = "You have already applied to this job").
Proof.
  intros (a & Hin & Ej & Ea).
  destruct (find_found (fun a => (app_job_id a =? body_job_id b)
                                 && (app_applicant_id a =? user_id u))
                       (applications d) a Hin) as (a' & Hfound).
  { rewrite Ej, Ea, !Nat.eqb_refl. reflexivity. }
  unfold POST_applications. rewrite (authorize_applicant u Hrole).
  unfold Validation.validateApplication.
  destruct (Joi.validate is_email to_number to_date now Validation.application_schema
              (body_object b)) as [message|].
  { do 2 eexists. split; [reflexivity|]. split; [now left|]. discriminate. }
  unfold create_handler, try_catch, bind, Job_findOne, Resume_findOne,
    Application_findOne, gets, ret.
  destruct (find _ (jobs d)) as [j|].
  - destruct (find _ (resumes d)) as [r|].
    + rewrite Hfound. do 2 eexists. split; [reflexivity|]. split; [now left|]. auto.
    + do 2 eexists. split; [reflexivity|]. split; [now right|].
      intros _ _ Hne. now elim Hne.
  - do 2 eexists. split; [reflexivity|]. split; [now right|].
    intros _ Hne. now elim Hne.
Qed.

End Create.

(** C1 (amended).  For an applicant: a request that passes validation,
    with the job active, its deadline unset or not yet passed, the resume
    the applicant's own and no application of the applicant for the job on
    file, succeeds with 201 and appends one application with status
    'pending', which is then on file.  A request made while an
    application of the applicant for the job is on file is rejected and
    leaves the store as it is: with the conflict error 400 'You have
    already applied to this job' when it is valid and names an active job
    and a resume of the applicant, with 400 or 404 in every case. *)
Theorem apply_once_then_rejected (is_email : string -> bool)
    (to_number to_date : string -> option Z) (d : DB) (now : Z) (u : User)
    (b : CreateBody) :
  user_role u = "applicant" ->
  (forall j r,
     Validation.validateApplication (D := option Application) is_email to_number to_date now
       (body_object b) = Next ->
     find (fun j => (job_id j =? body_job_id b) && job_is_active j) (jobs d) = Some j ->
     (forall deadline, job_application_deadline j = Some deadline -> (now <= deadline)%Z) ->
     find (fun r => (resume_id r =? body_resume_id b) && (resume_user_id r =? user_id u))
          (resumes d) = Some r ->
     ~ on_file d (body_job_id b) (user_id u) ->
     (exists data,
        POST_applications is_email to_number to_date now u b d
        = (Ok (Success 201 data (Some "Application submitted successfully")),
           after_submit d u b))
     /\ applications (after_submit d u b) = applications d ++ [submitted d u b]
     /\ app_status (submitted d u b) = "pending"
     /\ on_file (after_submit d u b) (body_job_id b) (user_id u))
  /\ (on_file d (body_job_id b) (user_id u) ->
      exists code error,
        POST_applications is_email to_number to_date now u b d
        = (Ok (Failure code error), d)
        /\ (code = 400 \/ code = 404)
        /\ (Validation.validateApplication (D := option Application) is_email to_number
              to_date now (body_object b) = Next ->
            find (fun j => (job_id j =? body_job_id b) && job_is_active j) (jobs d)
            <> None ->
            find (fun r => (resume_id r =? body_resume_id b)
                           && (resume_user_id r =? user_id u)) (resumes d) <> None ->
            code = 400 /\ error = "You have already applied to this job")).
Proof.
  intros Hrole. split.
  - intros j r Hvalid Hjob Hdeadline Hresume Hnone.
    split; [eapply first_request_creates; eauto|].
    split; [reflexivity|]. split; [reflexivity|].
    exists (submitted d u b). split; [|split; reflexivity].
    simpl. apply in_or_app. right. now left.
  - now apply rejected_while_on_file.
Qed.

Lemma apply_once_then_rejected_witness :
  (exists data,
      POST_applications Sample.is_email JS.integer_of_string Sample.to_date 0
        Sample.applicant7 Sample.apply_body Sample.db0
      = (Ok (Success 201 data (Some "Application submitted successfully")),
         after_submit Sample.db0 Sample.applicant7 Sample.apply_body))
  /\ POST_applications Sample.is_email JS.integer_of_string Sample.to_date 1
       Sample.applicant7 Sample.apply_body
       (after_submit Sample.db0 Sample.applicant7 Sample.apply_body)
     = (Ok (Failure 400 "You have already applied to this job"),
        after_submit Sample.db0 Sample.applicant7 Sample.apply_body).
Proof.
  split.
  - destruct (apply_once_then_rejected Sample.is_email JS.integer_of_string Sample.to_date
                Sample.db0 0 Sample.applicant7 Sample.apply_body eq_refl) as [H _].
    destruct (H Sample.job1 Sample.resume3) as [H1 _].
    + reflexivity.
    + reflexivity.
    + intros deadline E. discriminate E.
    + reflexivity.
    + intros (a & [] & _).
    + exact H1.
  - destruct (apply_once_then_rejected Sample.is_email JS.integer_of_string Sample.to_date
                (after_submit Sample.db0 Sample.applicant7 Sample.apply_body) 1
                Sample.applicant7 Sample.apply_body eq_refl) as [_ H].
    destruct H as (code & error & E & _ & Hc).
    + exists (submitted Sample.db0 Sample.applicant7 Sample.apply_body).
      split; [simpl; now left | split; reflexivity].
    + destruct Hc as [-> ->]; [reflexivity | discriminate | discriminate | exact E].
Defined.

(** C1 as stated fails: after a first successful request, a second request
    of the same applicant for the same job that names a resume the
    applicant does not own is answered 404 'Resume not found', not 400. *)
Lemma second_request_may_be_not_found :
  success_code
    (fst (POST_applications Sample.is_email JS.integer_of_string Sample.to_date 0
            Sample.applicant7 Sample.apply_body Sample.db0)) = Some 201
  /\ body_job_id Sample.apply_body_foreign_resume = body_job_id Sample.apply_body
  /\ POST_applications Sample.is_email JS.integer_of_string Sample.to_date 1
       Sample.applicant7 Sample.apply_body_foreign_resume
       (snd (POST_applications Sample.is_email JS.integer_of_string Sample.to_date 0
               Sample.applicant7 Sample.apply_body Sample.db0))
     = (Ok (Failure 404 "Resume not found"),
        snd (POST_applications Sample.is_email JS.integer_of_string Sample.to_date 0
               Sample.applicant7 Sample.apply_body Sample.db0))
  /\ ~ is_validation_or_conflict
         (Failure (D := option Application) 404 "Resume not found").
Proof.
  repeat split; try reflexivity.
  unfold is_validation_or_conflict. simpl. discriminate.
Qed.

(** Nor is a second request rejected for ever: once the applicant has
    withdrawn the application, the same request is answered 201 again and
    a new application is on file. *)
Example reapply_after_withdrawal :
  success_code
    (fst (POST_applications Sample.is_email JS.integer_of_string Sample.to_date 0
            Sample.applicant7 Sample.apply_body Sample.db0)) = Some 201
  /\ success_code
       (fst (DELETE_application Sample.applicant7 5
               (snd (POST_applications Sample.is_email JS.integer_of_string Sample.to_date 0
                       Sample.applicant7 Sample.apply_body Sample.db0)))) = Some 200
  /\ exists data,
       POST_applications Sample.is_email JS.integer_of_string Sample.to_date 1
         Sample.applicant7 Sample.apply_body
         (snd (DELETE_application Sample.applicant7 5
                 (snd (POST_applications Sample.is_email JS.integer_of_string Sample.to_date
                         0 Sample.applicant7 Sample.apply_body Sample.db0))))
       = (Ok (Success 201 (Some data) (Some "Application submitted successfully")),
          set_applications (fun _ => [data]) 7 Sample.db0)
       /\ app_id data = 6.
Proof. repeat split. eexists. split; reflexivity. Qed.

(** The validator is the schema: an empty cover letter is refused. *)
Example empty_cover_letter_refused :
  POST_applications Sample.is_email JS.integer_of_string Sample.to_date 0 Sample.applicant7
    {| body_job_id := 1; body_resume_id := 3; body_cover_letter := Some "" |} Sample.db0
  = (Ok (Failure 400 (Joi.message_of "cover_letter" (Joi.max 2000 Joi.string) "string.empty")),
     Sample.db0).
Proof. reflexivity. Qed.

(** *** Status update by someone else *)

Lemma find_none_iff {A} (p : A -> bool) (l : list A) :
  (forall x, In x l -> p x = false) -> find p l = None.
Proof.
  induction l as [|x l IH]; simpl; intros H; auto.
  rewrite (H x (or_introl eq_refl)). auto.
Qed.

Lemma not_owner_finds_nothing (d : DB) (u : User) (id : nat) :
  ~ owning_employer d u id ->
  find (fun a => (app_id a =? id)
                 && match job_of d a with
                    | Some j => job_employer_id j =? user_id u
                    | None => false
                    end) (applications d) = None.
Proof.
  intros Hno. apply find_none_iff. intros a Ha.
  destruct (app_id a =? id) eqn:Eid; simpl; auto.
  destruct (job_of d a) as [j|] eqn:Ej; auto.
  destruct (job_employer_id j =? user_id u) eqn:Ee; auto.
  exfalso. apply Hno. exists a, j.
  apply Nat.eqb_eq in Eid, Ee. auto.
Qed.

(** C4 (amended).  A status-update request by a user who is not the
    employer owning the application's job never succeeds and leaves the
    store as it is, whatever status it asks for.  The answer is 403 when
    the user's role is neither employer nor admin; otherwise 400 'Invalid
    status' when the requested value is outside the enumeration, and 404
    'Application not found or access denied' when it is inside. *)
Theorem status_update_by_non_owner (d : DB) (u : User) (id : nat) (status : value)
    (notes : option string) :
  ~ owning_employer d u id ->
  exists code error,
    PUT_application_status u id status notes d = (Ok (Failure code error), d)
    /\ if negb (existsb (String.eqb (user_role u)) ["employer"; "admin"])
       then code = 403
       else if negb (includes statuses status)
            then code = 400 /\ error = "Invalid status"
            else code = 404 /\ error = "Application not found or access denied".
Proof.
  intros Hno. unfold PUT_application_status, authorize.
  destruct (negb (existsb (String.eqb (user_role u)) ["employer"; "admin"])).
  - do 2 eexists. split; reflexivity.
  - unfold status_handler, try_catch, bind, Application_findOne, gets, ret.
    destruct (negb (includes statuses status)).
    + do 2 eexists. split; [reflexivity|]. auto.
    + cbv beta iota. rewrite (not_owner_finds_nothing d u id Hno).
      do 2 eexists. split; [reflexivity|]. auto.
Qed.

Lemma employer2_does_not_own :
  ~ owning_employer (Sample.db1 "pending") Sample.employer2 5.
Proof.
  intros (a & j & Hin & _ & Hj & He).
  simpl in Hin. destruct Hin as [<-|[]].
  cbv in Hj. inversion Hj; subst. discriminate He.
Qed.

Lemma status_update_by_non_owner_witness :
  PUT_application_status Sample.employer2 5 (VStr "hired") None (Sample.db1 "pending")
  = (Ok (Failure 404 "Application not found or access denied"), Sample.db1 "pending").
Proof.
  destruct (status_update_by_non_owner (Sample.db1 "pending") Sample.employer2 5
              (VStr "hired") None employer2_does_not_own)
    as (code & error & E & Hc).
  simpl in Hc. destruct Hc as [-> ->]. exact E.
Defined.

(** C4 as stated fails: a non-owning employer is answered 400 'Invalid
    status' for a value outside the enumeration and 404 for one inside,
    so the answer is not an authorization error (403) and depends on the
    requested status. *)
Lemma non_owner_answer_depends_on_status :
  ~ owning_employer (Sample.db1 "pending") Sample.employer2 5
  /\ PUT_application_status Sample.employer2 5 (VStr "archived") None (Sample.db1 "pending")
     = (Ok (Failure 400 "Invalid status"), Sample.db1 "pending")
  /\ PUT_application_status Sample.employer2 5 (VStr "hired") None (Sample.db1 "pending")
     = (Ok (Failure 404 "Application not found or access denied"), Sample.db1 "pending")
  /\ ~ is_authorization_error (Failure (D := option Application) 400 "Invalid status")
  /\ ~ is_authorization_error
         (Failure (D := option Application) 404 "Application not found or access denied").
Proof.
  split; [exact employer2_does_not_own|].
  repeat split; try reflexivity; unfold is_authorization_error; simpl; discriminate.
Qed.

(** *** What the applicant may change *)

Lemma with_cover_letter_same (c : option string) (a : Application) :
  same_except_cover_letter a (with_cover_letter c a).
Proof. destruct c; repeat split. Qed.

Lemma rewrite_cover_letter (id : nat) (c : option string) (l : list Application) :
  Forall2 same_except_cover_letter l
    (map (fun a => if app_id a =? id then with_cover_letter c a else a) l).
Proof.
  induction l as [|a l IH]; simpl; constructor; auto.
  destruct (app_id a =? id); [apply with_cover_letter_same | repeat split].
Qed.

(** C6 (amended).  For the application a request of its applicant
    addresses: while its status is not 'pending', the cover-letter update
    and the withdrawal are both rejected with 400 and the store is
    unchanged; while it is 'pending', the update succeeds and changes
    nothing but cover letters: every other table is as before and each
    application keeps its key, job, applicant, resume, status and notes. *)
Theorem applicant_changes_pending_only (d : DB) (u : User) (id : nat)
    (cover_letter : option string) (a : Application) :
  find (fun x => (app_id x =? id) && (app_applicant_id x =? user_id u)) (applications d)
  = Some a ->
  if (app_status a =? "pending")%string
  then exists data after,
         PUT_application u id cover_letter d
         = (Ok (Success 200 data (Some "Application updated successfully")),
            set_applications (fun _ => after) (next_application_id d) d)
         /\ Forall2 same_except_cover_letter (applications d) after
  else PUT_application u id cover_letter d
       = (Ok (Failure 400 "Cannot update application after it has been reviewed"), d)
       /\ DELETE_application u id d
          = (Ok (Failure 400 "Cannot withdraw application after it has been reviewed"), d).
Proof.
  intros Hfind.
  unfold PUT_application, DELETE_application, try_catch, bind, Application_findOne, gets, ret.
  rewrite Hfind.
  destruct (app_status a =? "pending")%string; simpl negb; cbv iota.
  - unfold Application_update, Application_findByPk, Application_findOne, modify, gets.
    do 2 eexists. split; [reflexivity|]. apply rewrite_cover_letter.
  - split; reflexivity.
Qed.

(** C6 as stated fails: the guard reads the current status, and the
    status update accepts 'pending'.  An application that was set to
    'reviewed' and then back to 'pending' by the employer is withdrawn by
    its applicant. *)
Lemma withdrawn_after_return_to_pending :
  map app_status
      (applications
         (snd (PUT_application_status Sample.employer1 5 (VStr "reviewed") None
                 (snd (POST_applications Sample.is_email JS.integer_of_string
                         Sample.to_date 0 Sample.applicant7 Sample.apply_body
                         Sample.db0)))))
  = ["reviewed"]
  /\ DELETE_application Sample.applicant7 5
       (snd (PUT_application_status Sample.employer1 5 (VStr "pending") None
               (snd (PUT_application_status Sample.employer1 5 (VStr "reviewed") None
                       (snd (POST_applications Sample.is_email JS.integer_of_string
                               Sample.to_date 0 Sample.applicant7 Sample.apply_body
                               Sample.db0))))))
     = (Ok (Success 200 None (Some "Application withdrawn successfully")),
        set_applications (fun _ => []) 6 Sample.db0).
Proof. split; reflexivity. Qed.

Lemma applicant_changes_pending_only_witness :
  PUT_application Sample.applicant7 5 (Some "Dear Bob") (Sample.db1 "reviewed")
  = (Ok (Failure 400 "Cannot update application after it has been reviewed"),
     Sample.db1 "reviewed")
  /\ DELETE_application Sample.applicant7 5 (Sample.db1 "reviewed")
     = (Ok (Failure 400 "Cannot withdraw application after it has been reviewed"),
        Sample.db1 "reviewed").
Proof.
  exact (applicant_changes_pending_only (Sample.db1 "reviewed") Sample.applicant7 5
           (Some "Dear Bob") (Sample.application5 "reviewed") eq_refl).
Defined.

End ApplicationsProofs.

(* ------------------------------------------------------------------ *)
(** ** Invariants of the store along a computation *)

Module Invariant.
Import JS Schema Eff Http Props.

Lemma keeps_ret {S A} (P : S -> Prop) (a : A) : keeps P (ret a).
Proof. intros s H. exact H. Qed.

Lemma keeps_throw {S A} (P : S -> Prop) (e : exn) : keeps P (throw (A := A) e).
Proof. intros s H. exact H. Qed.

Lemma keeps_gets {S A} (P : S -> Prop) (f : S -> A) : keeps P (gets f).
Proof. intros s H. exact H. Qed.

Lemma keeps_modify {S} (P : S -> Prop) (f : S -> S) :
  (forall s, P s -> P (f s)) -> keeps P (modify f).
Proof. intros Hf s H. apply Hf, H. Qed.

Lemma keeps_bind {S A B} (P : S -> Prop) (m : M S A) (k : A -> M S B) :
  keeps P m -> (forall a, keeps P (k a)) -> keeps P (bind m k).
Proof.
  intros Hm Hk s H. unfold bind. specialize (Hm s H).
  destruct (m s) as [[a|e] s']; simpl in *; [apply Hk, Hm | exact Hm].
Qed.

Lemma keeps_try_catch {S A} (P : S -> Prop) (m : M S A) (h : exn -> M S A) :
  keeps P m -> (forall e, keeps P (h e)) -> keeps P (try_catch m h).
Proof.
  intros Hm Hh s H. unfold try_catch. specialize (Hm s H).
  destruct (m s) as [[a|e] s']; simpl in *; [exact Hm | apply Hh, Hm].
Qed.

Lemma keeps_for_of {S A} (P : S -> Prop) (xs : list A) (f : A -> M S unit) :
  (forall x, keeps P (f x)) -> keeps P (for_of xs f).
Proof.
  intros Hf. induction xs as [|x xs IH]; simpl.
  - apply keeps_ret.
  - apply keeps_bind; auto.
Qed.

Lemma keeps_liftDB {A} (P : DB -> Prop) (m : M DB A) :
  keeps P m -> keeps (fun w => P (AI.db w)) (AI.liftDB m).
Proof.
  intros Hm w H. unfold AI.liftDB. specialize (Hm _ H).
  destruct (m (AI.db w)) as [r d']. exact Hm.
Qed.

Lemma keeps_openai (P : DB -> Prop) : keeps (fun w => P (AI.db w)) AI.openai_create.
Proof.
  intros w H. unfold AI.openai_create.
  destruct (AI.service w) as [|[|text] rest]; exact H.
Qed.

Create HintDb keeps.
#[export] Hint Resolve keeps_ret keeps_throw keeps_gets keeps_openai : keeps.

(** Walks a handler body: sequencing, the try/catch, loops, and the
    case distinctions of the body. *)
Ltac keeps_step :=
  first
    [ apply keeps_try_catch
    | apply keeps_bind
    | apply keeps_for_of
    | apply keeps_liftDB
    | apply keeps_ret
    | apply keeps_throw
    | apply keeps_gets
    | apply keeps_openai
    | match goal with
      | |- keeps _ (match ?x with _ => _ end) => destruct x
      | |- forall _, _ => intro
      end ].

Ltac keeps_walk := repeat keeps_step; eauto with keeps.

(** *** The statuses stay in the enumeration *)

Lemma valid_same (d d' : DB) :
  applications d' = applications d -> statuses_valid d -> statuses_valid d'.
Proof. unfold statuses_valid. now intros ->. Qed.

Lemma valid_filter (p : Application -> bool) (d d' : DB) :
  applications d' = filter p (applications d) -> statuses_valid d -> statuses_valid d'.
Proof.
  unfold statuses_valid. intros -> H.
  rewrite Forall_forall in *. intros a Ha. apply filter_In in Ha. apply H, Ha.
Qed.

Lemma valid_map (f : Application -> Application) (d d' : DB) :
  applications d' = map f (applications d) ->
  (forall a, In (app_status a) Applications.statuses ->
             In (app_status (f a)) Applications.statuses) ->
  statuses_valid d -> statuses_valid d'.
Proof.
  unfold statuses_valid. intros -> Hf H.
  rewrite Forall_forall in *. intros a Ha. apply in_map_iff in Ha.
  destruct Ha as (x & <- & Hx). auto.
Qed.

Lemma includes_status (v : value) :
  includes Applications.statuses v = true ->
  In (Applications.status_string v) Applications.statuses.
Proof.
  unfold includes, Applications.status_string.
  destruct v; try discriminate. intros H.
  apply existsb_exists in H. destruct H as (x & Hx & E).
  apply String.eqb_eq in E. now subst.
Qed.

Lemma keeps_Application_create job applicant resume cover :
  keeps statuses_valid (Applications.Application_create job applicant resume cover "pending").
Proof.
  intros d H. unfold Applications.Application_create.
  destruct (existsb _ _); [exact H|]. simpl.
  unfold statuses_valid in *. simpl. apply Forall_app. split; [exact H|].
  constructor; [|constructor]. simpl. now left.
Qed.

Lemma keeps_cover_letter id c :
  keeps statuses_valid (Applications.Application_update id (Applications.with_cover_letter c)).
Proof.
  apply keeps_modify. intros d. apply valid_map with
    (f := fun a => if app_id a =? id then Applications.with_cover_letter c a else a).
  - reflexivity.
  - intros a Ha. destruct (app_id a =? id); [|exact Ha]. destruct c; exact Ha.
Qed.

Lemma keeps_status id v notes :
  includes Applications.statuses v = true ->
  keeps statuses_valid
    (Applications.Application_update id
       (Applications.with_status (Applications.status_string v) notes)).
Proof.
  intros Hv. apply keeps_modify. intros d. apply valid_map with
    (f := fun a => if app_id a =? id
                   then Applications.with_status (Applications.status_string v) notes a
                   else a).
  - reflexivity.
  - intros a Ha. destruct (app_id a =? id); [|exact Ha]. simpl.
    now apply includes_status.
Qed.

Lemma keeps_Application_destroy id :
  keeps statuses_valid (Applications.Application_destroy id).
Proof.
  apply keeps_modify. intros d.
  apply valid_filter with (p := fun a => negb (app_id a =? id)). reflexivity.
Qed.

Lemma keeps_Job_destroy id : keeps statuses_valid (Jobs.Job_destroy id).
Proof.
  apply keeps_modify. intros d.
  apply valid_filter with (p := fun a => negb (app_job_id a =? id)). reflexivity.
Qed.

Lemma keeps_Resume_destroy id : keeps statuses_valid (Resumes.Resume_destroy id).
Proof.
  apply keeps_modify. intros d.
  apply valid_filter with (p := fun a => negb (app_resume_id a =? id)). reflexivity.
Qed.

Lemma keeps_leaves {A} (m : M DB A) : leaves_applications m -> keeps statuses_valid m.
Proof. intros Hm d. apply valid_same, Hm. Qed.

Lemma leaves_Job_insert mk : leaves_applications (Jobs.Job_insert mk).
Proof. intros d. reflexivity. Qed.
Lemma leaves_Job_update id f : leaves_applications (Jobs.Job_update id f).
Proof. intros d. reflexivity. Qed.
Lemma leaves_Resume_create u t s e f : leaves_applications (Resumes.Resume_create u t s e f).
Proof. intros d. reflexivity. Qed.
Lemma leaves_Resume_update id f : leaves_applications (Resumes.Resume_update id f).
Proof. intros d. reflexivity. Qed.
Lemma leaves_Skill_findOrCreate n c : leaves_applications (Resumes.Skill_findOrCreate n c).
Proof. intros d. unfold Resumes.Skill_findOrCreate. destruct (find _ _); reflexivity. Qed.
Lemma leaves_ResumeSkill_create r s p y : leaves_applications (Resumes.ResumeSkill_create r s p y).
Proof. intros d. unfold Resumes.ResumeSkill_create. destruct (existsb _ _); reflexivity. Qed.
Lemma leaves_ResumeSkill_destroy r : leaves_applications (Resumes.ResumeSkill_destroy_where r).
Proof. intros d. reflexivity. Qed.
Lemma leaves_WorkExperience_create r x : leaves_applications (Resumes.WorkExperience_create r x).
Proof. intros d. reflexivity. Qed.
Lemma leaves_Education_create r x : leaves_applications (Resumes.Education_create r x).
Proof. intros d. reflexivity. Qed.
Lemma leaves_AIAnalysis_create r j t s i : leaves_applications (AI.AIAnalysis_create r j t s i).
Proof. intros d. reflexivity. Qed.

#[export] Hint Resolve keeps_Application_create keeps_cover_letter keeps_Application_destroy
  keeps_Job_destroy keeps_Resume_destroy : keeps.
#[export] Hint Extern 2 (keeps statuses_valid _) =>
  apply keeps_leaves;
  first [ apply leaves_Job_insert | apply leaves_Job_update | apply leaves_Resume_create
        | apply leaves_Resume_update | apply leaves_Skill_findOrCreate
        | apply leaves_ResumeSkill_create | apply leaves_ResumeSkill_destroy
        | apply leaves_WorkExperience_create | apply leaves_Education_create
        | apply leaves_AIAnalysis_create ] : keeps.

End Invariant.

(* ------------------------------------------------------------------ *)
(** ** The statistics overview: proofs *)

Module StatsProofs.
Import JS Schema Eff Http Props Invariant.

Section Handlers.
Variable is_email : string -> bool.
Variable to_number : string -> option Z.
Variable to_date : string -> option Z.
Variable JSON_parse : string -> option value.

Lemma keeps_POST_applications now u b :
  keeps statuses_valid (Applications.POST_applications is_email to_number to_date now u b).
Proof.
  unfold Applications.POST_applications, Applications.create_handler,
    Applications.Job_findOne, Applications.Resume_findOne,
    Applications.Application_findByPk, Applications.Application_findOne.
  keeps_walk.
Qed.

Lemma keeps_PUT_application u id c :
  keeps statuses_valid (Applications.PUT_application u id c).
Proof.
  unfold Applications.PUT_application, Applications.Application_findByPk,
    Applications.Application_findOne.
  keeps_walk.
Qed.

Lemma keeps_DELETE_application u id :
  keeps statuses_valid (Applications.DELETE_application u id).
Proof.
  unfold Applications.DELETE_application, Applications.Application_findOne.
  keeps_walk.
Qed.

Lemma keeps_PUT_application_status u id status notes :
  keeps statuses_valid (Applications.PUT_application_status u id status notes).
Proof.
  unfold Applications.PUT_application_status, Applications.status_handler,
    Applications.Application_findByPk, Applications.Application_findOne.
  destruct (includes Applications.statuses status) eqn:Hv; simpl negb; cbv iota.
  - keeps_walk; apply keeps_status; exact Hv.
  - keeps_walk.
Qed.

Lemma keeps_POST_jobs now u body :
  keeps statuses_valid (Jobs.POST_jobs is_email to_number to_date now u body).
Proof.
  unfold Jobs.POST_jobs, Jobs.create_handler, Jobs.Job_findByPk. keeps_walk.
Qed.

Lemma keeps_PUT_job now u id body :
  keeps statuses_valid (Jobs.PUT_job is_email to_number to_date now u id body).
Proof.
  unfold Jobs.PUT_job, Jobs.update_handler, Jobs.Job_findByPk, Jobs.Job_findOne.
  keeps_walk.
Qed.

Lemma keeps_DELETE_job u id : keeps statuses_valid (Jobs.DELETE_job u id).
Proof.
  unfold Jobs.DELETE_job, Jobs.delete_handler, Jobs.Job_findOne. keeps_walk.
Qed.

Lemma keeps_toggle u id : keeps statuses_valid (Jobs.POST_toggle_status u id).
Proof.
  unfold Jobs.POST_toggle_status, Jobs.toggle_handler, Jobs.Job_findOne. keeps_walk.
Qed.

Lemma keeps_link_skills r skills : keeps statuses_valid (Resumes.link_skills r skills).
Proof. unfold Resumes.link_skills. keeps_walk. Qed.

Lemma keeps_POST_resumes now u file b :
  keeps statuses_valid (Resumes.POST_resumes is_email to_number to_date now u file b).
Proof.
  unfold Resumes.POST_resumes, Resumes.create_handler, Resumes.Resume_findByPk_complete,
    Orm.including.
  pose proof keeps_link_skills. keeps_walk.
Qed.

Lemma keeps_PUT_resume now u id file b :
  keeps statuses_valid (Resumes.PUT_resume is_email to_number to_date now u id file b).
Proof.
  unfold Resumes.PUT_resume, Resumes.update_handler, Resumes.Resume_findByPk_complete,
    Resumes.Resume_findOne, Orm.including.
  pose proof keeps_link_skills. keeps_walk.
Qed.

Lemma keeps_DELETE_resume u id : keeps statuses_valid (Resumes.DELETE_resume u id).
Proof.
  unfold Resumes.DELETE_resume, Resumes.Resume_findOne. keeps_walk.
Qed.

Lemma keeps_prop k v : keeps valid_world (AI.prop k v).
Proof. unfold AI.prop. destruct v; (apply keeps_ret || apply keeps_throw). Qed.

Lemma keeps_parse text : keeps valid_world (AI.parse JSON_parse text).
Proof. unfold AI.parse. destruct (JSON_parse text); (apply keeps_ret || apply keeps_throw). Qed.

Lemma keeps_find_resume include u id : keeps valid_world (AI.find_resume include u id).
Proof.
  unfold AI.find_resume, Orm.including. apply (keeps_liftDB statuses_valid).
  destruct (Orm.first_unresolved _ _); [apply keeps_throw | apply keeps_gets].
Qed.

Lemma keeps_create_analysis r j t s i :
  keeps valid_world (AI.liftDB (AI.AIAnalysis_create r j t s i)).
Proof. apply (keeps_liftDB statuses_valid). auto with keeps. Qed.

Lemma keeps_map_matches jobs ms :
  keeps valid_world (AI.map_matches to_number jobs ms).
Proof.
  induction ms as [|m ms IH]; simpl.
  - apply keeps_ret.
  - apply keeps_bind; [apply keeps_prop|]. intros ji.
    destruct (AI.job_at to_number jobs ji); [|apply keeps_throw].
    apply keeps_bind; [exact IH|]. intros tail. apply keeps_ret.
Qed.

Local Hint Resolve keeps_prop keeps_parse keeps_find_resume keeps_create_analysis
  keeps_map_matches : keeps.

Ltac world_walk :=
  repeat first
    [ apply keeps_try_catch | apply keeps_bind | apply keeps_for_of
    | solve [auto with keeps]
    | apply (keeps_openai statuses_valid)
    | apply (keeps_liftDB statuses_valid)
    | apply keeps_ret | apply keeps_throw | apply keeps_gets
    | match goal with
      | |- keeps _ (match ?x with _ => _ end) => destruct x
      | |- forall _, _ => intro
      end ].

Lemma keeps_analyze u id : keeps valid_world (AI.analyze_resume JSON_parse u id).
Proof. unfold AI.analyze_resume, AI.analyze_found. world_walk. Qed.

Lemma keeps_match_jobs u id : keeps valid_world (AI.match_jobs JSON_parse to_number u id).
Proof. unfold AI.match_jobs, AI.match_found. world_walk. Qed.

Lemma keeps_skill_gap u id role industry :
  keeps valid_world (AI.skill_gap_analysis JSON_parse u id role industry).
Proof. unfold AI.skill_gap_analysis, AI.skill_gap_found. world_walk. Qed.

Lemma keeps_improve u id : keeps valid_world (AI.improve_resume JSON_parse u id).
Proof. unfold AI.improve_resume, AI.improve_found. world_walk. Qed.

Lemma handle_keeps_statuses (r : Server.Request) (d : DB) :
  statuses_valid d ->
  statuses_valid (Server.handle is_email to_number to_date JSON_parse r d).
Proof.
  intros H. destruct r; simpl.
  - now apply keeps_POST_applications.
  - now apply keeps_PUT_application.
  - now apply keeps_DELETE_application.
  - now apply keeps_PUT_application_status.
  - now apply keeps_POST_jobs.
  - now apply keeps_PUT_job.
  - now apply keeps_DELETE_job.
  - now apply keeps_toggle.
  - now apply keeps_POST_resumes.
  - now apply keeps_PUT_resume.
  - now apply keeps_DELETE_resume.
  - apply (keeps_analyze user resume {| AI.db := d; AI.service := service |}), H.
  - apply (keeps_match_jobs user resume {| AI.db := d; AI.service := service |}), H.
  - apply (keeps_skill_gap user resume role industry
             {| AI.db := d; AI.service := service |}), H.
  - apply (keeps_improve user resume {| AI.db := d; AI.service := service |}), H.
Qed.

Lemma serve_keeps_statuses (rs : list Server.Request) (d : DB) :
  statuses_valid d ->
  statuses_valid (Server.serve is_email to_number to_date JSON_parse rs d).
Proof.
  revert d. induction rs as [|r rs IH]; intros d H; simpl; auto.
  apply IH, handle_keeps_statuses, H.
Qed.

End Handlers.

Lemma tally_sums (l : list Application) :
  Forall (fun a => In (app_status a) Applications.statuses) l ->
  let st := Applications.tally l in
  Applications.pending st + Applications.reviewed st + Applications.shortlisted st
  + Applications.rejected st + Applications.hired st = Applications.total st.
Proof.
  induction 1 as [|a l Ha _ IH]; [reflexivity|].
  simpl in *. unfold Applications.count_status in *. simpl.
  destruct Ha as [E|[E|[E|[E|[E|[]]]]]]; rewrite <- E; simpl; lia.
Qed.

Lemma valid_sublist (p : Application -> bool) (d : DB) :
  statuses_valid d ->
  Forall (fun a => In (app_status a) Applications.statuses) (filter p (applications d)).
Proof.
  unfold statuses_valid. rewrite !Forall_forall.
  intros H a Ha. apply filter_In in Ha. apply H, Ha.
Qed.

Lemma count_status_number (status : string) (l : list Application) :
  Applications.count_status status l = number_with status l.
Proof.
  unfold Applications.count_status, number_with.
  induction l as [|a l IH]; simpl; [reflexivity|].
  destruct (string_dec (app_status a) status) as [E|E].
  - rewrite (proj2 (String.eqb_eq _ _) E). simpl. now rewrite IH.
  - rewrite (proj2 (String.eqb_neq _ _) E). exact IH.
Qed.

Lemma tally_tallies (l : list Application) : tallies (Applications.tally l) l.
Proof.
  unfold tallies, Applications.tally. simpl.
  rewrite !count_status_number. repeat split.
Qed.

(** C10.  From any store whose statuses lie in {pending, reviewed,
    shortlisted, rejected, hired}, after any sequence of requests to the
    API, the statistics overview of an applicant or an employer returns
    the counts of the caller's applications (an applicant's own, an
    employer's those for the jobs the employer posted): the total is their
    number, each of the five counts the number of them with that status,
    and the five counts sum to the total. *)
Theorem stats_sum_to_total (is_email : string -> bool)
    (to_number to_date : string -> option Z) (JSON_parse : string -> option value)
    (d0 : DB) (rs : list Server.Request) (u : User) :
  statuses_valid d0 ->
  user_role u = "applicant" \/ user_role u = "employer" ->
  let d := Server.serve is_email to_number to_date JSON_parse rs d0 in
  exists st,
    Applications.GET_stats_overview u d = (Ok (Success 200 (Some st) None), d)
    /\ tallies st (counted_for d u)
    /\ Applications.pending st + Applications.reviewed st + Applications.shortlisted st
       + Applications.rejected st + Applications.hired st = Applications.total st.
Proof.
  intros H0 Hrole d.
  assert (Hd : statuses_valid d) by (apply serve_keeps_statuses, H0).
  unfold Applications.GET_stats_overview, try_catch, bind, Applications.Application_findAll,
    gets, ret, counted_for.
  destruct Hrole as [-> | ->]; simpl String.eqb; cbv iota beta.
  - eexists. split; [reflexivity|]. split; [apply tally_tallies|].
    apply tally_sums, valid_sublist, Hd.
  - eexists. split; [reflexivity|]. split; [apply tally_tallies|].
    apply tally_sums, valid_sublist, Hd.
Qed.

Lemma stats_sum_to_total_witness :
  exists st,
    Applications.GET_stats_overview Sample.employer1
      (Server.serve Sample.is_email JS.integer_of_string Sample.to_date Sample.JSON_parse
         Sample.two_requests Sample.db0)
    = (Ok (Success 200 (Some st) None),
       Server.serve Sample.is_email JS.integer_of_string Sample.to_date Sample.JSON_parse
         Sample.two_requests Sample.db0)
    /\ tallies st
         (counted_for
            (Server.serve Sample.is_email JS.integer_of_string Sample.to_date
               Sample.JSON_parse Sample.two_requests Sample.db0) Sample.employer1)
    /\ Applications.pending st + Applications.reviewed st + Applications.shortlisted st
       + Applications.rejected st + Applications.hired st = Applications.total st.
Proof.
  apply (stats_sum_to_total Sample.is_email JS.integer_of_string Sample.to_date
           Sample.JSON_parse Sample.db0 Sample.two_requests Sample.employer1).
  - constructor.
  - right. reflexivity.
Defined.

(** The employer's overview after an application and its shortlisting:
    one application, shortlisted; the applicant's counts the same one. *)
Example stats_after_two_requests :
  fst (Applications.GET_stats_overview Sample.employer1
         (Server.serve Sample.is_email JS.integer_of_string Sample.to_date Sample.JSON_parse
            Sample.two_requests Sample.db0))
  = Ok (Success 200
          (Some {| Applications.total := 1; Applications.pending := 0;
                   Applications.reviewed := 0; Applications.shortlisted := 1;
                   Applications.rejected := 0; Applications.hired := 0 |}) None).
Proof. reflexivity. Qed.

Example stats_of_the_applicant :
  fst (Applications.GET_stats_overview Sample.applicant7
         (Server.serve Sample.is_email JS.integer_of_string Sample.to_date Sample.JSON_parse
            Sample.two_requests Sample.db0))
  = Ok (Success 200
          (Some {| Applications.total := 1; Applications.pending := 0;
                   Applications.reviewed := 0; Applications.shortlisted := 1;
                   Applications.rejected := 0; Applications.hired := 0 |}) None)
  /\ fst (Applications.GET_stats_overview Sample.employer2
            (Server.serve Sample.is_email JS.integer_of_string Sample.to_date
               Sample.JSON_parse Sample.two_requests Sample.db0))
     = Ok (Success 200
             (Some {| Applications.total := 0; Applications.pending := 0;
                      Applications.reviewed := 0; Applications.shortlisted := 0;
                      Applications.rejected := 0; Applications.hired := 0 |}) None).
Proof. split; reflexivity. Qed.

End StatsProofs.

(* ------------------------------------------------------------------ *)
(** ** Cascading deletes: proofs *)

Module CascadeProofs.
Import JS Schema Eff Http Props.

Lemma kept (A : Type) (key : A -> nat) (id : nat) (l : list A) (x : A) :
  In x (filter (fun y => negb (key y =? id)) l) <-> In x l /\ key x <> id.
Proof.
  rewrite filter_In, negb_true_iff, Nat.eqb_neq. tauto.
Qed.

Lemma kept_ref (A : Type) (key : A -> option nat) (id : nat) (l : list A) (x : A) :
  In x (filter (fun y => negb (refers (key y) id)) l) <-> In x l /\ key x <> Some id.
Proof.
  rewrite filter_In, negb_true_iff. unfold refers.
  destruct (key x) as [k|].
  - rewrite Nat.eqb_neq. split; intros [H1 H2]; split; auto; congruence.
  - split; intros [H1 H2]; split; auto; discriminate.
Qed.

(** *** One job, one resume *)

Lemma delete_job_unreferenced (id : nat) (d : DB) : unreferenced_job (delete_job id d) id.
Proof.
  unfold unreferenced_job, has_job; simpl. repeat split.
  - intros (j & Hj & E). apply kept in Hj. tauto.
  - intros a Ha. apply kept in Ha. tauto.
  - intros x Hx. apply kept_ref in Hx. tauto.
Qed.

Lemma delete_resume_unreferenced (id : nat) (d : DB) :
  unreferenced_resume (delete_resume id d) id.
Proof.
  unfold unreferenced_resume, has_resume; simpl. repeat split.
  - intros (r & Hr & E). apply kept in Hr. tauto.
  - intros l Hl. apply kept in Hl. tauto.
  - intros w Hw. apply kept in Hw. tauto.
  - intros e He. apply kept in He. tauto.
  - intros a Ha. apply kept in Ha. tauto.
  - intros x Hx. apply kept_ref in Hx. tauto.
Qed.

Lemma delete_job_integrity (id : nat) (d : DB) :
  referential_integrity d -> referential_integrity (delete_job id d).
Proof.
  intros [H1 H2 H3 H4 H5 H6 H7].
  assert (Hjob : forall k, k <> id -> has_job d k -> has_job (delete_job id d) k).
  { intros k Hk (j & Hj & E). exists j. split; [|exact E].
    simpl. apply kept. split; [exact Hj | congruence]. }
  constructor; simpl.
  - exact H1.
  - exact H2.
  - exact H3.
  - exact H4.
  - intros j Hj. apply kept in Hj. apply H5, Hj.
  - intros a Ha. apply kept in Ha. destruct Ha as [Ha Hne].
    destruct (H6 a Ha) as (Hj & Hu & Hr). repeat split; auto.
  - intros x Hx. apply kept_ref in Hx. destruct Hx as [Hx Hne].
    destruct (H7 x Hx) as [Hr Hj]. split; [exact Hr|].
    destruct (ai_job_id x) as [k|]; simpl in *; [|exact I].
    apply Hjob; [congruence | exact Hj].
Qed.

Lemma delete_resume_integrity (id : nat) (d : DB) :
  referential_integrity d -> referential_integrity (delete_resume id d).
Proof.
  intros [H1 H2 H3 H4 H5 H6 H7].
  assert (Hres : forall k, k <> id -> has_resume d k -> has_resume (delete_resume id d) k).
  { intros k Hk (r & Hr & E). exists r. split; [|exact E].
    simpl. apply kept. split; [exact Hr | congruence]. }
  constructor; simpl.
  - intros r Hr. apply kept in Hr. apply H1, Hr.
  - intros l Hl. apply kept in Hl. destruct Hl as [Hl Hne].
    destruct (H2 l Hl). split; auto.
  - intros w Hw. apply kept in Hw. destruct Hw as [Hw Hne]. auto.
  - intros e He. apply kept in He. destruct He as [He Hne]. auto.
  - exact H5.
  - intros a Ha. apply kept in Ha. destruct Ha as [Ha Hne].
    destruct (H6 a Ha) as (Hj & Hu & Hr). repeat split; auto.
  - intros x Hx. apply kept_ref in Hx. destruct Hx as [Hx Hne].
    destruct (H7 x Hx) as [Hr Hj]. split; [|exact Hj].
    destruct (ai_resume_id x) as [k|]; simpl in *; [|exact I].
    apply Hres; [congruence | exact Hr].
Qed.

Lemma delete_application_integrity (id : nat) (d : DB) :
  referential_integrity d -> referential_integrity (delete_application id d).
Proof.
  intros [H1 H2 H3 H4 H5 H6 H7]. constructor; simpl; auto.
  intros a Ha. apply kept in Ha. apply H6, Ha.
Qed.

(** *** Several resumes, several jobs *)

Lemma none_of_cons (id : nat) (ids : list nat) (o : option nat) :
  none_of (id :: ids) o <-> o <> Some id /\ none_of ids o.
Proof.
  unfold none_of. split.
  - intros H. split.
    + intros E. apply (H id E). now left.
    + intros k E Hin. apply (H k E). now right.
  - intros [H1 H2] k E [<-|Hin]; [congruence | exact (H2 k E Hin)].
Qed.

Ltac member key IH :=
  let x := fresh "x" in
  intros x; rewrite (kept _ key), IH; simpl; intuition congruence.

Lemma fold_delete_resume (ids : list nat) (d : DB) :
  let d' := fold_right delete_resume d ids in
  users d' = users d /\ skills d' = skills d /\ jobs d' = jobs d
  /\ (forall r, In r (resumes d') <-> In r (resumes d) /\ ~ In (resume_id r) ids)
  /\ (forall l, In l (resume_skills d')
                <-> In l (resume_skills d) /\ ~ In (rs_resume_id l) ids)
  /\ (forall w, In w (work_experience d')
                <-> In w (work_experience d) /\ ~ In (we_resume_id w) ids)
  /\ (forall e, In e (education d') <-> In e (education d) /\ ~ In (edu_resume_id e) ids)
  /\ (forall a, In a (applications d')
                <-> In a (applications d) /\ ~ In (app_resume_id a) ids)
  /\ (forall x, In x (ai_analysis d')
                <-> In x (ai_analysis d) /\ none_of ids (ai_resume_id x)).
Proof.
  induction ids as [|id ids IH]; simpl.
  - unfold none_of. simpl. repeat split; intros; tauto.
  - destruct IH as (E1 & E2 & E3 & Hr & Hl & Hw & He & Ha & Hx).
    do 3 (split; [assumption|]).
    split; [member resume_id Hr|].
    split; [member rs_resume_id Hl|].
    split; [member we_resume_id Hw|].
    split; [member edu_resume_id He|].
    split; [member app_resume_id Ha|].
    intros x. rewrite (kept_ref _ ai_resume_id), Hx, none_of_cons. tauto.
Qed.

Lemma fold_delete_job (ids : list nat) (d : DB) :
  let d' := fold_right delete_job d ids in
  users d' = users d /\ skills d' = skills d /\ resumes d' = resumes d
  /\ resume_skills d' = resume_skills d /\ work_experience d' = work_experience d
  /\ education d' = education d
  /\ (forall j, In j (jobs d') <-> In j (jobs d) /\ ~ In (job_id j) ids)
  /\ (forall a, In a (applications d')
                <-> In a (applications d) /\ ~ In (app_job_id a) ids)
  /\ (forall x, In x (ai_analysis d')
                <-> In x (ai_analysis d) /\ none_of ids (ai_job_id x)).
Proof.
  induction ids as [|id ids IH]; simpl.
  - unfold none_of. simpl. repeat split; intros; tauto.
  - destruct IH as (E1 & E2 & E3 & E4 & E5 & E6 & Hj & Ha & Hx).
    do 6 (split; [assumption|]).
    split; [member job_id Hj|].
    split; [member app_job_id Ha|].
    intros x. rewrite (kept_ref _ ai_job_id), Hx, none_of_cons. tauto.
Qed.

(** *** One user *)

Lemma owned_resume_in (id : nat) (d : DB) (r : Resume) :
  In r (resumes d) -> resume_user_id r = id -> In (resume_id r) (owned_resumes id d).
Proof.
  intros Hr E. unfold owned_resumes. apply in_map, filter_In.
  split; [exact Hr | now apply Nat.eqb_eq].
Qed.

Lemma owned_job_in (id : nat) (d : DB) (j : Job) :
  In j (jobs d) -> job_employer_id j = id -> In (job_id j) (owned_jobs id d).
Proof.
  intros Hj E. unfold owned_jobs. apply in_map, filter_In.
  split; [exact Hj | now apply Nat.eqb_eq].
Qed.

Lemma delete_user_rows (id : nat) (d : DB) :
  let d' := delete_user id d in
  let R := owned_resumes id d in
  let J := owned_jobs id d in
  skills d' = skills d
  /\ (forall u, In u (users d') <-> In u (users d) /\ user_id u <> id)
  /\ (forall r, In r (resumes d') <-> In r (resumes d) /\ ~ In (resume_id r) R)
  /\ (forall l, In l (resume_skills d')
                <-> In l (resume_skills d) /\ ~ In (rs_resume_id l) R)
  /\ (forall w, In w (work_experience d')
                <-> In w (work_experience d) /\ ~ In (we_resume_id w) R)
  /\ (forall e, In e (education d') <-> In e (education d) /\ ~ In (edu_resume_id e) R)
  /\ (forall j, In j (jobs d') <-> In j (jobs d) /\ ~ In (job_id j) J)
  /\ (forall a, In a (applications d')
                <-> In a (applications d) /\ ~ In (app_resume_id a) R
                    /\ ~ In (app_job_id a) J /\ app_applicant_id a <> id)
  /\ (forall x, In x (ai_analysis d')
                <-> In x (ai_analysis d) /\ none_of R (ai_resume_id x)
                    /\ none_of J (ai_job_id x)).
Proof.
  intros d' R J. subst d'. unfold delete_user. fold (owned_resumes id d) (owned_jobs id d).
  fold R J.
  destruct (fold_delete_resume R d) as (U1 & S1 & J1 & Hr & Hl & Hw & He & Ha & Hx).
  destruct (fold_delete_job J (fold_right delete_resume d R))
    as (U2 & S2 & R2 & L2 & W2 & D2 & Hj & Ha2 & Hx2).
  cbv zeta in *. simpl.
  rewrite S2, S1, R2, L2, W2, D2, U2, U1.
  split; [reflexivity|].
  split; [intros u; apply kept|].
  split; [exact Hr|]. split; [exact Hl|]. split; [exact Hw|]. split; [exact He|].
  split; [intros j; rewrite Hj, J1; tauto|].
  split.
  - intros a. rewrite (kept _ app_applicant_id), Ha2, Ha. tauto.
  - intros x. rewrite Hx2, Hx. tauto.
Qed.

Lemma delete_user_unreferenced (id : nat) (d : DB) : unreferenced_user (delete_user id d) id.
Proof.
  destruct (delete_user_rows id d) as (_ & Hu & Hr & _ & _ & _ & Hj & Ha & _).
  unfold unreferenced_user, has_user. repeat split.
  - intros (u & Hin & E). apply Hu in Hin. tauto.
  - intros r Hin E. apply Hr in Hin. destruct Hin as [Hin Hno].
    apply Hno. now apply owned_resume_in.
  - intros j Hin E. apply Hj in Hin. destruct Hin as [Hin Hno].
    apply Hno. now apply owned_job_in.
  - intros a Hin. apply Ha in Hin. tauto.
Qed.

Lemma delete_user_integrity (id : nat) (d : DB) :
  referential_integrity d -> referential_integrity (delete_user id d).
Proof.
  intros [H1 H2 H3 H4 H5 H6 H7].
  destruct (delete_user_rows id d) as (Hs & Hu & Hr & Hl & Hw & He & Hj & Ha & Hx).
  cbv zeta in *.
  assert (Kuser : forall k, k <> id -> has_user d k -> has_user (delete_user id d) k).
  { intros k Hk (u & Hin & E). exists u. split; [|exact E]. apply Hu. split; congruence. }
  assert (Kres : forall k, ~ In k (owned_resumes id d) -> has_resume d k ->
                           has_resume (delete_user id d) k).
  { intros k Hk (r & Hin & E). exists r. split; [|exact E]. apply Hr. split; congruence. }
  assert (Kjob : forall k, ~ In k (owned_jobs id d) -> has_job d k ->
                           has_job (delete_user id d) k).
  { intros k Hk (j & Hin & E). exists j. split; [|exact E]. apply Hj. split; congruence. }
  constructor.
  - intros r Hin. apply Hr in Hin. destruct Hin as [Hin Hno].
    apply Kuser; [|auto]. intros E. apply Hno. now apply owned_resume_in.
  - intros l Hin. apply Hl in Hin. destruct Hin as [Hin Hno].
    destruct (H2 l Hin) as [A (s & Hsk & E)]. split; [auto|].
    exists s. split; [|exact E]. now rewrite Hs.
  - intros w Hin. apply Hw in Hin. destruct Hin as [Hin Hno]. auto.
  - intros e Hin. apply He in Hin. destruct Hin as [Hin Hno]. auto.
  - intros j Hin. apply Hj in Hin. destruct Hin as [Hin Hno].
    apply Kuser; [|auto]. intros E. apply Hno. now apply owned_job_in.
  - intros a Hin. apply Ha in Hin. destruct Hin as (Hin & N1 & N2 & N3).
    destruct (H6 a Hin) as (A & B & C). repeat split; auto.
  - intros x Hin. apply Hx in Hin. destruct Hin as (Hin & N1 & N2).
    destruct (H7 x Hin) as [A B]. unfold none_of in *. split.
    + destruct (ai_resume_id x) as [k|]; simpl in *; [|exact I].
      apply Kres; [apply N1; reflexivity | exact A].
    + destruct (ai_job_id x) as [k|]; simpl in *; [|exact I].
      apply Kjob; [apply N2; reflexivity | exact B].
Qed.

(** *** What a delete leaves *)

Lemma delete_job_rows (id : nat) (d : DB) : only_job_rows_removed d (delete_job id d) id.
Proof.
  unfold only_job_rows_removed; simpl.
  do 6 (split; [reflexivity|]).
  split; [intros j; apply kept|].
  split; [intros a; apply kept | intros x; apply kept_ref].
Qed.

Lemma delete_resume_rows (id : nat) (d : DB) :
  only_resume_rows_removed d (delete_resume id d) id.
Proof.
  unfold only_resume_rows_removed; simpl.
  do 3 (split; [reflexivity|]).
  split; [intros r; apply kept|].
  split; [intros l; apply kept|].
  split; [intros w; apply kept|].
  split; [intros e; apply kept|].
  split; [intros a; apply kept | intros x; apply kept_ref].
Qed.

Lemma delete_user_only (id : nat) (d : DB) : only_user_rows_removed d (delete_user id d) id.
Proof.
  destruct (delete_user_rows id d) as (Hs & Hu & Hr & Hl & Hw & He & Hj & Ha & Hx).
  cbv zeta in *. unfold only_user_rows_removed.
  split; [exact Hs|]. split; [exact Hu|]. split; [exact Hr|]. split; [exact Hj|].
  split; [exact Hl|]. split; [exact Hw|]. split; [exact He|].
  split; [|exact Hx].
  intros a. rewrite Ha. tauto.
Qed.

(** *** DELETE /api/jobs/:id issues the one statement *)

Lemma DELETE_job_by_owner (d : DB) (u : User) (id : nat) (j : Job) :
  existsb (String.eqb (user_role u)) ["employer"; "admin"] = true ->
  find (fun j => (job_id j =? id) && (job_employer_id j =? user_id u)) (jobs d) = Some j ->
  Jobs.DELETE_job u id d
  = (Ok (Success 200 None (Some "Job deleted successfully")), delete_job id d).
Proof.
  intros Hrole H.
  unfold Jobs.DELETE_job, Auth.authorize. rewrite Hrole.
  unfold Jobs.delete_handler, try_catch, bind, Jobs.Job_findOne, gets, ret.
  cbn [negb]. cbv beta iota. rewrite H. unfold Jobs.Job_destroy, modify.
  apply find_some in H. destruct H as [_ H]. apply andb_prop in H.
  destruct H as [H _]. apply Nat.eqb_eq in H. rewrite H. reflexivity.
Qed.

Lemma DELETE_job_store (d : DB) (u : User) (id : nat) :
  snd (Jobs.DELETE_job u id d) = d
  \/ Jobs.DELETE_job u id d
     = (Ok (Success 200 None (Some "Job deleted successfully")), delete_job id d).
Proof.
  destruct (existsb (String.eqb (user_role u)) ["employer"; "admin"]) eqn:Hrole.
  - destruct (find (fun j => (job_id j =? id) && (job_employer_id j =? user_id u)) (jobs d))
      as [j|] eqn:H.
    + right. exact (DELETE_job_by_owner d u id j Hrole H).
    + left. unfold Jobs.DELETE_job, Auth.authorize. rewrite Hrole.
      unfold Jobs.delete_handler, try_catch, bind, Jobs.Job_findOne, gets, ret.
      cbn [negb]. cbv beta iota. rewrite H. reflexivity.
  - left. unfold Jobs.DELETE_job, Auth.authorize. rewrite Hrole. reflexivity.
Qed.

(** The callback routes/resumes.js writes for DELETE /:id: whatever it
    replies, it leaves the store as it was or issues the one delete of the
    resume row. *)
Lemma delete_callback_store (d : DB) (u : User) (id : nat) :
  snd (Resumes.DELETE_resume u id d) = d
  \/ snd (Resumes.DELETE_resume u id d) = delete_resume id d.
Proof.
  unfold Resumes.DELETE_resume, try_catch, bind, Resumes.Resume_findOne, gets, ret.
  destruct (find (fun r => (resume_id r =? id) && (resume_user_id r =? user_id u))
                 (resumes d)) as [r|] eqn:H.
  - right. unfold Resumes.Resume_destroy, modify.
    apply find_some in H. destruct H as [_ H]. apply andb_prop in H.
    destruct H as [H _]. apply Nat.eqb_eq in H. rewrite H. reflexivity.
  - left. reflexivity.
Qed.

(** C7.  Deleting a user, a resume or a job removes, through the ON DELETE
    CASCADE foreign keys of the schema, the rows that point at it and no
    other row: with a user go the user's resumes, jobs and applications
    and what hangs on those; with a resume its skill links, work
    experience, education, applications and analyses; with a job its
    applications and analyses; every other row of every table stays as it
    was.  No surviving row references the deleted parent, and a store
    whose foreign keys all point at rows keeps that property.  The handler
    of DELETE /api/jobs/:id either leaves the store as it was or, for the
    employer who owns the job, issues the one delete of the job row and
    answers 200: the rows of the children go by the schema.
    routes/resumes.js does not get to register its routes; the callback it
    writes for the delete holds no statement but the one delete of the
    resume row. *)
Theorem deletes_cascade (d : DB) (id : nat) :
  (unreferenced_user (delete_user id d) id
   /\ only_user_rows_removed d (delete_user id d) id)
  /\ (unreferenced_resume (delete_resume id d) id
      /\ only_resume_rows_removed d (delete_resume id d) id)
  /\ (unreferenced_job (delete_job id d) id
      /\ only_job_rows_removed d (delete_job id d) id)
  /\ (referential_integrity d ->
      referential_integrity (delete_user id d)
      /\ referential_integrity (delete_resume id d)
      /\ referential_integrity (delete_job id d)
      /\ referential_integrity (delete_application id d))
  /\ (forall u,
        snd (Jobs.DELETE_job u id d) = d
        \/ Jobs.DELETE_job u id d
           = (Ok (Success 200 None (Some "Job deleted successfully")), delete_job id d))
  /\ (forall u j,
        existsb (String.eqb (user_role u)) ["employer"; "admin"] = true ->
        find (fun j => (job_id j =? id) && (job_employer_id j =? user_id u)) (jobs d)
        = Some j ->
        Jobs.DELETE_job u id d
        = (Ok (Success 200 None (Some "Job deleted successfully")), delete_job id d))
  /\ Resumes.router
     = Throw (Error "Route.get() requires a callback function but got a [object Object]")
  /\ (forall u,
        snd (Resumes.DELETE_resume u id d) = d
        \/ snd (Resumes.DELETE_resume u id d) = delete_resume id d).
Proof.
  split; [split; [apply delete_user_unreferenced | apply delete_user_only]|].
  split; [split; [apply delete_resume_unreferenced | apply delete_resume_rows]|].
  split; [split; [apply delete_job_unreferenced | apply delete_job_rows]|].
  split; [|split; [|split; [|split]]].
  - intros H. split; [now apply delete_user_integrity|].
    split; [now apply delete_resume_integrity|].
    split; [now apply delete_job_integrity | now apply delete_application_integrity].
  - intros u. apply DELETE_job_store.
  - intros u j. apply DELETE_job_by_owner.
  - reflexivity.
  - intros u. apply delete_callback_store.
Qed.

Lemma db1_integrity : referential_integrity (Sample.db1 "pending").
Proof.
  constructor; simpl.
  - intros r [<-|[]]. exists Sample.applicant7. simpl. tauto.
  - intros l [].
  - intros w [].
  - intros e [].
  - intros j [<-|[]]. exists Sample.employer1. simpl. tauto.
  - intros a [<-|[]]. repeat split.
    + exists Sample.job1. simpl. tauto.
    + exists Sample.applicant7. simpl. tauto.
    + exists Sample.resume3. simpl. tauto.
  - intros x [].
Qed.

Lemma deletes_cascade_witness :
  referential_integrity (delete_user 7 (Sample.db1 "pending"))
  /\ unreferenced_user (delete_user 7 (Sample.db1 "pending")) 7
  /\ only_user_rows_removed (Sample.db1 "pending") (delete_user 7 (Sample.db1 "pending")) 7.
Proof.
  destruct (deletes_cascade (Sample.db1 "pending") 7) as ((U & F) & _ & _ & H & _).
  split; [exact (proj1 (H db1_integrity)) | split; [exact U | exact F]].
Defined.

(** Deleting the applicant empties what hung on the account. *)
Example delete_applicant7 :
  resumes (delete_user 7 (Sample.db1 "pending")) = []
  /\ applications (delete_user 7 (Sample.db1 "pending")) = []
  /\ jobs (delete_user 7 (Sample.db1 "pending")) = [Sample.job1].
Proof. repeat split. Qed.

(** Deleting the job takes the application for it and leaves the users,
    the resume and the taxonomy; a caller who does not own the job gets
    404 and the store as it was. *)
Example delete_job1 :
  jobs (delete_job 1 (Sample.db1 "pending")) = []
  /\ applications (delete_job 1 (Sample.db1 "pending")) = []
  /\ resumes (delete_job 1 (Sample.db1 "pending")) = [Sample.resume3]
  /\ users (delete_job 1 (Sample.db1 "pending")) = users (Sample.db1 "pending")
  /\ Jobs.DELETE_job Sample.employer2 1 (Sample.db1 "pending")
     = (Ok (Failure 404 "Job not found or access denied"), Sample.db1 "pending")
  /\ Jobs.DELETE_job Sample.employer1 1 (Sample.db1 "pending")
     = (Ok (Success 200 None (Some "Job deleted successfully")),
        delete_job 1 (Sample.db1 "pending")).
Proof. repeat split. Qed.

End CascadeProofs.

(* ------------------------------------------------------------------ *)
(** ** Validation: proofs *)

Module ValidationProofs.
Import JS Schema Eff Http Props.

Section Joi.
Variable is_email : string -> bool.
Variable to_number : string -> option Z.
Variable to_date : string -> option Z.
Variable now : Z.

Local Abbreviation validate_value := (Joi.validate_value is_email to_number to_date now).
Local Abbreviation validate_keys := (Joi.validate_keys is_email to_number to_date now).
Local Abbreviation validate := (Joi.validate is_email to_number to_date now).

(** A body the schema accepts satisfies the schema of each key. *)
Lemma validate_keys_each (keys : list (string * Joi.schema)) (body : list (string * value)) :
  validate_keys keys body = None ->
  forall k s, In (k, s) keys -> validate_value s (lookup k body) = None.
Proof.
  induction keys as [|[k0 s0] keys IH]; simpl; intros H k s Hin; [contradiction|].
  destruct (validate_value s0 (lookup k0 body)) eqn:E; [discriminate|].
  destruct Hin as [Heq|Hin]; [inversion Heq; subst; exact E | eauto].
Qed.

Lemma validate_each (keys : list (string * Joi.schema)) (body : list (string * value)) :
  validate keys body = None ->
  forall k s, In (k, s) keys -> validate_value s (lookup k body) = None.
Proof.
  unfold Joi.validate. intros H.
  destruct (validate_keys keys body) eqn:E; [discriminate|].
  now apply validate_keys_each.
Qed.

Lemma role_schema_accepts (v : value) :
  validate_value role_schema v = None -> role_accepted v.
Proof.
  unfold role_accepted, Joi.validate_value. simpl.
  destruct v; try discriminate; auto.
  destruct (s =? "applicant")%string eqn:E1.
  { apply String.eqb_eq in E1. subst. auto. }
  destruct (s =? "employer")%string eqn:E2.
  { apply String.eqb_eq in E2. subst. auto. }
  unfold includes. simpl. rewrite E1, E2. discriminate.
Qed.

Lemma registration_next_role (D : Type) (body : list (string * value)) :
  Validation.validateRegistration (D := D) is_email to_number to_date now body = Next ->
  role_accepted (lookup "role" body).
Proof.
  unfold Validation.validateRegistration.
  destruct (validate Validation.registration_schema body) eqn:E; [discriminate|].
  intros _. apply role_schema_accepts.
  apply (validate_each _ _ E "role"). simpl. tauto.
Qed.

Lemma salary_schema_positive (message : string) (n : Z) :
  validate_value (salary_schema message) (VNum n) = None -> (0 < n)%Z.
Proof.
  unfold Joi.validate_value. simpl.
  destruct (0 <? n)%Z eqn:E; [intros _; now apply Z.ltb_lt | discriminate].
Qed.

Lemma validateJob_inverted_numbers (D : Type) (body : list (string * value)) (lo hi : Z) :
  lookup "salary_min" body = VNum lo ->
  lookup "salary_max" body = VNum hi ->
  (hi < lo)%Z ->
  exists message,
    Validation.validateJob (D := D) is_email to_number to_date now body
    = Respond (Failure 400 message)
    /\ (validate Validation.job_schema body = None ->
        message = Validation.salary_range_error).
Proof.
  intros Hlo Hhi Hlt. unfold Validation.validateJob.
  destruct (validate Validation.job_schema body) eqn:E.
  - eexists. split; [reflexivity | discriminate].
  - assert (Plo : (0 < lo)%Z).
    { apply (salary_schema_positive "Minimum salary must be a positive number").
      rewrite <- Hlo. apply (validate_each _ _ E "salary_min"). simpl. tauto. }
    assert (Phi : (0 < hi)%Z).
    { apply (salary_schema_positive "Maximum salary must be a positive number").
      rewrite <- Hhi. apply (validate_each _ _ E "salary_max"). simpl. tauto. }
    rewrite Hlo, Hhi. unfold truthy, gt.
    replace (lo =? 0)%Z with false by (symmetry; apply Z.eqb_neq; lia).
    replace (hi =? 0)%Z with false by (symmetry; apply Z.eqb_neq; lia).
    replace (hi <? lo)%Z with true by (symmetry; apply Z.ltb_lt; lia).
    simpl. eexists. split; [reflexivity | auto].
Qed.

End Joi.

(** C9.  [validateRegistration] calls [next()] only for a body whose role
    is absent, 'applicant' or 'employer'.  A body with any other role is
    answered 400 with a validation message, and whatever handler follows
    the validator on the registration route is not run: the reply is the
    validator's and the store is untouched. *)
Theorem registration_role_gate (is_email : string -> bool)
    (to_number to_date : string -> option Z) (now : Z) (body : list (string * value)) :
  (Validation.validateRegistration (D := unit) is_email to_number to_date now body = Next ->
   role_accepted (lookup "role" body))
  /\ (~ role_accepted (lookup "role" body) ->
      exists message,
        Validation.validateRegistration (D := unit) is_email to_number to_date now body
        = Respond (Failure 400 message)
        /\ forall (S : Type) (handler : list (string * value) -> M S (Response unit)) (s : S),
             register_route is_email to_number to_date now handler body s
             = (Ok (Failure 400 message), s)).
Proof.
  split; [apply registration_next_role|].
  intros Hno.
  pose proof (registration_next_role is_email to_number to_date now unit body) as Hnext.
  unfold register_route.
  unfold Validation.validateRegistration in *.
  destruct (Joi.validate is_email to_number to_date now Validation.registration_schema body)
    as [message|].
  - exists message. split; [reflexivity|]. intros S handler s. reflexivity.
  - exfalso. apply Hno, Hnext. reflexivity.
Qed.

Lemma registration_role_gate_witness :
  exists message,
    Validation.validateRegistration (D := unit) Sample.is_email JS.integer_of_string
      Sample.to_date 0 (Sample.registration_body (VStr "admin"))
    = Respond (Failure 400 message).
Proof.
  destruct (registration_role_gate Sample.is_email JS.integer_of_string Sample.to_date 0
              (Sample.registration_body (VStr "admin"))) as [_ H].
  destruct H as (message & E & _).
  - unfold role_accepted. simpl. intros [H|[H|H]]; discriminate H.
  - exists message. exact E.
Defined.

(** The validator is not vacuous: it lets the two public roles through. *)
Example registration_accepts_employer :
  Validation.validateRegistration (D := unit) Sample.is_email JS.integer_of_string
    Sample.to_date 0 (Sample.registration_body (VStr "employer")) = Next.
Proof. reflexivity. Qed.

Example registration_rejects_admin :
  Validation.validateRegistration (D := unit) Sample.is_email JS.integer_of_string
    Sample.to_date 0 (Sample.registration_body (VStr "admin"))
  = Respond (Failure 400 "any.only: role").
Proof. reflexivity. Qed.

(** *** The salary range *)

Example gt_on_numbers : gt integer_of_string (VNum 100) (VNum 20) = true.
Proof. reflexivity. Qed.

Example gt_on_strings : gt integer_of_string (VStr "100") (VStr "20") = false.
Proof. reflexivity. Qed.

Example gt_number_and_string : gt integer_of_string (VNum 100) (VStr "20") = true.
Proof. reflexivity. Qed.

Example numeral_read : integer_of_string "-12" = Some (-12)%Z.
Proof. reflexivity. Qed.

(** With both bounds sent as JSON numbers, an inverted range never
    reaches the handlers: create and update are answered with a failure
    and the store is unchanged. *)
Lemma inverted_salary_numbers_rejected (is_email : string -> bool)
    (to_number to_date : string -> option Z) (now : Z) (u : User) (id : nat)
    (body : list (string * value)) (d : DB) (lo hi : Z) :
  lookup "salary_min" body = VNum lo ->
  lookup "salary_max" body = VNum hi ->
  (hi < lo)%Z ->
  (exists code error,
     Jobs.POST_jobs is_email to_number to_date now u body d = (Ok (Failure code error), d))
  /\ (exists code error,
        Jobs.PUT_job is_email to_number to_date now u id body d
        = (Ok (Failure code error), d)).
Proof.
  intros Hlo Hhi Hlt.
  destruct (validateJob_inverted_numbers is_email to_number to_date now
              (option Job) body lo hi Hlo Hhi Hlt) as (m & E & _).
  unfold Jobs.POST_jobs, Jobs.PUT_job. rewrite E.
  destruct (Auth.authorize ["employer"; "admin"] (Some u)) as [|[c x msg|c e]] eqn:A.
  - split; do 2 eexists; reflexivity.
  - unfold Auth.authorize in A. destruct (negb _) in A; discriminate A.
  - split; do 2 eexists; reflexivity.
Qed.

Example salary_50000_40000_rejected :
  Jobs.POST_jobs Sample.is_email JS.integer_of_string Sample.to_date 0 Sample.employer1
    (Sample.job_body (VNum 50000) (VNum 40000)) Sample.db0
  = (Ok (Failure 400 "Minimum salary cannot be greater than maximum salary"), Sample.db0).
Proof. reflexivity. Qed.

(** C5 fails on the code.  Joi accepts numerals for a number, and the
    range check compares the values of [req.body] as sent: two strings
    are compared as strings, so '100' > '20' is false.  The request passes
    validation and the job is stored with salary_min 100 above
    salary_max 20. *)
Theorem inverted_salary_strings_stored :
  exists job,
    Jobs.POST_jobs Sample.is_email JS.integer_of_string Sample.to_date 0 Sample.employer1
      (Sample.job_body (VStr "100") (VStr "20")) Sample.db0
    = (Ok (Success 201 (Some job) (Some "Job created successfully")),
       set_jobs (fun l => l ++ [job]) 3 Sample.db0)
    /\ job_salary_min job = Some 100%Z
    /\ job_salary_max job = Some 20%Z
    /\ (20 < 100)%Z.
Proof.
  eexists. split; [reflexivity|]. repeat split.
Qed.

(** The same check refuses a proper range sent as strings. *)
Example proper_salary_strings_refused :
  Jobs.POST_jobs Sample.is_email JS.integer_of_string Sample.to_date 0 Sample.employer1
    (Sample.job_body (VStr "90000") (VStr "100000")) Sample.db0
  = (Ok (Failure 400 "Minimum salary cannot be greater than maximum salary"), Sample.db0).
Proof. reflexivity. Qed.

End ValidationProofs.

(* ------------------------------------------------------------------ *)
(** ** The public job list: proofs *)

Module JobsProofs.
Import JS Schema Eff Http Props.

(** C3 fails on the code.  The scenario request
    GET /api/jobs?location=Remote&employment_type=contract&page=1&limit=10
    is answered 500 'Failed to fetch jobs' on every store: building the
    location filter reads [Op], which routes/jobs.js never binds. *)
Theorem public_list_with_location_fails
    (order_rows : string -> string -> list Job -> list Job) (d : DB) :
  Jobs.GET_jobs order_rows Sample.remote_contract_query d
  = (Ok (Failure 500 "Failed to fetch jobs"), d).
Proof. reflexivity. Qed.

(** So does every request with a location, a salary bound or a search text. *)
Lemma public_list_with_Op_fails
    (order_rows : string -> string -> list Job -> list Job) (q : Jobs.Query) (d : DB) :
  ~ plain q ->
  Jobs.GET_jobs order_rows q d = (Ok (Failure 500 "Failed to fetch jobs"), d).
Proof.
  intros Hq. unfold Jobs.GET_jobs, try_catch, bind, ret, Jobs.Op, throw.
  destruct (Jobs.given (Jobs.q_location q)) eqn:E1; [reflexivity|].
  destruct (Jobs.given (Jobs.q_employment_type q));
    destruct (Jobs.given (Jobs.q_experience_level q));
    (destruct (Jobs.q_salary_min q) eqn:E2; [reflexivity|]);
    (destruct (Jobs.q_salary_max q) eqn:E3; [reflexivity|]);
    (destruct (Jobs.given (Jobs.q_search q)) eqn:E4; [reflexivity|]);
    exfalso; apply Hq; unfold plain; auto.
Qed.

Lemma ceil_div_bounds (count : nat) (limit : Z) :
  (0 < limit)%Z ->
  exists n, Jobs.ceil_div count limit = Some n
            /\ ((n - 1) * limit < Z.of_nat count <= n * limit)%Z.
Proof.
  intros Hl. unfold Jobs.ceil_div.
  replace (limit =? 0)%Z with false by (symmetry; apply Z.eqb_neq; lia).
  eexists. split; [reflexivity|].
  pose proof (Z.div_mod (- Z.of_nat count) limit ltac:(lia)) as Hdm.
  pose proof (Z.mod_pos_bound (- Z.of_nat count) limit Hl) as Hm.
  nia.
Qed.

Lemma firstn_skipn_incl {A} (n m : nat) (l : list A) : incl (firstn n (skipn m l)) l.
Proof.
  intros x Hx.
  rewrite <- (firstn_skipn m l). apply in_or_app. right.
  rewrite <- (firstn_skipn n (skipn m l)). apply in_or_app. now left.
Qed.

(** Without those filters, for a sort column of the table and a
    direction of ORDER BY, the list is what the API describes: only
    active jobs that match, and the pagination object of the request. *)
Lemma public_list_plain
    (order_rows : string -> string -> list Job -> list Job) (q : Jobs.Query) (d : DB) :
  (forall sort order l, incl (order_rows sort order l) l) ->
  plain q ->
  existsb (collate_eq (Jobs.or_default (Jobs.q_sort q) "created_at")) Jobs.columns = true ->
  existsb (String.eqb (upper (Jobs.or_default (Jobs.q_order q) "DESC"))) Jobs.directions
  = true ->
  (1 <= Jobs.or_default (Jobs.q_page q) 1)%Z ->
  (0 < Jobs.or_default (Jobs.q_limit q) 10)%Z ->
  exists rows pages,
    Jobs.GET_jobs order_rows q d
    = (Ok (Success 200
             (rows,
              {| Jobs.current_page := Jobs.or_default (Jobs.q_page q) 1%Z;
                 Jobs.total_pages := Some pages;
                 Jobs.total_items := List.length (filter (listed q) (jobs d));
                 Jobs.items_per_page := Jobs.or_default (Jobs.q_limit q) 10%Z |})
             None), d)
    /\ (forall j, In j rows -> In j (jobs d) /\ listed q j = true)
    /\ ((pages - 1) * Jobs.or_default (Jobs.q_limit q) 10
        < Z.of_nat (List.length (filter (listed q) (jobs d)))
        <= pages * Jobs.or_default (Jobs.q_limit q) 10)%Z.
Proof.
  intros Hord (E1 & E2 & E3 & E4) Hsort Horder Hpage Hlimit.
  set (page := Jobs.or_default (Jobs.q_page q) 1%Z) in *.
  set (limit := Jobs.or_default (Jobs.q_limit q) 10%Z) in *.
  destruct (ceil_div_bounds (List.length (filter (listed q) (jobs d))) limit Hlimit)
    as (pages & Hc & Hb).
  unfold Jobs.GET_jobs, try_catch, bind, ret, Jobs.Job_findAndCountAll, gets.
  fold page limit. rewrite E1, E2, E3, E4, Hsort, Horder. cbn [negb].
  replace (limit <? 0)%Z with false by (symmetry; apply Z.ltb_ge; lia).
  replace ((page - 1) * limit <? 0)%Z with false by (symmetry; apply Z.ltb_ge; nia).
  cbn [orb].
  destruct (Jobs.given (Jobs.q_employment_type q)) eqn:G1;
    destruct (Jobs.given (Jobs.q_experience_level q)) eqn:G2;
    cbv beta iota; cbn [fst snd];
    match goal with
    | |- context [filter (Jobs.matches ?w) (jobs d)] =>
        assert (Hw : forall j, Jobs.matches w j = listed q j)
          by (intros j; unfold Jobs.matches, listed, Jobs.holds; rewrite G1, G2; simpl;
              destruct (job_is_active j); simpl; rewrite ?andb_true_r; reflexivity);
        rewrite (filter_ext _ _ Hw (jobs d))
    end;
    rewrite Hc; do 2 eexists; (split; [reflexivity|]); (split; [|exact Hb]);
    intros j Hj; apply firstn_skipn_incl, Hord, filter_In in Hj; exact Hj.
Qed.

(** The default order is one of them, and a sort parameter that names no
    column of the table is answered 500. *)
Example default_order_is_known :
  existsb (collate_eq "created_at") Jobs.columns = true
  /\ existsb (String.eqb (upper "DESC")) Jobs.directions = true.
Proof. split; reflexivity. Qed.

Example unknown_sort_column_fails
    (order_rows : string -> string -> list Job -> list Job) (d : DB) :
  Jobs.GET_jobs order_rows
    {| Jobs.q_page := None; Jobs.q_limit := None; Jobs.q_location := None;
       Jobs.q_employment_type := None; Jobs.q_experience_level := None;
       Jobs.q_salary_min := None; Jobs.q_salary_max := None; Jobs.q_search := None;
       Jobs.q_sort := Some "salary"; Jobs.q_order := None |} d
  = (Ok (Failure 500 "Failed to fetch jobs"), d).
Proof. reflexivity. Qed.

End JobsProofs.

(* ------------------------------------------------------------------ *)
(** ** The AI module: proofs *)

Module AIProofs.
Import JS Schema Eff Http Props.

(** The module does not get to export its router: the first registration
    is handed the object bound to [auth]. *)
Lemma ai_router_not_registered :
  AI.router
  = Throw (Error "Route.post() requires a callback function but got a [object Object]").
Proof. reflexivity. Qed.



(** The replies in full, for a missing resume and for a service that is
    down. *)
Example missing_resume_is_service_error :
  AI.analyze_resume Sample.JSON_parse Sample.applicant7 99 (Sample.world0 [AI.Content "{}"])
  = (Ok (Failure 500 "Failed to analyze resume"), Sample.world0 [AI.Content "{}"])
  /\ is_service_error (Failure (D := AI.Analysis) 500 "Failed to analyze resume").
Proof. split; reflexivity. Qed.

Example service_down_is_service_error :
  AI.match_jobs Sample.JSON_parse JS.integer_of_string Sample.applicant7 3
    (Sample.world0 [AI.CallFails; AI.Content "[]"])
  = (Ok (Failure 500 "Failed to match jobs"), Sample.world0 [AI.CallFails; AI.Content "[]"]).
Proof. reflexivity. Qed.

(** *** Past the lookup

    What the callbacks do after the guard [if (!resume)], under their
    catch: when the completion call fails or its reply is not JSON, the
    reply is the same 500, one call was made and nothing is stored. *)

Lemma found_then_upstream_fails (JSON_parse : string -> option value)
    (to_number : string -> option Z) (r : Resume) (role industry : value) (w : AI.World) :
  upstream_fails JSON_parse w ->
  let w' := {| AI.db := AI.db w; AI.service := tl (AI.service w) |} in
  caught AnalyzeResume (AI.analyze_found JSON_parse r) w
  = (Some (500, "Failed to analyze resume"), w')
  /\ caught MatchJobs (AI.match_found JSON_parse to_number r) w
     = (Some (500, "Failed to match jobs"), w')
  /\ caught (SkillGapAnalysis role industry) (AI.skill_gap_found JSON_parse r role industry) w
     = (Some (500, "Failed to analyze skill gaps"), w')
  /\ caught ImproveResume (AI.improve_found JSON_parse r) w
     = (Some (500, "Failed to generate improvement suggestions"), w').
Proof.
  destruct w as [d sv]. unfold upstream_fails. simpl AI.service. simpl AI.db.
  intros Hup.
  unfold caught, AI.analyze_found, AI.match_found, AI.skill_gap_found, AI.improve_found,
    try_catch, bind, AI.liftDB, gets, ret, AI.openai_create, AI.parse, throw; simpl.
  destruct sv as [|[|text] rest]; simpl; [repeat split | repeat split |].
  rewrite Hup. repeat split.
Qed.

End AIProofs.

(* ------------------------------------------------------------------ *)
(** ** Resume skills: proofs *)

Module ResumesProofs.
Import JS Schema Eff Http Props.
Import Resumes.

(** *** The module and its includes *)

(** The module does not get to export its router: the first registration
    is handed the object bound to [auth]. *)
Lemma resumes_router_not_registered :
  Resumes.router
  = Throw (Error "Route.get() requires a callback function but got a [object Object]").
Proof. reflexivity. Qed.

(** Resume has its skill links under the alias 'resume_skills' (and its
    work experience and education under aliases too); the final query of
    create and update includes the models without [as]. *)
Lemma findByPk_complete_throws (id : nat) (d : DB) :
  Resume_findByPk_complete id d
  = (Throw (EagerLoadingError "ResumeSkill is associated to Resume using an alias"), d).
Proof. reflexivity. Qed.

(** The includes of the jobs and applications routers name associations
    as models/index.js declares them. *)
Lemma includes_of_jobs_and_applications_resolve :
  Orm.first_unresolved Orm.Job [Orm.Of Orm.User (Some "employer") []] = None
  /\ Orm.first_unresolved Orm.Job
       [Orm.Of Orm.User (Some "employer") [];
        Orm.Of Orm.Application (Some "applications")
          [Orm.Of Orm.User (Some "applicant") []]] = None
  /\ Orm.first_unresolved Orm.Application
       [Orm.Of Orm.Job (Some "job") [Orm.Of Orm.User (Some "employer") []];
        Orm.Of Orm.Resume (Some "resume") []] = None
  /\ Orm.first_unresolved Orm.Application
       [Orm.Of Orm.User (Some "applicant") []; Orm.Of Orm.Resume (Some "resume") []] = None
  /\ Orm.first_unresolved Orm.Application
       [Orm.Of Orm.User (Some "applicant") []; Orm.Of Orm.Job (Some "job") []] = None
  /\ Orm.first_unresolved Orm.AIAnalysis [Orm.Of Orm.Resume None []] = None.
Proof. repeat split. Qed.

(** *** Names as the column compares them *)

Lemma collate_refl (a : string) : collate_eq a a = true.
Proof. apply String.eqb_refl. Qed.

Lemma collate_same (a b : string) :
  collate_eq a b = true -> forall x, collate_eq x a = collate_eq x b.
Proof. unfold collate_eq. intros H x. apply String.eqb_eq in H. now rewrite H. Qed.

Lemma find_same {A} (p q : A -> bool) (l : list A) :
  (forall x, p x = q x) -> find p l = find q l.
Proof.
  intros H. induction l as [|x l IH]; simpl; [reflexivity|].
  rewrite H, IH. reflexivity.
Qed.

Lemma find_app_found {A} (p : A -> bool) (l l' : list A) (x : A) :
  find p l = Some x -> find p (l ++ l') = Some x.
Proof.
  induction l as [|y l IH]; simpl; [discriminate|].
  destruct (p y); auto.
Qed.

Lemma find_app_new {A} (p : A -> bool) (l : list A) (x : A) :
  find p l = None -> p x = true -> find p (l ++ [x]) = Some x.
Proof.
  induction l as [|y l IH]; simpl; intros Hn Hp.
  - now rewrite Hp.
  - destruct (p y); [discriminate | auto].
Qed.

Lemma existsb_app_old {A} (p : A -> bool) (l l' : list A) :
  existsb p l = true -> existsb p (l ++ l') = true.
Proof. intros H. rewrite existsb_app, H. reflexivity. Qed.

(** *** One turn of the loop over the supplied skills *)

Lemma for_of_app {S A} (f : A -> M S unit) (l1 l2 : list A) (s : S) :
  for_of (l1 ++ l2) f s
  = match for_of l1 f s with
    | (Ok _, s1) => for_of l2 f s1
    | (Throw e, s1) => (Throw e, s1)
    end.
Proof.
  revert s. induction l1 as [|x l1 IH]; intros s; simpl; [reflexivity|].
  unfold bind. destruct (f x s) as [[[]|e] s1]; [apply IH | reflexivity].
Qed.

Lemma link_skills_cons (resume : nat) (sd : SkillData) (rest : list SkillData) (d : DB) :
  link_skills resume (sd :: rest) d
  = match link_skills resume [sd] d with
    | (Ok _, d1) => link_skills resume rest d1
    | (Throw e, d1) => (Throw e, d1)
    end.
Proof. unfold link_skills. apply (for_of_app _ [sd] rest). Qed.

Lemma link_skills_app (resume : nat) (l1 l2 : list SkillData) (d : DB) :
  link_skills resume (l1 ++ l2) d
  = match link_skills resume l1 d with
    | (Ok _, d1) => link_skills resume l2 d1
    | (Throw e, d1) => (Throw e, d1)
    end.
Proof. unfold link_skills. apply for_of_app. Qed.

(** One entry: the link is refused and the links are as before, or one
    link is added; no other table but the taxonomy changes. *)
Lemma one_entry (resume : nat) (sd : SkillData) (d : DB) :
  exists d',
    resumes d' = resumes d
    /\ ((exists e, link_skills resume [sd] d = (Throw e, d')
                   /\ links_of d' resume = links_of d resume)
        \/ (exists row, link_skills resume [sd] d = (Ok tt, d')
                        /\ links_of d' resume = links_of d resume ++ [row]
                        /\ linked d' resume (sd_name sd)
                        /\ forall name, linked d resume name -> linked d' resume name)).
Proof.
  unfold link_skills. simpl for_of. unfold bind, ret, Skill_findOrCreate.
  destruct (find (fun s => collate_eq (skill_name s) (sd_name sd)) (skills d))
    as [s|] eqn:F.
  - unfold ResumeSkill_create.
    destruct (existsb _ (resume_skills d)) eqn:X.
    + exists d. split; [reflexivity|]. left. eexists. split; reflexivity.
    + eexists. split; [|right; eexists; split; [reflexivity|]].
      * reflexivity.
      * split; [unfold links_of; simpl; rewrite filter_app; simpl;
                rewrite Nat.eqb_refl; reflexivity|].
        split.
        -- exists s. split; [exact F|]. simpl. rewrite existsb_app. simpl.
           rewrite !Nat.eqb_refl. simpl. apply orb_true_r.
        -- intros name (s0 & F0 & X0). exists s0. split; [exact F0|].
           simpl. now apply existsb_app_old.
  - unfold ResumeSkill_create. cbv beta iota zeta.
    match goal with
    | |- context [set_skills ?f ?n d] => set (d1 := set_skills f n d)
    end.
    change (resume_skills d1) with (resume_skills d).
    destruct (existsb _ (resume_skills d)) eqn:X.
    + exists d1. split; [reflexivity|]. left. eexists. split; reflexivity.
    + eexists. split; [|right; eexists; split; [reflexivity|]].
      * reflexivity.
      * split; [unfold links_of; simpl; rewrite filter_app; simpl;
                rewrite Nat.eqb_refl; reflexivity|].
        split.
        -- eexists. split.
           ++ simpl. apply find_app_new; [exact F|]. simpl. apply collate_refl.
           ++ simpl. rewrite existsb_app. simpl. rewrite !Nat.eqb_refl. simpl.
              apply orb_true_r.
        -- intros name (s0 & F0 & X0). exists s0. split.
           ++ simpl. now apply find_app_found.
           ++ simpl. now apply existsb_app_old.
Qed.

(** An entry naming a skill the resume is linked to is refused. *)
Lemma linked_entry_refused (resume : nat) (sd : SkillData) (d : DB) :
  linked d resume (sd_name sd) ->
  link_skills resume [sd] d = (Throw (UniqueConstraintError "unique_resume_skill"), d).
Proof.
  intros (s & F & X). unfold link_skills. simpl for_of.
  unfold bind, Skill_findOrCreate. rewrite F. unfold ResumeSkill_create. rewrite X.
  reflexivity.
Qed.

Lemma linked_same_name (d : DB) (resume : nat) (a b : string) :
  collate_eq a b = true -> linked d resume a -> linked d resume b.
Proof.
  intros H (s & F & X). exists s. split; [|exact X].
  rewrite <- F. apply find_same. intros x. symmetry. now apply collate_same.
Qed.

(** *** The whole loop *)

(** The links of the resume grow by one per entry as long as the loop
    runs, and by fewer than the entries when it stops. *)
Lemma link_skills_count (resume : nat) (sds : list SkillData) :
  forall d,
    exists d',
      resumes d' = resumes d
      /\ ((link_skills resume sds d = (Ok tt, d')
           /\ List.length (links_of d' resume)
              = List.length (links_of d resume) + List.length sds
           /\ forall name, linked d resume name -> linked d' resume name)
          \/ (exists e, link_skills resume sds d = (Throw e, d')
                        /\ List.length (links_of d' resume)
                           < List.length (links_of d resume) + List.length sds)).
Proof.
  induction sds as [|sd rest IH]; intros d.
  - exists d. split; [reflexivity|]. left. simpl. split; [reflexivity|]. split; [lia | auto].
  - rewrite link_skills_cons.
    destruct (one_entry resume sd d) as (d1 & R1 & [(e & E & L)|(row & E & L & _ & K)]).
    + exists d1. split; [exact R1|]. right. exists e. rewrite E. split; [reflexivity|].
      rewrite L. simpl. lia.
    + rewrite E. destruct (IH d1) as (d2 & R2 & [(E2 & L2 & K2)|(e & E2 & L2)]).
      * exists d2. split; [congruence|]. left. split; [exact E2|].
        split; [rewrite L2, L, length_app; simpl; lia | auto].
      * exists d2. split; [congruence|]. right. exists e. split; [exact E2|].
        rewrite L, length_app in L2. simpl in *. lia.
Qed.

(** Two entries of one name, as the column compares names: the loop
    stops at the second at the latest. *)
Lemma collision_stops_the_loop (resume : nat)
    (before between after : list SkillData) (first second : SkillData) (d : DB) :
  collate_eq (sd_name first) (sd_name second) = true ->
  exists e d',
    link_skills resume (before ++ first :: between ++ second :: after) d = (Throw e, d')
    /\ resumes d' = resumes d
    /\ List.length (links_of d' resume)
       < List.length (links_of d resume)
         + List.length (before ++ first :: between ++ second :: after).
Proof.
  intros Hsame.
  destruct (link_skills_count resume (before ++ first :: between ++ second :: after) d)
    as (d' & R & [(E & _ & _)|(e & E & L)]); [|exists e, d'; auto].
  exfalso. revert E.
  rewrite link_skills_app.
  destruct (link_skills_count resume before d) as (d1 & _ & [(E1 & _ & _)|(e & E1 & _)]);
    rewrite E1; [|discriminate].
  rewrite link_skills_cons.
  destruct (one_entry resume first d1) as (d2 & _ & [(e & E2 & _)|(row & E2 & _ & K2 & _)]);
    rewrite E2; [discriminate|].
  rewrite link_skills_app.
  destruct (link_skills_count resume between d2) as (d3 & _ & [(E3 & _ & K3)|(e & E3 & _)]);
    rewrite E3; [|discriminate].
  rewrite link_skills_cons.
  rewrite (linked_entry_refused resume second d3); [discriminate|].
  apply (linked_same_name d3 resume (sd_name first)); [exact Hsame | auto].
Qed.

(** *** Names that do not collide *)

Lemma same_key_same_row (l : list Skill) (a b : Skill) :
  NoDup (map skill_id l) -> In a l -> In b l -> skill_id a = skill_id b -> a = b.
Proof.
  induction l as [|x l IH]; simpl; intros Hnd Ha Hb E; [contradiction|].
  inversion Hnd as [|? ? Hx Hl]; subst.
  destruct Ha as [->|Ha], Hb as [->|Hb]; auto.
  - exfalso. apply Hx. rewrite E. now apply in_map.
  - exfalso. apply Hx. rewrite <- E. now apply in_map.
Qed.

Lemma Skill_findOrCreate_ok (name category : string) (d : DB) :
  skills_ok d ->
  exists s d1,
    Skill_findOrCreate name category d = (Ok s, d1)
    /\ In s (skills d1) /\ collate_eq (skill_name s) name = true
    /\ incl (skills d) (skills d1) /\ skills_ok d1
    /\ resume_skills d1 = resume_skills d
    /\ next_resume_skill_id d1 = next_resume_skill_id d.
Proof.
  intros [Hnd Hlt]. unfold Skill_findOrCreate.
  destruct (find (fun s => collate_eq (skill_name s) name) (skills d)) as [s|] eqn:F.
  - apply find_some in F. destruct F as [Hin E].
    exists s, d. repeat split; auto. apply incl_refl.
  - eexists. eexists. split; [reflexivity|]. unfold skills_ok. simpl.
    split; [apply in_or_app; right; now left|].
    split; [apply collate_refl|].
    split; [apply incl_appl, incl_refl|].
    split; [|split; reflexivity].
    split.
    + rewrite map_app. simpl.
      apply NoDup_app; [exact Hnd | repeat constructor; intros [] | ].
      intros k Hk [<-|[]]. apply in_map_iff in Hk. destruct Hk as (s & E & Hs).
      specialize (Hlt s Hs). lia.
    + intros s Hs. apply in_app_or in Hs. destruct Hs as [Hs|[<-|[]]].
      * specialize (Hlt s Hs). lia.
      * simpl. lia.
Qed.

Lemma links_of_app (d : DB) (resume : nat) (row : ResumeSkill) (n : nat) :
  rs_resume_id row = resume ->
  links_of (set_resume_skills (fun l => l ++ [row]) n d) resume
  = links_of d resume ++ [row].
Proof.
  intros E. unfold links_of. simpl. rewrite filter_app. simpl.
  rewrite E, Nat.eqb_refl. reflexivity.
Qed.

Lemma link_skills_distinct (resume : nat) (sds : list SkillData) :
  forall d,
    NoDup (map (fun sd => lower (sd_name sd)) sds) ->
    skills_ok d ->
    (forall l, In l (links_of d resume) ->
       exists s, In s (skills d) /\ skill_id s = rs_skill_id l
                 /\ ~ In (lower (skill_name s)) (map (fun sd => lower (sd_name sd)) sds)) ->
    exists d' new,
      link_skills resume sds d = (Ok tt, d')
      /\ links_of d' resume = links_of d resume ++ new
      /\ Forall2 (link_for d' resume) new sds
      /\ incl (skills d) (skills d')
      /\ resumes d' = resumes d.
Proof.
  induction sds as [|sd rest IH]; intros d Hnd Hok Hold.
  - exists d, []. simpl. rewrite app_nil_r.
    repeat split; [constructor | apply incl_refl].
  - simpl in Hnd. inversion Hnd as [|? ? Hfresh Hrest]; subst.
    unfold link_skills. simpl for_of. unfold bind at 1 2.
    destruct (Skill_findOrCreate_ok (sd_name sd) (or_string (sd_category sd) "General") d Hok)
      as (s & d1 & E1 & Hs & Hname & Hincl & Hok1 & Hrs & Hnext).
    assert (Hlow : lower (skill_name s) = lower (sd_name sd))
      by (now apply String.eqb_eq).
    assert (Hres1 : resumes d1 = resumes d).
    { unfold Skill_findOrCreate in E1. destruct (find _ (skills d)); inversion E1; reflexivity. }
    rewrite E1.
    (* the link does not exist yet *)
    assert (Hnew : existsb (fun l => (rs_resume_id l =? resume)
                                     && (rs_skill_id l =? skill_id s))
                           (resume_skills d1) = false).
    { apply not_true_is_false. intros Hex. apply existsb_exists in Hex.
      destruct Hex as (l & Hl & Hb). apply andb_prop in Hb. destruct Hb as [B1 B2].
      apply Nat.eqb_eq in B2.
      rewrite Hrs in Hl.
      destruct (Hold l) as (s0 & Hs0 & Eid & Hno).
      { unfold links_of. apply filter_In. split; assumption. }
      assert (s0 = s).
      { apply (same_key_same_row (skills d1)); [apply Hok1 | now apply Hincl | exact Hs|].
        congruence. }
      subst s0. apply Hno. simpl. left. now symmetry. }
    unfold ResumeSkill_create at 1. rewrite Hnew.
    set (row := {| rs_id := next_resume_skill_id d1; rs_resume_id := resume;
                   rs_skill_id := skill_id s;
                   rs_proficiency_level := or_string (sd_proficiency_level sd) "intermediate";
                   rs_years_experience := or_number (sd_years_experience sd) 0 |}).
    set (d2 := set_resume_skills (fun l => l ++ [row]) (S (next_resume_skill_id d1)) d1).
    assert (Hlinks2 : links_of d2 resume = links_of d resume ++ [row]).
    { unfold d2. rewrite links_of_app by reflexivity.
      unfold links_of. now rewrite Hrs. }
    destruct (IH d2) as (d' & new & E' & Hlinks & Hall & Hincl' & Hres').
    + exact Hrest.
    + exact Hok1.
    + intros l Hl. rewrite Hlinks2 in Hl. apply in_app_or in Hl.
      destruct Hl as [Hl|[<-|[]]].
      * destruct (Hold l Hl) as (s0 & Hs0 & Eid & Hno).
        exists s0. split; [apply Hincl, Hs0|]. split; [exact Eid|].
        intros Hin. apply Hno. simpl. now right.
      * exists s. split; [exact Hs|]. split; [reflexivity|]. now rewrite Hlow.
    + exists d', (row :: new).
      split; [exact E'|].
      split; [rewrite Hlinks, Hlinks2, <- app_assoc; reflexivity|].
      split; [|split].
      * constructor; [|exact Hall].
        split; [reflexivity|].
        split; [exists s; split; [apply Hincl', Hs | split; [reflexivity | exact Hname]]|].
        split; reflexivity.
      * eapply incl_tran; [exact Hincl | exact Hincl'].
      * rewrite Hres'. exact Hres1.
Qed.

Lemma filter_none {A} (p : A -> bool) (l : list A) :
  (forall x, In x l -> p x = false) -> filter p l = [].
Proof.
  induction l as [|x l IH]; simpl; intros H; [reflexivity|].
  rewrite (H x (or_introl eq_refl)). apply IH. intros y Hy. apply H. now right.
Qed.

Lemma work_experience_loop (resume : nat) (o : option (list ExperienceData)) (d : DB) :
  exists d',
    match o with
    | Some l => for_of l (WorkExperience_create resume)
    | None => ret tt
    end d = (Ok tt, d')
    /\ resume_skills d' = resume_skills d /\ skills d' = skills d.
Proof.
  destruct o as [l|]; [|exists d; repeat split].
  revert d. induction l as [|x l IH]; intros d; simpl.
  - exists d. repeat split.
  - unfold bind, WorkExperience_create at 1, modify.
    destruct (IH (set_work_experience
                    (fun l0 => l0 ++ [{| we_id := next_work_experience_id d;
                                         we_resume_id := resume;
                                         we_company_name := xd_company_name x;
                                         we_position := xd_position x |}])
                    (S (next_work_experience_id d)) d)) as (d' & E & H1 & H2).
    exists d'. split; [exact E|]. split; assumption.
Qed.

Lemma education_loop (resume : nat) (o : option (list EducationData)) (d : DB) :
  exists d',
    match o with
    | Some l => for_of l (Education_create resume)
    | None => ret tt
    end d = (Ok tt, d')
    /\ resume_skills d' = resume_skills d /\ skills d' = skills d.
Proof.
  destruct o as [l|]; [|exists d; repeat split].
  revert d. induction l as [|x l IH]; intros d; simpl.
  - exists d. repeat split.
  - unfold bind, Education_create at 1, modify.
    destruct (IH (set_education
                    (fun l0 => l0 ++ [{| edu_id := next_education_id d;
                                         edu_resume_id := resume;
                                         edu_institution := ed_institution x;
                                         edu_degree := ed_degree x |}])
                    (S (next_education_id d)) d)) as (d' & E & H1 & H2).
    exists d'. split; [exact E|]. split; assumption.
Qed.

Lemma link_for_same_skills (d d' : DB) (resume : nat) (new : list ResumeSkill)
    (sds : list SkillData) :
  skills d' = skills d ->
  Forall2 (link_for d resume) new sds -> Forall2 (link_for d' resume) new sds.
Proof.
  intros E H. induction H; constructor; auto.
  unfold link_for in *. now rewrite E.
Qed.

Section Handlers.
Variable is_email : string -> bool.
Variables to_number to_date : string -> option Z.
Variables (d : DB) (now : Z) (u : User) (file : option string) (b : Body)
  (sds : list SkillData).
Hypothesis Hvalid :
  Validation.validateResume (D := option Complete) is_email to_number to_date now
    (body_object b) = Next.
Hypothesis Hskills : rb_skills b = Some sds.

(** With names that do not collide, on a store whose keys are as
    AUTO_INCREMENT hands them out, the rows are written as supplied: one
    link per entry, in order.  The reply is the 500 all the same, for the
    final query throws. *)
Lemma create_stores_links_then_fails :
  NoDup (map (fun sd => lower (sd_name sd)) sds) ->
  keys_fresh d ->
  exists d',
    POST_resumes is_email to_number to_date now u file b d
    = (Ok (Failure 500 "Failed to create resume"), d')
    /\ Forall2 (link_for d' (next_resume_id d)) (links_of d' (next_resume_id d)) sds.
Proof.
  intros Hdistinct [K1 K2 K3].
  set (row := {| resume_id := next_resume_id d; resume_user_id := user_id u;
                 resume_title := rb_title b; resume_summary := rb_summary b;
                 resume_experience_years := or_number (rb_experience_years b) 0;
                 resume_file_url := file |}).
  set (d1 := set_resumes (fun l => l ++ [row]) (S (next_resume_id d)) d).
  assert (Hnone : links_of d1 (next_resume_id d) = []).
  { unfold links_of. simpl.
    apply filter_none.
    intros l Hl. specialize (K3 l Hl). apply Nat.eqb_neq. lia. }
  destruct (link_skills_distinct (next_resume_id d) sds d1 Hdistinct)
    as (d2 & new & E2 & Hlinks & Hall & _ & _).
  { split; assumption. }
  { rewrite Hnone. intros l []. }
  rewrite Hnone in Hlinks. simpl in Hlinks.
  destruct (work_experience_loop (next_resume_id d) (rb_work_experience b) d2)
    as (d3 & E3 & R3 & S3).
  destruct (education_loop (next_resume_id d) (rb_education b) d3)
    as (d4 & E4 & R4 & S4).
  unfold POST_resumes. rewrite Hvalid. unfold create_handler, try_catch.
  unfold bind at 1. unfold Resume_create at 1. fold row. fold d1.
  cbn [resume_id row]. rewrite Hskills.
  unfold bind at 1. rewrite E2.
  unfold bind at 1. rewrite E3.
  unfold bind at 1. rewrite E4.
  unfold bind. rewrite findByPk_complete_throws. unfold ret.
  eexists. split; [reflexivity|].
  assert (Hl4 : links_of d4 (next_resume_id d) = new).
  { unfold links_of in *. now rewrite R4, R3. }
  rewrite Hl4. apply (link_for_same_skills d2); [now rewrite S4, S3 | exact Hall].
Qed.

Lemma update_stores_links_then_fails (id : nat) (r : Resume) :
  NoDup (map (fun sd => lower (sd_name sd)) sds) ->
  keys_fresh d ->
  resume_of u id d = Some r ->
  exists d',
    PUT_resume is_email to_number to_date now u id file b d
    = (Ok (Failure 500 "Failed to update resume"), d')
    /\ Forall2 (link_for d' id) (links_of d' id) sds.
Proof.
  unfold resume_of. intros Hdistinct [K1 K2 K3] Hr.
  assert (Hid : resume_id r = id).
  { apply find_some in Hr. destruct Hr as [_ Hr]. apply andb_prop in Hr.
    destruct Hr as [Hr _]. now apply Nat.eqb_eq in Hr. }
  set (d1 := set_resumes
               (map (fun x => if resume_id x =? id then with_update file b x else x))
               (next_resume_id d) d).
  set (d2 := set_resume_skills (filter (fun l => negb (rs_resume_id l =? id)))
                               (next_resume_skill_id d1) d1).
  assert (Hnone : links_of d2 id = []).
  { unfold links_of. simpl.
    apply filter_none.
    intros l Hl. apply filter_In in Hl. destruct Hl as [_ Hl].
    now apply negb_true_iff in Hl. }
  destruct (link_skills_distinct id sds d2 Hdistinct)
    as (d3 & new & E3 & Hlinks & Hall & _ & _).
  { split; assumption. }
  { rewrite Hnone. intros l []. }
  rewrite Hnone in Hlinks. simpl in Hlinks.
  unfold PUT_resume. rewrite Hvalid. unfold update_handler, try_catch.
  unfold bind at 1. unfold Resume_findOne, gets. rewrite Hr.
  unfold bind at 1. unfold Resume_update, modify. rewrite Hid. fold d1.
  rewrite Hskills.
  unfold bind at 1. unfold bind at 1. unfold ResumeSkill_destroy_where, modify. fold d2.
  rewrite E3.
  unfold bind. rewrite findByPk_complete_throws. unfold ret.
  eexists. split; [reflexivity|].
  rewrite Hlinks. exact Hall.
Qed.

(** With two entries of one name the loop stops: the create leaves a
    resume with fewer links than entries. *)
Lemma create_with_collision (before between after : list SkillData)
    (first second : SkillData) :
  sds = before ++ first :: between ++ second :: after ->
  collate_eq (sd_name first) (sd_name second) = true ->
  links_of d (next_resume_id d) = [] ->
  exists d',
    POST_resumes is_email to_number to_date now u file b d
    = (Ok (Failure 500 "Failed to create resume"), d')
    /\ (exists r, In r (resumes d') /\ resume_id r = next_resume_id d
                  /\ resume_user_id r = user_id u)
    /\ List.length (links_of d' (next_resume_id d)) < List.length sds.
Proof.
  intros Hsds Hsame Hnone.
  set (row := {| resume_id := next_resume_id d; resume_user_id := user_id u;
                 resume_title := rb_title b; resume_summary := rb_summary b;
                 resume_experience_years := or_number (rb_experience_years b) 0;
                 resume_file_url := file |}).
  set (d1 := set_resumes (fun l => l ++ [row]) (S (next_resume_id d)) d).
  destruct (collision_stops_the_loop (next_resume_id d) before between after first second
              d1 Hsame) as (e & d2 & E2 & R2 & L2).
  change (links_of d1 (next_resume_id d)) with (links_of d (next_resume_id d)) in L2.
  rewrite Hnone in L2. simpl in L2. rewrite <- Hsds in E2, L2.
  unfold POST_resumes. rewrite Hvalid. unfold create_handler, try_catch.
  unfold bind at 1. unfold Resume_create at 1. fold row. fold d1.
  cbn [resume_id row]. rewrite Hskills.
  unfold bind at 1. rewrite E2. unfold ret.
  exists d2. split; [reflexivity|]. split; [|exact L2].
  exists row. rewrite R2. split; [|split; reflexivity].
  simpl. apply in_or_app. right. now left.
Qed.

(** The update has removed the links the resume had by then. *)
Lemma update_with_collision (before between after : list SkillData)
    (first second : SkillData) (id : nat) (r : Resume) :
  sds = before ++ first :: between ++ second :: after ->
  collate_eq (sd_name first) (sd_name second) = true ->
  resume_of u id d = Some r ->
  exists d',
    PUT_resume is_email to_number to_date now u id file b d
    = (Ok (Failure 500 "Failed to update resume"), d')
    /\ List.length (links_of d' id) < List.length sds.
Proof.
  unfold resume_of. intros Hsds Hsame Hr.
  assert (Hid : resume_id r = id).
  { apply find_some in Hr. destruct Hr as [_ Hr]. apply andb_prop in Hr.
    destruct Hr as [Hr _]. now apply Nat.eqb_eq in Hr. }
  set (d1 := set_resumes
               (map (fun x => if resume_id x =? id then with_update file b x else x))
               (next_resume_id d) d).
  set (d2 := set_resume_skills (filter (fun l => negb (rs_resume_id l =? id)))
                               (next_resume_skill_id d1) d1).
  assert (Hnone : links_of d2 id = []).
  { unfold links_of. simpl.
    apply filter_none.
    intros l Hl. apply filter_In in Hl. destruct Hl as [_ Hl].
    now apply negb_true_iff in Hl. }
  destruct (collision_stops_the_loop id before between after first second d2 Hsame)
    as (e & d3 & E3 & _ & L3).
  rewrite Hnone in L3. simpl in L3. rewrite <- Hsds in E3, L3.
  unfold PUT_resume. rewrite Hvalid. unfold update_handler, try_catch.
  unfold bind at 1. unfold Resume_findOne, gets. rewrite Hr.
  unfold bind at 1. unfold Resume_update, modify. rewrite Hid. fold d1.
  rewrite Hskills.
  unfold bind at 1. unfold bind at 1. unfold ResumeSkill_destroy_where, modify. fold d2.
  rewrite E3. unfold ret.
  exists d3. split; [reflexivity | exact L3].
Qed.

End Handlers.

Lemma db0_keys_fresh : keys_fresh Sample.db0.
Proof.
  constructor; simpl; [constructor | intros s [] | intros l []].
Qed.

(** C2 fails on the code.  routes/resumes.js does not get to register a
    route.  And the handles it chains for create and update, run on a body
    that passes [validateResume] and names one skill twice (in one
    spelling or in two that the column does not tell apart), stop at the
    second of the two entries on the unique key of the links and answer
    500: the create has by then stored the resume, which is left with
    fewer links than entries; the update has removed the links the resume
    had and leaves it with fewer links than entries. *)
Theorem duplicate_skill_names_fail (is_email : string -> bool)
    (to_number to_date : string -> option Z) (now : Z) (d : DB) (u : User)
    (file : option string) (b : Body) (before between after : list SkillData)
    (first second : SkillData) :
  Validation.validateResume (D := option Complete) is_email to_number to_date now
    (body_object b) = Next ->
  rb_skills b = Some (before ++ first :: between ++ second :: after) ->
  collate_eq (sd_name first) (sd_name second) = true ->
  links_of d (next_resume_id d) = [] ->
  Resumes.router
  = Throw (Error "Route.get() requires a callback function but got a [object Object]")
  /\ (exists d',
        POST_resumes is_email to_number to_date now u file b d
        = (Ok (Failure 500 "Failed to create resume"), d')
        /\ (exists r, In r (resumes d') /\ resume_id r = next_resume_id d
                      /\ resume_user_id r = user_id u)
        /\ List.length (links_of d' (next_resume_id d))
           < List.length (before ++ first :: between ++ second :: after))
  /\ (forall id r,
        resume_of u id d = Some r ->
        exists d',
          PUT_resume is_email to_number to_date now u id file b d
          = (Ok (Failure 500 "Failed to update resume"), d')
          /\ List.length (links_of d' id)
             < List.length (before ++ first :: between ++ second :: after)).
Proof.
  intros Hvalid Hskills Hsame Hnone.
  split; [reflexivity|]. split.
  - eapply create_with_collision; eauto.
  - intros id r Hr. eapply update_with_collision; eauto.
Qed.

(** 'React', 'MySQL', 'react': the create stores the resume with the
    links to React and MySQL and answers 500. *)
Lemma duplicate_skill_names_fail_witness :
  exists d',
    POST_resumes Sample.is_email JS.integer_of_string Sample.to_date 0 Sample.applicant7 None
      (Sample.resume_body Sample.react_in_two_cases) Sample.db0
    = (Ok (Failure 500 "Failed to create resume"), d')
    /\ (exists r, In r (resumes d') /\ resume_id r = 4 /\ resume_user_id r = 7)
    /\ List.length (links_of d' 4) < 3.
Proof.
  exact (proj1 (proj2
    (duplicate_skill_names_fail Sample.is_email JS.integer_of_string Sample.to_date 0
       Sample.db0 Sample.applicant7 None (Sample.resume_body Sample.react_in_two_cases)
       [] [Sample.skill "MySQL" None None] []
       (Sample.skill "React" (Some "beginner") None)
       (Sample.skill "react" (Some "expert") None)
       eq_refl eq_refl eq_refl eq_refl))).
Defined.

Example react_in_two_cases_leaves_two_links :
  fst (POST_resumes Sample.is_email JS.integer_of_string Sample.to_date 0 Sample.applicant7
         None (Sample.resume_body Sample.react_in_two_cases) Sample.db0)
  = Ok (Failure 500 "Failed to create resume")
  /\ map rs_skill_id
       (links_of
          (snd (POST_resumes Sample.is_email JS.integer_of_string Sample.to_date 0
                  Sample.applicant7 None (Sample.resume_body Sample.react_in_two_cases)
                  Sample.db0)) 4)
     = [1; 2]
  /\ map skill_name
       (skills
          (snd (POST_resumes Sample.is_email JS.integer_of_string Sample.to_date 0
                  Sample.applicant7 None (Sample.resume_body Sample.react_in_two_cases)
                  Sample.db0)))
     = ["React"; "MySQL"].
Proof. repeat split. Qed.

(** With two skills of two names the rows are as supplied, and the reply
    is still the 500 of the final query. *)
Example two_skills_stored_then_500 :
  exists d',
    POST_resumes Sample.is_email JS.integer_of_string Sample.to_date 0 Sample.applicant7 None
      (Sample.resume_body Sample.two_skills) Sample.db0
    = (Ok (Failure 500 "Failed to create resume"), d')
    /\ Forall2 (link_for d' 4) (links_of d' 4) Sample.two_skills.
Proof.
  refine (create_stores_links_then_fails Sample.is_email JS.integer_of_string Sample.to_date
            Sample.db0 0 Sample.applicant7 None (Sample.resume_body Sample.two_skills)
            Sample.two_skills eq_refl eq_refl _ db0_keys_fresh).
  simpl. constructor; [|constructor; [|constructor]]; simpl.
  - intros [H|[]]. discriminate H.
  - intros [].
Qed.

End ResumesProofs.

(* ------------------------------------------------------------------ *)
(** ** Invariants of every request: proofs *)

Module KeptProofs.
Import JS Schema Eff Http Props MoreProps Invariant.

Lemma cover_letter_keeps_keys (c : option string) (a : Application) :
  app_id (Applications.with_cover_letter c a) = app_id a
  /\ app_job_id (Applications.with_cover_letter c a) = app_job_id a
  /\ app_applicant_id (Applications.with_cover_letter c a) = app_applicant_id a.
Proof. destruct c; repeat split. Qed.

Lemma status_keeps_keys (s : string) (n : option string) (a : Application) :
  app_id (Applications.with_status s n a) = app_id a
  /\ app_job_id (Applications.with_status s n a) = app_job_id a
  /\ app_applicant_id (Applications.with_status s n a) = app_applicant_id a.
Proof. repeat split. Qed.

Section Generic.
Variable P : DB -> Prop.
Hypothesis HP : kept_by_statements P.
Variable is_email : string -> bool.
Variable to_number : string -> option Z.
Variable to_date : string -> option Z.
Variable JSON_parse : string -> option value.

Local Abbreviation PW := (fun w : AI.World => P (AI.db w)).

Lemma K_create j a r c s : keeps P (Applications.Application_create j a r c s).
Proof. apply HP. Qed.
Lemma K_cover id c :
  keeps P (Applications.Application_update id (Applications.with_cover_letter c)).
Proof. apply HP. apply cover_letter_keeps_keys. Qed.
Lemma K_status id s n :
  keeps P (Applications.Application_update id (Applications.with_status s n)).
Proof. apply HP. apply status_keeps_keys. Qed.
Lemma K_destroy id : keeps P (Applications.Application_destroy id).
Proof. apply HP. Qed.
Lemma K_job_update_body id body :
  keeps P (Jobs.Job_update id (Jobs.with_body to_number to_date body)).
Proof. apply HP. reflexivity. Qed.
Lemma K_job_toggle id b : keeps P (Jobs.Job_update id (Jobs.with_is_active b)).
Proof. apply HP. reflexivity. Qed.
Lemma K_job_destroy id : keeps P (Jobs.Job_destroy id).
Proof. apply HP. Qed.
Lemma K_resume_create u t s e f : keeps P (Resumes.Resume_create u t s e f).
Proof. apply HP. Qed.
Lemma K_resume_update id file b :
  keeps P (Resumes.Resume_update id (Resumes.with_update file b)).
Proof. apply HP. reflexivity. Qed.
Lemma K_resume_destroy id : keeps P (Resumes.Resume_destroy id).
Proof. apply HP. Qed.
Lemma K_skill n c : keeps P (Resumes.Skill_findOrCreate n c).
Proof. apply HP. Qed.
Lemma K_link r s p y : keeps P (Resumes.ResumeSkill_create r s p y).
Proof. apply HP. Qed.
Lemma K_unlink r : keeps P (Resumes.ResumeSkill_destroy_where r).
Proof. apply HP. Qed.
Lemma K_we r x : keeps P (Resumes.WorkExperience_create r x).
Proof. apply HP. Qed.
Lemma K_edu r x : keeps P (Resumes.Education_create r x).
Proof. apply HP. Qed.
Lemma K_analysis r j t s i : keeps PW (AI.liftDB (AI.AIAnalysis_create r j t s i)).
Proof. apply (keeps_liftDB P). apply HP. Qed.
Lemma K_prop k v : keeps PW (AI.prop k v).
Proof. unfold AI.prop. destruct v; (apply keeps_ret || apply keeps_throw). Qed.
Lemma K_parse text : keeps PW (AI.parse JSON_parse text).
Proof. unfold AI.parse. destruct (JSON_parse text); (apply keeps_ret || apply keeps_throw). Qed.
Lemma K_find_resume include u id : keeps PW (AI.find_resume include u id).
Proof.
  unfold AI.find_resume, Orm.including. apply (keeps_liftDB P).
  destruct (Orm.first_unresolved _ _); [apply keeps_throw | apply keeps_gets].
Qed.
Lemma K_map_matches jobs ms : keeps PW (AI.map_matches to_number jobs ms).
Proof.
  induction ms as [|m ms IH]; simpl.
  - apply keeps_ret.
  - apply keeps_bind; [apply K_prop|]. intros ji.
    destruct (AI.job_at to_number jobs ji); [|apply keeps_throw].
    apply keeps_bind; [exact IH|]. intros tail. apply keeps_ret.
Qed.

Ltac statement :=
  first [ apply K_create | apply K_cover | apply K_status | apply K_destroy
        | apply K_job_update_body | apply K_job_toggle | apply K_job_destroy
        | apply K_resume_create | apply K_resume_update | apply K_resume_destroy
        | apply K_skill | apply K_link | apply K_unlink | apply K_we | apply K_edu
        | apply K_analysis | apply K_prop | apply K_parse | apply K_find_resume
        | apply K_map_matches
        | apply (keeps_openai P) | apply (keeps_liftDB P) ].

Ltac walk := repeat first [ statement | keeps_step ].

Lemma handle_keeps (r : Server.Request) (d : DB) :
  P d -> P (Server.handle is_email to_number to_date JSON_parse r d).
Proof.
  intros H. destruct r; simpl.
  - revert d H.
    change (keeps P (Applications.POST_applications is_email to_number to_date now user b)).
    unfold Applications.POST_applications, Applications.create_handler,
      Applications.Job_findOne, Applications.Resume_findOne,
      Applications.Application_findByPk, Applications.Application_findOne. walk.
  - revert d H. change (keeps P (Applications.PUT_application user id cover_letter)).
    unfold Applications.PUT_application, Applications.Application_findByPk,
      Applications.Application_findOne. walk.
  - revert d H. change (keeps P (Applications.DELETE_application user id)).
    unfold Applications.DELETE_application, Applications.Application_findOne. walk.
  - revert d H. change (keeps P (Applications.PUT_application_status user id status notes)).
    unfold Applications.PUT_application_status, Applications.status_handler,
      Applications.Application_findByPk, Applications.Application_findOne. walk.
  - revert d H.
    change (keeps P (Jobs.POST_jobs is_email to_number to_date now user body)).
    unfold Jobs.POST_jobs, Jobs.create_handler, Jobs.Job_findByPk. walk.
    apply HP. reflexivity.
  - revert d H.
    change (keeps P (Jobs.PUT_job is_email to_number to_date now user id body)).
    unfold Jobs.PUT_job, Jobs.update_handler, Jobs.Job_findByPk, Jobs.Job_findOne. walk.
  - revert d H. change (keeps P (Jobs.DELETE_job user id)).
    unfold Jobs.DELETE_job, Jobs.delete_handler, Jobs.Job_findOne. walk.
  - revert d H. change (keeps P (Jobs.POST_toggle_status user id)).
    unfold Jobs.POST_toggle_status, Jobs.toggle_handler, Jobs.Job_findOne. walk.
  - revert d H.
    change (keeps P (Resumes.POST_resumes is_email to_number to_date now user file b)).
    unfold Resumes.POST_resumes, Resumes.create_handler, Resumes.Resume_findByPk_complete,
      Orm.including, Resumes.link_skills. walk.
  - revert d H.
    change (keeps P (Resumes.PUT_resume is_email to_number to_date now user id file b)).
    unfold Resumes.PUT_resume, Resumes.update_handler, Resumes.Resume_findByPk_complete,
      Orm.including, Resumes.Resume_findOne, Resumes.link_skills. walk.
  - revert d H. change (keeps P (Resumes.DELETE_resume user id)).
    unfold Resumes.DELETE_resume, Resumes.Resume_findOne. walk.
  - assert (K : keeps PW (AI.analyze_resume JSON_parse user resume))
      by (unfold AI.analyze_resume, AI.analyze_found; walk).
    apply (K {| AI.db := d; AI.service := service |}), H.
  - assert (K : keeps PW (AI.match_jobs JSON_parse to_number user resume))
      by (unfold AI.match_jobs, AI.match_found; walk).
    apply (K {| AI.db := d; AI.service := service |}), H.
  - assert (K : keeps PW (AI.skill_gap_analysis JSON_parse user resume role industry))
      by (unfold AI.skill_gap_analysis, AI.skill_gap_found; walk).
    apply (K {| AI.db := d; AI.service := service |}), H.
  - assert (K : keeps PW (AI.improve_resume JSON_parse user resume))
      by (unfold AI.improve_resume, AI.improve_found; walk).
    apply (K {| AI.db := d; AI.service := service |}), H.
Qed.

Lemma serve_keeps (rs : list Server.Request) (d : DB) :
  P d -> P (Server.serve is_email to_number to_date JSON_parse rs d).
Proof.
  revert d. induction rs as [|r rs IH]; intros d H; simpl; auto.
  apply IH, handle_keeps, H.
Qed.

End Generic.

(** *** Three invariants *)

Lemma NoDup_map_filter {Row Key} (key : Row -> Key) (keep : Row -> bool)
    (rows : list Row) (distinct : NoDup (map key rows)) :
  NoDup (map key (filter keep rows)).
Proof.
  induction rows as [|x rows IH]; simpl; [constructor|].
  simpl in distinct. inversion distinct as [|? ? Hx Hl]; subst.
  destruct (keep x); simpl; auto. constructor; auto.
  intros Hin. apply Hx. apply in_map_iff in Hin. destruct Hin as (y & E & Hy).
  apply filter_In in Hy. rewrite <- E. apply in_map, Hy.
Qed.

Lemma map_rewritten {A B} (f : A -> B) (c : A -> bool) (g : A -> A) (l : list A) :
  (forall a, f (g a) = f a) ->
  map f (map (fun a => if c a then g a else a) l) = map f l.
Proof.
  intros Hg. induction l as [|x l IH]; simpl; [reflexivity|].
  rewrite IH. destruct (c x); [now rewrite Hg | reflexivity].
Qed.

Lemma NoDup_map_snoc {A B} (f : A -> B) (l : list A) (x : A) :
  NoDup (map f l) -> ~ In (f x) (map f l) -> NoDup (map f (l ++ [x])).
Proof.
  intros Hl Hx. rewrite map_app. simpl.
  apply NoDup_app; [exact Hl | repeat constructor; intros [] |].
  intros b Hb [<-|[]]. exact (Hx Hb).
Qed.

Lemma keyed_snoc {A} (key : A -> nat) (rows : list A) (next : nat) (x : A) :
  key x = next -> keyed key rows next -> keyed key (rows ++ [x]) (S next).
Proof.
  intros E [Hnd Hlt]. split.
  - apply NoDup_map_snoc; [exact Hnd|]. intros Hin.
    apply in_map_iff in Hin. destruct Hin as (y & Ey & Hy).
    specialize (Hlt y Hy). lia.
  - intros y Hy. apply in_app_or in Hy. destruct Hy as [Hy|[<-|[]]].
    + specialize (Hlt y Hy). lia.
    + lia.
Qed.

Lemma keyed_filter {A} (key : A -> nat) (p : A -> bool) (rows : list A) (next : nat) :
  keyed key rows next -> keyed key (filter p rows) next.
Proof.
  intros [Hnd Hlt]. split; [now apply NoDup_map_filter|].
  intros x Hx. apply filter_In in Hx. apply Hlt, Hx.
Qed.

Lemma keyed_rewritten {A} (key : A -> nat) (c : A -> bool) (g : A -> A) (rows : list A)
    (next : nat) :
  (forall a, key (g a) = key a) ->
  keyed key rows next -> keyed key (map (fun a => if c a then g a else a) rows) next.
Proof.
  intros Hg [Hnd Hlt]. split; [now rewrite map_rewritten|].
  intros x Hx. apply in_map_iff in Hx. destruct Hx as (y & <- & Hy).
  destruct (c y); [rewrite Hg|]; auto.
Qed.

Lemma unique_pairs_kept : kept_by_statements unique_pairs.
Proof.
  constructor; unfold unique_pairs.
  - intros j a r c s d H. unfold Applications.Application_create.
    destruct (existsb _ _) eqn:E; [exact H|]. simpl.
    apply NoDup_map_snoc; [exact H|]. simpl. intros Hin.
    apply in_map_iff in Hin. destruct Hin as (x & Ex & Hx).
    inversion Ex; subst.
    assert (existsb (fun a0 => (app_job_id a0 =? app_job_id x)
                               && (app_applicant_id a0 =? app_applicant_id x))
                    (applications d) = true).
    { apply existsb_exists. exists x. split; [exact Hx|]. now rewrite !Nat.eqb_refl. }
    congruence.
  - intros id f Hf d H. simpl. rewrite map_rewritten; [exact H|].
    intros a. destruct (Hf a) as (_ & -> & ->). reflexivity.
  - intros id d H. simpl. now apply NoDup_map_filter.
  - intros mk _ d H. exact H.
  - intros id f _ d H. exact H.
  - intros id d H. simpl. now apply NoDup_map_filter.
  - intros u t s e f d H. exact H.
  - intros id f _ d H. exact H.
  - intros id d H. simpl. now apply NoDup_map_filter.
  - intros n c d H. unfold Resumes.Skill_findOrCreate. destruct (find _ _); exact H.
  - intros r s p y d H. unfold Resumes.ResumeSkill_create. destruct (existsb _ _); exact H.
  - intros r d H. exact H.
  - intros r x d H. exact H.
  - intros r x d H. exact H.
  - intros r j t s i d H. exact H.
Qed.

Lemma taxonomy_unique_kept : kept_by_statements taxonomy_unique.
Proof.
  constructor; unfold taxonomy_unique, keeps; try (intros; assumption).
  - intros j a r c s d H. unfold Applications.Application_create.
    destruct (existsb _ _); exact H.
  - intros n c d H. unfold Resumes.Skill_findOrCreate.
    destruct (find _ _) eqn:F; [exact H|]. simpl.
    apply NoDup_map_snoc; [exact H|]. simpl. intros Hin.
    apply in_map_iff in Hin. destruct Hin as (x & Ex & Hx).
    apply (find_none _ _ F) in Hx. cbv beta in Hx. rewrite Ex in Hx.
    unfold collate_eq in Hx. rewrite String.eqb_refl in Hx. discriminate.
  - intros r s p y d H. unfold Resumes.ResumeSkill_create. destruct (existsb _ _); exact H.
Qed.

Lemma well_keyed_kept : kept_by_statements well_keyed.
Proof.
  constructor.
  - intros j a r c s d [H1 H2 H3 H4]. unfold Applications.Application_create.
    destruct (existsb _ _); [now constructor|].
    constructor; simpl; auto. now apply keyed_snoc.
  - intros id f Hf d [H1 H2 H3 H4]. constructor; simpl; auto.
    apply keyed_rewritten; [|exact H1]. intros a. apply Hf.
  - intros id d [H1 H2 H3 H4]. constructor; simpl; auto. now apply keyed_filter.
  - intros mk Hmk d [H1 H2 H3 H4]. constructor; simpl; auto.
    apply keyed_snoc; [apply Hmk | exact H2].
  - intros id f Hf d [H1 H2 H3 H4]. constructor; simpl; auto.
    now apply keyed_rewritten.
  - intros id d [H1 H2 H3 H4]. constructor; simpl; auto; now apply keyed_filter.
  - intros u t s e f d [H1 H2 H3 H4]. constructor; simpl; auto. now apply keyed_snoc.
  - intros id f Hf d [H1 H2 H3 H4]. constructor; simpl; auto.
    now apply keyed_rewritten.
  - intros id d [H1 H2 H3 H4]. constructor; simpl; auto; now apply keyed_filter.
  - intros n c d [H1 H2 H3 H4]. unfold Resumes.Skill_findOrCreate.
    destruct (find _ _); [now constructor|].
    constructor; simpl; auto. now apply keyed_snoc.
  - intros r s p y d [H1 H2 H3 H4]. unfold Resumes.ResumeSkill_create.
    destruct (existsb _ _); now constructor.
  - intros r d [H1 H2 H3 H4]. now constructor.
  - intros r x d [H1 H2 H3 H4]. now constructor.
  - intros r x d [H1 H2 H3 H4]. now constructor.
  - intros r j t s i d [H1 H2 H3 H4]. now constructor.
Qed.

(** X1.  Whatever requests are served, no two applications are on file
    for one (job, applicant) pair, if that held before. *)
Theorem pairs_stay_unique (is_email : string -> bool)
    (to_number to_date : string -> option Z) (JSON_parse : string -> option value)
    (rs : list Server.Request) (d : DB) :
  unique_pairs d ->
  unique_pairs (Server.serve is_email to_number to_date JSON_parse rs d).
Proof. apply serve_keeps, unique_pairs_kept. Qed.

Lemma pairs_stay_unique_witness :
  unique_pairs
    (Server.serve Sample.is_email JS.integer_of_string Sample.to_date Sample.JSON_parse
       Sample.two_requests Sample.db0).
Proof.
  apply (pairs_stay_unique Sample.is_email JS.integer_of_string Sample.to_date
           Sample.JSON_parse Sample.two_requests Sample.db0).
  constructor.
Defined.

(** X2.  Whatever requests are served, the keys of applications, jobs,
    resumes and skills stay distinct and below the AUTO_INCREMENT counter
    of their table: no key is handed out twice. *)
Theorem keys_stay_fresh (is_email : string -> bool)
    (to_number to_date : string -> option Z) (JSON_parse : string -> option value)
    (rs : list Server.Request) (d : DB) :
  well_keyed d ->
  well_keyed (Server.serve is_email to_number to_date JSON_parse rs d).
Proof. apply serve_keeps, well_keyed_kept. Qed.

Lemma db0_well_keyed : well_keyed Sample.db0.
Proof.
  constructor;
    (split;
     [ simpl; repeat (constructor; [simpl; tauto|]); constructor
     | simpl; intros x H; repeat (destruct H as [<-|H]; [simpl; lia|]); destruct H ]).
Qed.

Lemma keys_stay_fresh_witness :
  well_keyed
    (Server.serve Sample.is_email JS.integer_of_string Sample.to_date Sample.JSON_parse
       Sample.two_requests Sample.db0).
Proof.
  apply (keys_stay_fresh Sample.is_email JS.integer_of_string Sample.to_date
           Sample.JSON_parse Sample.two_requests Sample.db0).
  exact db0_well_keyed.
Defined.

(** X3.  Whatever requests are served, the taxonomy never holds two skills
    of one name: [Skill.findOrCreate] is the only writer and creates a
    skill only when the name is not there. *)
Theorem taxonomy_stays_unique (is_email : string -> bool)
    (to_number to_date : string -> option Z) (JSON_parse : string -> option value)
    (rs : list Server.Request) (d : DB) :
  taxonomy_unique d ->
  taxonomy_unique (Server.serve is_email to_number to_date JSON_parse rs d).
Proof. apply serve_keeps, taxonomy_unique_kept. Qed.

Lemma taxonomy_stays_unique_witness :
  taxonomy_unique
    (Server.serve Sample.is_email JS.integer_of_string Sample.to_date Sample.JSON_parse
       [Server.PostResume 0 Sample.applicant7 None (Sample.resume_body Sample.react_twice)]
       Sample.db0).
Proof.
  apply (taxonomy_stays_unique Sample.is_email JS.integer_of_string Sample.to_date
           Sample.JSON_parse
           [Server.PostResume 0 Sample.applicant7 None (Sample.resume_body Sample.react_twice)]
           Sample.db0).
  constructor.
Defined.

End KeptProofs.

(* ------------------------------------------------------------------ *)
(** ** Referential integrity of every request: proofs *)

Module IntegrityProofs.
Import JS Schema Eff Http Props MoreProps Invariant.

(** *** Postconditions *)

Lemma triple_ret {S A} (P : S -> Prop) (E : S -> Prop) (a : A) :
  triple P (ret a) (fun _ => P) E.
Proof. intros s H. exact H. Qed.

Lemma triple_throw {S A} (P : S -> Prop) (Q : A -> S -> Prop) (e : exn) :
  triple P (throw (A := A) e) Q P.
Proof. intros s H. exact H. Qed.

Lemma triple_bind {S A B} (P : S -> Prop) (m : M S A) (k : A -> M S B)
    (Q : A -> S -> Prop) (R : B -> S -> Prop) (E : S -> Prop) :
  triple P m Q E -> (forall a, triple (Q a) (k a) R E) -> triple P (bind m k) R E.
Proof.
  intros Hm Hk s H. unfold bind. specialize (Hm s H).
  destruct (m s) as [[a|e] s']; [apply Hk, Hm | exact Hm].
Qed.

Lemma triple_try_catch {S A} (P : S -> Prop) (m : M S A) (h : exn -> M S A)
    (Q : A -> S -> Prop) (E E' : S -> Prop) :
  triple P m Q E -> (forall e, triple E (h e) Q E') -> triple P (try_catch m h) Q E'.
Proof.
  intros Hm Hh s H. unfold try_catch. specialize (Hm s H).
  destruct (m s) as [[a|e] s']; [exact Hm | apply Hh, Hm].
Qed.

Lemma triple_weaken {S A} (P P' : S -> Prop) (m : M S A) (Q Q' : A -> S -> Prop)
    (E E' : S -> Prop) :
  triple P m Q E -> (forall s, P' s -> P s) -> (forall a s, Q a s -> Q' a s) ->
  (forall s, E s -> E' s) -> triple P' m Q' E'.
Proof.
  intros Hm HP HQ HE s H. specialize (Hm s (HP s H)).
  destruct (m s) as [[a|e] s']; auto.
Qed.

Lemma keeps_triple {S A} (I : S -> Prop) (m : M S A) :
  keeps I m -> triple I m (fun _ => I) I.
Proof. intros Hm s H. specialize (Hm s H). destruct (m s) as [[a|e] s']; exact Hm. Qed.

Lemma triple_keeps {S A} (I : S -> Prop) (m : M S A) :
  triple I m (fun _ => I) I -> keeps I m.
Proof. intros Hm s H. specialize (Hm s H). destruct (m s) as [[a|e] s']; exact Hm. Qed.

Lemma triple_ends {S A} (P Q : S -> Prop) (m : M S A) :
  triple P m (fun _ => Q) Q -> forall s, P s -> Q (snd (m s)).
Proof. intros Hm s H. specialize (Hm s H). destruct (m s) as [[a|e] s']; exact Hm. Qed.

Lemma triple_gets {S A} (P : S -> Prop) (E : S -> Prop) (f : S -> A) :
  triple P (gets f) (fun a s => P s /\ a = f s) E.
Proof. intros s H. split; [exact H | reflexivity]. Qed.

Lemma firstn_In {A} (n : nat) (l : list A) (x : A) : In x (firstn n l) -> In x l.
Proof.
  intros H. rewrite <- (firstn_skipn n l). apply in_or_app. now left.
Qed.

Lemma keeps_for_of_in {S A} (P : S -> Prop) (xs : list A) (f : A -> M S unit) :
  (forall x, In x xs -> keeps P (f x)) -> keeps P (for_of xs f).
Proof.
  induction xs as [|x xs IH]; intros Hf; simpl; [apply keeps_ret|].
  apply keeps_bind; [apply Hf; now left|]. intros _. apply IH.
  intros y Hy. apply Hf. now right.
Qed.

(** *** Rows added, rewritten, removed *)

Lemma more_users (d d' : DB) (id : nat) :
  incl (users d) (users d') -> has_user d id -> has_user d' id.
Proof. intros Hi (u & Hu & E). exists u. auto. Qed.

Lemma more_skills (d d' : DB) (id : nat) :
  incl (skills d) (skills d') -> has_skill d id -> has_skill d' id.
Proof. intros Hi (s & Hs & E). exists s. auto. Qed.

Lemma more_resumes (d d' : DB) (id : nat) :
  (forall r, In r (resumes d) -> exists r', In r' (resumes d') /\ resume_id r' = resume_id r) ->
  has_resume d id -> has_resume d' id.
Proof.
  intros Hi (r & Hr & E). destruct (Hi r Hr) as (r' & Hr' & E'). exists r'.
  split; [exact Hr' | congruence].
Qed.

Lemma more_jobs (d d' : DB) (id : nat) :
  (forall j, In j (jobs d) -> exists j', In j' (jobs d') /\ job_id j' = job_id j) ->
  has_job d id -> has_job d' id.
Proof.
  intros Hi (j & Hj & E). destruct (Hi j Hj) as (j' & Hj' & E'). exists j'.
  split; [exact Hj' | congruence].
Qed.

Lemma add_application (d : DB) (row : Application) (n : nat) :
  has_job d (app_job_id row) -> has_user d (app_applicant_id row) ->
  has_resume d (app_resume_id row) ->
  referential_integrity d ->
  referential_integrity (set_applications (fun l => l ++ [row]) n d).
Proof.
  intros Hj Hu Hr [H1 H2 H3 H4 H5 H6 H7]. constructor; simpl; auto.
  intros a Ha. apply in_app_or in Ha. destruct Ha as [Ha|[<-|[]]].
  - exact (H6 a Ha).
  - repeat split; assumption.
Qed.

Lemma rewrite_applications (d : DB) (c : Application -> bool)
    (g : Application -> Application) (n : nat) :
  (forall a, app_job_id (g a) = app_job_id a /\ app_applicant_id (g a) = app_applicant_id a
             /\ app_resume_id (g a) = app_resume_id a) ->
  referential_integrity d ->
  referential_integrity (set_applications (map (fun a => if c a then g a else a)) n d).
Proof.
  intros Hg [H1 H2 H3 H4 H5 H6 H7]. constructor; simpl; auto.
  intros a Ha. apply in_map_iff in Ha. destruct Ha as (x & <- & Hx).
  destruct (c x); [|exact (H6 x Hx)]. destruct (Hg x) as (-> & -> & ->). exact (H6 x Hx).
Qed.

Lemma add_job (d : DB) (row : Job) (n : nat) :
  has_user d (job_employer_id row) ->
  referential_integrity d ->
  referential_integrity (set_jobs (fun l => l ++ [row]) n d).
Proof.
  intros Hu [H1 H2 H3 H4 H5 H6 H7].
  assert (Hm : forall k, has_job d k ->
                         has_job (set_jobs (fun l => l ++ [row]) n d) k).
  { intros k (j & Hj & E). exists j. split; [simpl; apply in_or_app; now left | exact E]. }
  constructor; simpl; auto.
  - intros j Hj. apply in_app_or in Hj.
    destruct Hj as [Hj|[<-|[]]]; [exact (H5 j Hj) | exact Hu].
  - intros a Ha. destruct (H6 a Ha) as (A & B & C).
    split; [exact (Hm _ A) | split; [exact B | exact C]].
  - intros x Hx. destruct (H7 x Hx) as [A B]. split; [exact A|].
    destruct (ai_job_id x); simpl in *; [exact (Hm _ B) | exact I].
Qed.

Lemma rewrite_jobs (d : DB) (c : Job -> bool) (g : Job -> Job) (n : nat) :
  (forall j, job_id (g j) = job_id j /\ job_employer_id (g j) = job_employer_id j) ->
  referential_integrity d ->
  referential_integrity (set_jobs (map (fun j => if c j then g j else j)) n d).
Proof.
  intros Hg [H1 H2 H3 H4 H5 H6 H7].
  assert (Hm : forall k, has_job d k ->
                 has_job (set_jobs (map (fun j => if c j then g j else j)) n d) k).
  { intros k (j & Hj & E). exists (if c j then g j else j).
    split; [exact (in_map (fun j => if c j then g j else j) (jobs d) j Hj)|].
    destruct (c j); [|exact E].
    destruct (Hg j) as [-> _]. exact E. }
  constructor; simpl; auto.
  - intros j Hj. apply in_map_iff in Hj. destruct Hj as (x & <- & Hx).
    destruct (c x); [|exact (H5 x Hx)]. destruct (Hg x) as [_ ->]. exact (H5 x Hx).
  - intros a Ha. destruct (H6 a Ha) as (A & B & C).
    split; [exact (Hm _ A) | split; [exact B | exact C]].
  - intros x Hx. destruct (H7 x Hx) as [A B]. split; [exact A|].
    destruct (ai_job_id x); simpl in *; [exact (Hm _ B) | exact I].
Qed.

Lemma add_resume (d : DB) (row : Resume) (n : nat) :
  has_user d (resume_user_id row) ->
  referential_integrity d ->
  referential_integrity (set_resumes (fun l => l ++ [row]) n d).
Proof.
  intros Hu [H1 H2 H3 H4 H5 H6 H7].
  assert (Hm : forall k, has_resume d k ->
                         has_resume (set_resumes (fun l => l ++ [row]) n d) k).
  { intros k (r & Hr & E). exists r. split; [simpl; apply in_or_app; now left | exact E]. }
  constructor; simpl; auto.
  - intros r Hr. apply in_app_or in Hr.
    destruct Hr as [Hr|[<-|[]]]; [exact (H1 r Hr) | exact Hu].
  - intros l Hl. destruct (H2 l Hl) as [A B]. split; [exact (Hm _ A) | exact B].
  - intros a Ha. destruct (H6 a Ha) as (A & B & C).
    split; [exact A | split; [exact B | exact (Hm _ C)]].
  - intros x Hx. destruct (H7 x Hx) as [A B]. split; [|exact B].
    destruct (ai_resume_id x); simpl in *; [exact (Hm _ A) | exact I].
Qed.

Lemma rewrite_resumes (d : DB) (c : Resume -> bool) (g : Resume -> Resume) (n : nat) :
  (forall r, resume_id (g r) = resume_id r /\ resume_user_id (g r) = resume_user_id r) ->
  referential_integrity d ->
  referential_integrity (set_resumes (map (fun r => if c r then g r else r)) n d).
Proof.
  intros Hg [H1 H2 H3 H4 H5 H6 H7].
  assert (Hm : forall k, has_resume d k ->
                 has_resume (set_resumes (map (fun r => if c r then g r else r)) n d) k).
  { intros k (r & Hr & E). exists (if c r then g r else r).
    split; [exact (in_map (fun r => if c r then g r else r) (resumes d) r Hr)|].
    destruct (c r); [|exact E].
    destruct (Hg r) as [-> _]. exact E. }
  constructor; simpl; auto.
  - intros r Hr. apply in_map_iff in Hr. destruct Hr as (x & <- & Hx).
    destruct (c x); [|exact (H1 x Hx)]. destruct (Hg x) as [_ ->]. exact (H1 x Hx).
  - intros l Hl. destruct (H2 l Hl) as [A B]. split; [exact (Hm _ A) | exact B].
  - intros a Ha. destruct (H6 a Ha) as (A & B & C).
    split; [exact A | split; [exact B | exact (Hm _ C)]].
  - intros x Hx. destruct (H7 x Hx) as [A B]. split; [|exact B].
    destruct (ai_resume_id x); simpl in *; [exact (Hm _ A) | exact I].
Qed.

Lemma add_skill (d : DB) (row : Skill) (n : nat) :
  referential_integrity d ->
  referential_integrity (set_skills (fun l => l ++ [row]) n d).
Proof.
  intros [H1 H2 H3 H4 H5 H6 H7]. constructor; simpl; auto.
  intros l Hl. destruct (H2 l Hl) as [A (s & Hs & E)]. split; [exact A|].
  exists s. split; [simpl; apply in_or_app; now left | exact E].
Qed.

Lemma add_link (d : DB) (row : ResumeSkill) (n : nat) :
  has_resume d (rs_resume_id row) -> has_skill d (rs_skill_id row) ->
  referential_integrity d ->
  referential_integrity (set_resume_skills (fun l => l ++ [row]) n d).
Proof.
  intros Hr Hs [H1 H2 H3 H4 H5 H6 H7]. constructor; simpl; auto.
  intros l Hl. apply in_app_or in Hl. destruct Hl as [Hl|[<-|[]]].
  - exact (H2 l Hl).
  - split; assumption.
Qed.

Lemma remove_links (d : DB) (p : ResumeSkill -> bool) (n : nat) :
  referential_integrity d ->
  referential_integrity (set_resume_skills (filter p) n d).
Proof.
  intros [H1 H2 H3 H4 H5 H6 H7]. constructor; simpl; auto.
  intros l Hl. apply filter_In in Hl. apply H2, Hl.
Qed.

Lemma add_work_experience (d : DB) (row : WorkExperience) (n : nat) :
  has_resume d (we_resume_id row) ->
  referential_integrity d ->
  referential_integrity (set_work_experience (fun l => l ++ [row]) n d).
Proof.
  intros Hr [H1 H2 H3 H4 H5 H6 H7]. constructor; simpl; auto.
  intros w Hw. apply in_app_or in Hw.
  destruct Hw as [Hw|[<-|[]]]; [exact (H3 w Hw) | exact Hr].
Qed.

Lemma add_education (d : DB) (row : Education) (n : nat) :
  has_resume d (edu_resume_id row) ->
  referential_integrity d ->
  referential_integrity (set_education (fun l => l ++ [row]) n d).
Proof.
  intros Hr [H1 H2 H3 H4 H5 H6 H7]. constructor; simpl; auto.
  intros e He. apply in_app_or in He.
  destruct He as [He|[<-|[]]]; [exact (H4 e He) | exact Hr].
Qed.

Lemma add_analysis (d : DB) (row : AIAnalysis) (n : nat) :
  if_set (has_resume d) (ai_resume_id row) -> if_set (has_job d) (ai_job_id row) ->
  referential_integrity d ->
  referential_integrity (set_ai_analysis (fun l => l ++ [row]) n d).
Proof.
  intros Hr Hj [H1 H2 H3 H4 H5 H6 H7]. constructor; simpl; auto.
  intros x Hx. apply in_app_or in Hx. destruct Hx as [Hx|[<-|[]]].
  - exact (H7 x Hx).
  - split; assumption.
Qed.

(** *** The statements on a store in which the user is a row *)

Section User.
Variable u : User.
Variable is_email : string -> bool.
Variable to_number : string -> option Z.
Variable to_date : string -> option Z.
Variable JSON_parse : string -> option value.

Local Abbreviation PU := (integrity_with u).
Local Abbreviation PW := (fun w : AI.World => integrity_with u (AI.db w)).

Lemma ri_cover id c :
  keeps PU (Applications.Application_update id (Applications.with_cover_letter c)).
Proof.
  apply keeps_modify. intros d [H Hu]. split; [|exact Hu].
  apply (rewrite_applications d (fun a => app_id a =? id)); [|exact H].
  intros a. destruct c; repeat split.
Qed.

Lemma ri_status id s n :
  keeps PU (Applications.Application_update id (Applications.with_status s n)).
Proof.
  apply keeps_modify. intros d [H Hu]. split; [|exact Hu].
  apply (rewrite_applications d (fun a => app_id a =? id)); [|exact H].
  intros a. repeat split.
Qed.

Lemma ri_destroy id : keeps PU (Applications.Application_destroy id).
Proof.
  apply keeps_modify. intros d [H Hu]. split; [|exact Hu].
  now apply CascadeProofs.delete_application_integrity.
Qed.

Lemma ri_job_update id body :
  keeps PU (Jobs.Job_update id (Jobs.with_body to_number to_date body)).
Proof.
  apply keeps_modify. intros d [H Hu]. split; [|exact Hu].
  apply (rewrite_jobs d (fun j => job_id j =? id)); [|exact H].
  intros j. split; reflexivity.
Qed.

Lemma ri_job_toggle id b : keeps PU (Jobs.Job_update id (Jobs.with_is_active b)).
Proof.
  apply keeps_modify. intros d [H Hu]. split; [|exact Hu].
  apply (rewrite_jobs d (fun j => job_id j =? id)); [|exact H].
  intros j. split; reflexivity.
Qed.

Lemma ri_job_destroy id : keeps PU (Jobs.Job_destroy id).
Proof.
  apply keeps_modify. intros d [H Hu]. split; [|exact Hu].
  now apply CascadeProofs.delete_job_integrity.
Qed.

Lemma ri_resume_destroy id : keeps PU (Resumes.Resume_destroy id).
Proof.
  apply keeps_modify. intros d [H Hu]. split; [|exact Hu].
  now apply CascadeProofs.delete_resume_integrity.
Qed.

Ltac ri_statement :=
  first [ apply ri_cover | apply ri_status | apply ri_destroy | apply ri_job_update
        | apply ri_job_toggle | apply ri_job_destroy | apply ri_resume_destroy ].

Ltac ri_walk := repeat first [ ri_statement | keeps_step ].

Lemma ri_PUT_application id c : keeps PU (Applications.PUT_application u id c).
Proof.
  unfold Applications.PUT_application, Applications.Application_findByPk,
    Applications.Application_findOne. ri_walk.
Qed.

Lemma ri_DELETE_application id : keeps PU (Applications.DELETE_application u id).
Proof.
  unfold Applications.DELETE_application, Applications.Application_findOne. ri_walk.
Qed.

Lemma ri_PUT_status id st n : keeps PU (Applications.PUT_application_status u id st n).
Proof.
  unfold Applications.PUT_application_status, Applications.status_handler,
    Applications.Application_findByPk, Applications.Application_findOne. ri_walk.
Qed.

Lemma ri_PUT_job now id body :
  keeps PU (Jobs.PUT_job is_email to_number to_date now u id body).
Proof.
  unfold Jobs.PUT_job, Jobs.update_handler, Jobs.Job_findByPk, Jobs.Job_findOne. ri_walk.
Qed.

Lemma ri_DELETE_job id : keeps PU (Jobs.DELETE_job u id).
Proof. unfold Jobs.DELETE_job, Jobs.delete_handler, Jobs.Job_findOne. ri_walk. Qed.

Lemma ri_toggle id : keeps PU (Jobs.POST_toggle_status u id).
Proof. unfold Jobs.POST_toggle_status, Jobs.toggle_handler, Jobs.Job_findOne. ri_walk. Qed.

Lemma ri_DELETE_resume id : keeps PU (Resumes.DELETE_resume u id).
Proof. unfold Resumes.DELETE_resume, Resumes.Resume_findOne. ri_walk. Qed.

(** *** The handlers that insert *)

Lemma found_job (d : DB) (p : Job -> bool) (j : Job) :
  find p (jobs d) = Some j -> has_job d (job_id j).
Proof. intros F. apply find_some in F. exists j. split; [apply F | reflexivity]. Qed.

Lemma found_resume (d : DB) (p : Resume -> bool) (r : Resume) :
  find p (resumes d) = Some r -> has_resume d (resume_id r).
Proof. intros F. apply find_some in F. exists r. split; [apply F | reflexivity]. Qed.

Lemma ri_POST_applications now b :
  keeps PU (Applications.POST_applications is_email to_number to_date now u b).
Proof.
  intros d [H Hu]. unfold Applications.POST_applications.
  destruct (Auth.authorize _ _); [|split; assumption].
  destruct (Validation.validateApplication _ _ _ _ _); [|split; assumption].
  unfold Applications.create_handler, try_catch, bind, Applications.Job_findOne,
    Applications.Resume_findOne, Applications.Application_findOne, gets, ret.
  destruct (find _ (jobs d)) as [j|] eqn:Fj; [|split; assumption].
  destruct (find _ (resumes d)) as [r|] eqn:Fr; [|split; assumption].
  destruct (find _ (applications d)) as [a|] eqn:Fa; [split; assumption|].
  destruct (match job_application_deadline j with Some _ => _ | None => _ end);
    [split; assumption|].
  unfold Applications.Application_create.
  destruct (existsb _ _); [split; assumption|].
  unfold Applications.Application_findByPk, Applications.Application_findOne, gets. simpl.
  split; [|exact Hu].
  pose proof (found_job d _ j Fj) as Hj. pose proof (found_resume d _ r Fr) as Hr.
  apply find_some in Fj, Fr. destruct Fj as [_ Ej], Fr as [_ Er].
  apply andb_prop in Ej, Er. destruct Ej as [Ej _], Er as [Er _].
  apply Nat.eqb_eq in Ej, Er. rewrite Ej in Hj. rewrite Er in Hr.
  apply add_application; assumption.
Qed.

Lemma ri_POST_jobs now body :
  keeps PU (Jobs.POST_jobs is_email to_number to_date now u body).
Proof.
  intros d [H Hu]. unfold Jobs.POST_jobs.
  destruct (Auth.authorize _ _); [|split; assumption].
  destruct (Validation.validateJob _ _ _ _ _); [|split; assumption].
  unfold Jobs.create_handler, try_catch, bind, Jobs.Job_insert, Jobs.Job_findByPk, gets, ret.
  simpl. split; [|exact Hu]. apply add_job; assumption.
Qed.

(** The loops over the nested lists, for a resume that is a row. *)
Local Abbreviation with_resume := (MoreProps.with_resume u).
Local Abbreviation world_with_resume := (MoreProps.world_with_resume u).

Lemma ri_link_skills resume sds :
  keeps (with_resume resume) (Resumes.link_skills resume sds).
Proof.
  unfold Resumes.link_skills. apply keeps_for_of. intros sd d [[H Hu] Hr].
  unfold bind, Resumes.Skill_findOrCreate.
  destruct (find _ (skills d)) as [s|] eqn:F.
  - unfold Resumes.ResumeSkill_create.
    destruct (existsb _ _); [split; [split|]; assumption|].
    simpl. split; [split|]; [|exact Hu|exact Hr].
    apply add_link; try assumption. simpl.
    apply find_some in F. exists s. split; [apply F | reflexivity].
  - unfold Resumes.ResumeSkill_create. cbv beta iota.
    match goal with
    | |- context [set_skills ?f ?n d] => set (d1 := set_skills f n d)
    end.
    assert (H1 : referential_integrity d1) by (apply add_skill; exact H).
    assert (Hs : has_skill d1 (next_skill_id d)).
    { eexists. split; [simpl; apply in_or_app; right; left; reflexivity | reflexivity]. }
    destruct (existsb _ _); [split; [split|]; [exact H1|exact Hu|exact Hr]|].
    simpl. split; [split|]; [|exact Hu|exact Hr].
    apply (add_link d1); [exact Hr|exact Hs|exact H1].
Qed.

Lemma ri_work_experience resume l :
  keeps (with_resume resume) (for_of l (Resumes.WorkExperience_create resume)).
Proof.
  apply keeps_for_of. intros x. apply keeps_modify. intros d [[H Hu] Hr].
  split; [split|]; [|exact Hu|exact Hr]. apply add_work_experience; assumption.
Qed.

Lemma ri_education resume l :
  keeps (with_resume resume) (for_of l (Resumes.Education_create resume)).
Proof.
  apply keeps_for_of. intros x. apply keeps_modify. intros d [[H Hu] Hr].
  split; [split|]; [|exact Hu|exact Hr]. apply add_education; assumption.
Qed.

Lemma ri_POST_resumes now file b :
  keeps PU (Resumes.POST_resumes is_email to_number to_date now u file b).
Proof.
  intros d [H Hu]. unfold Resumes.POST_resumes.
  destruct (Validation.validateResume _ _ _ _ _); [|split; assumption].
  unfold Resumes.create_handler.
  match goal with
  | |- context [try_catch (bind ?m ?k) ?h] =>
      assert (T : triple PU (try_catch (bind m k) h) (fun _ => PU) PU)
  end.
  { apply triple_try_catch with (Q := fun _ => PU) (E := PU);
      [|intros e; apply keeps_triple, keeps_ret].
    eapply triple_bind with (Q := fun r d => with_resume (resume_id r) d).
    - intros s [Hs Hus]. unfold Resumes.Resume_create. simpl.
      split; [split; [apply add_resume; assumption | exact Hus]|].
      eexists. split; [simpl; apply in_or_app; right; left; reflexivity | reflexivity].
    - intros r.
      apply triple_weaken with (P := with_resume (resume_id r))
                               (Q := fun _ => with_resume (resume_id r))
                               (E := with_resume (resume_id r));
        [| auto | intros a s [Hs _]; exact Hs | intros s [Hs _]; exact Hs].
      apply keeps_triple.
      unfold Resumes.Resume_findByPk_complete, Orm.including.
      repeat first [ apply ri_link_skills | apply ri_work_experience | apply ri_education
                   | keeps_step ]. }
  exact (triple_ends _ _ _ T d (conj H Hu)).
Qed.

Lemma after_Resume_findOne {A} p (k : option Resume -> M DB A) :
  (forall r, keeps (with_resume (resume_id r)) (k (Some r))) ->
  keeps PU (k None) ->
  keeps PU (bind (Resumes.Resume_findOne p) k).
Proof.
  intros Hsome Hnone d H. unfold bind, Resumes.Resume_findOne, gets.
  destruct (find p (resumes d)) as [r|] eqn:F.
  - exact (proj1 (Hsome r d (conj H (found_resume d p r F)))).
  - exact (Hnone d H).
Qed.

Lemma ri_resume_update file b id resume :
  keeps (with_resume resume) (Resumes.Resume_update id (Resumes.with_update file b)).
Proof.
  apply keeps_modify. intros s [[Hs Hus] Hrs].
  assert (Hg : forall x, resume_id (Resumes.with_update file b x) = resume_id x
                         /\ resume_user_id (Resumes.with_update file b x)
                            = resume_user_id x) by (intros x; split; reflexivity).
  split; [split; [|exact Hus]|].
  - apply (rewrite_resumes s (fun x => resume_id x =? id)); assumption.
  - destruct Hrs as (x & Hx & E).
    exists (if resume_id x =? id then Resumes.with_update file b x else x).
    split.
    + exact (in_map (fun x => if resume_id x =? id
                              then Resumes.with_update file b x else x)
                    (resumes s) x Hx).
    + destruct (resume_id x =? id); exact E.
Qed.

Lemma ri_links_destroy id resume :
  keeps (with_resume resume) (Resumes.ResumeSkill_destroy_where id).
Proof.
  apply keeps_modify. intros s [[Hs Hus] Hrs].
  split; [split; [|exact Hus]|exact Hrs]. now apply remove_links.
Qed.

Lemma ri_PUT_resume now id file b :
  keeps PU (Resumes.PUT_resume is_email to_number to_date now u id file b).
Proof.
  unfold Resumes.PUT_resume.
  destruct (Validation.validateResume _ _ _ _ _); [|apply keeps_ret].
  unfold Resumes.update_handler. apply keeps_try_catch; [|intros e; apply keeps_ret].
  apply after_Resume_findOne; [|apply keeps_ret]. intros r.
  unfold Resumes.Resume_findByPk_complete, Orm.including.
  repeat first [ apply ri_link_skills | apply ri_resume_update | apply ri_links_destroy
               | keeps_step ].
Qed.

(** *** The AI handlers *)

Lemma find_resume_found include id :
  triple PW (AI.find_resume include u id)
    (fun o w => PW w /\ forall r, o = Some r -> has_resume (AI.db w) (resume_id r)) PW.
Proof.
  intros [d sv] H. unfold AI.find_resume, AI.liftDB, Orm.including.
  destruct (Orm.first_unresolved _ _); [exact H|].
  unfold gets. simpl in *.
  split; [exact H|]. intros r F. now apply found_resume in F.
Qed.

Lemma ri_world_prop (I : AI.World -> Prop) k v : keeps I (AI.prop k v).
Proof. unfold AI.prop. destruct v; (apply keeps_ret || apply keeps_throw). Qed.

Lemma ri_world_parse (I : AI.World -> Prop) text : keeps I (AI.parse JSON_parse text).
Proof. unfold AI.parse. destruct (JSON_parse text); (apply keeps_ret || apply keeps_throw). Qed.

Lemma ri_world_openai resume : keeps (world_with_resume resume) AI.openai_create.
Proof. apply (keeps_openai (with_resume resume)). Qed.

Lemma ri_resume_analysis resume t s i :
  keeps (world_with_resume resume)
        (AI.liftDB (AI.AIAnalysis_create (Some resume) None t s i)).
Proof.
  apply (keeps_liftDB (with_resume resume)). intros d [[H Hu] Hr].
  unfold AI.AIAnalysis_create. simpl.
  split; [split|]; [|exact Hu|exact Hr]. apply add_analysis; simpl; auto.
Qed.

Ltac ai_walk :=
  repeat first
    [ apply ri_resume_analysis | apply ri_world_openai | apply ri_world_prop
    | apply ri_world_parse | keeps_step ].

Lemma after_find_resume {A} include id (k : option Resume -> M AI.World A) :
  (forall r, keeps (world_with_resume (resume_id r)) (k (Some r))) ->
  keeps PW (k None) ->
  keeps PW (bind (AI.find_resume include u id) k).
Proof.
  intros Hsome Hnone w H. unfold bind.
  pose proof (find_resume_found include id w H) as T.
  destruct (AI.find_resume include u id w) as [[o|e] w']; [|exact T].
  destruct T as [Hw Hr]. destruct o as [r|].
  - exact (proj1 (Hsome r w' (conj Hw (Hr r eq_refl)))).
  - exact (Hnone w' Hw).
Qed.

Lemma ri_analyze id : keeps PW (AI.analyze_resume JSON_parse u id).
Proof.
  unfold AI.analyze_resume, AI.analyze_found.
  apply keeps_try_catch; [|intros e; apply keeps_ret].
  apply after_find_resume; [|apply keeps_ret]. intros r. ai_walk.
Qed.

Lemma ri_skill_gap id role industry :
  keeps PW (AI.skill_gap_analysis JSON_parse u id role industry).
Proof.
  unfold AI.skill_gap_analysis, AI.skill_gap_found.
  apply keeps_try_catch; [|intros e; apply keeps_ret].
  apply after_find_resume; [|apply keeps_ret]. intros r. ai_walk.
Qed.

Lemma ri_improve id : keeps PW (AI.improve_resume JSON_parse u id).
Proof.
  unfold AI.improve_resume, AI.improve_found.
  apply keeps_try_catch; [|intros e; apply keeps_ret].
  apply after_find_resume; [|apply keeps_ret]. intros r. ai_walk.
Qed.

Lemma map_matches_jobs (I : AI.World -> Prop) jobs ms :
  triple I (AI.map_matches to_number jobs ms)
    (fun l w => I w /\ forall m, In m l -> In (AI.matched_job m) jobs) I.
Proof.
  induction ms as [|m ms IH]; simpl.
  - intros w H. split; [exact H | intros m []].
  - eapply triple_bind; [apply keeps_triple, ri_world_prop|]. intros ji.
    destruct (AI.job_at to_number jobs ji) as [job|] eqn:J;
      [|apply triple_throw].
    eapply triple_bind; [exact IH|]. intros tail w [Hw Ht].
    split; [exact Hw|]. intros x [<-|Hx]; [|auto]. simpl.
    unfold AI.job_at in J.
    destruct (match ji with VNum n => Some n | VStr s => to_number s | _ => None end);
      [|discriminate].
    destruct (1 <=? z)%Z; [|discriminate]. now apply nth_error_In in J.
Qed.

Lemma ri_match_jobs id : keeps PW (AI.match_jobs JSON_parse to_number u id).
Proof.
  unfold AI.match_jobs. apply keeps_try_catch; [|intros e; apply keeps_ret].
  apply after_find_resume; [|apply keeps_ret]. intros r. unfold AI.match_found.
  intros [d sv] H. unfold bind at 1. unfold AI.liftDB, gets. cbn [AI.db AI.service].
  set (jobs := firstn 50 (rev (filter job_is_active (Schema.jobs d)))).
  set (I := fun w : AI.World =>
              world_with_resume (resume_id r) w
              /\ forall j, In j jobs -> has_job (AI.db w) (job_id j)).
  assert (HI : I {| AI.db := d; AI.service := sv |}).
  { split; [exact H|]. intros j Hj. exists j. split; [|reflexivity].
    unfold jobs in Hj. apply firstn_In in Hj. apply in_rev in Hj.
    apply filter_In in Hj. apply Hj. }
  match goal with
  | |- world_with_resume _ (snd (?m ?w)) =>
      assert (K : keeps I m); [|exact (proj1 (K w HI))]
  end.
  apply keeps_bind; [apply (keeps_openai (fun d => with_resume (resume_id r) d
                      /\ forall j, In j jobs -> has_job d (job_id j)))|].
  intros content. apply keeps_bind; [apply ri_world_parse|]. intros parsed.
  destruct parsed; try apply keeps_throw.
  apply triple_keeps.
  eapply triple_bind; [apply map_matches_jobs|]. intros jobMatches.
  eapply triple_bind with (Q := fun _ => I); [|intros _; apply keeps_triple, keeps_ret].
  intros w [Hw Hm].
  assert (K : keeps I (for_of (firstn 5 jobMatches) (fun m =>
     bind (AI.liftDB (AI.AIAnalysis_create (Some (resume_id r))
                        (Some (job_id (AI.matched_job m))) "job_match"
                        (get "match_score" (AI.matched m))
                        (VObj [("matching_skills", get "matching_skills" (AI.matched m));
                               ("missing_skills", get "missing_skills" (AI.matched m));
                               ("reasoning", get "reasoning" (AI.matched m))])))
          (fun _ => ret tt)))).
  { apply keeps_for_of_in. intros m Hin.
    apply keeps_bind; [|intros _; apply keeps_ret].
    intros [dw svw] [[[Hri Hus] Hrr] Hjobs]. unfold AI.liftDB, AI.AIAnalysis_create.
    cbn [AI.db AI.service snd] in *.
    split; [split; [split|]|]; [|exact Hus|exact Hrr|exact Hjobs].
    apply add_analysis; [exact Hrr| |exact Hri].
    apply Hjobs, Hm. now apply firstn_In in Hin. }
  exact (keeps_triple I _ K w Hw).
Qed.

Lemma handle_keeps_integrity (r : Server.Request) (d : DB) :
  request_user r = u ->
  has_user d (user_id u) ->
  referential_integrity d ->
  referential_integrity (Server.handle is_email to_number to_date JSON_parse r d).
Proof.
  intros Eu Hu H. pose proof (conj H Hu : PU d) as HP.
  destruct r; simpl in Eu; subst; simpl.
  - exact (proj1 (ri_POST_applications now b d HP)).
  - exact (proj1 (ri_PUT_application id cover_letter d HP)).
  - exact (proj1 (ri_DELETE_application id d HP)).
  - exact (proj1 (ri_PUT_status id status notes d HP)).
  - exact (proj1 (ri_POST_jobs now body d HP)).
  - exact (proj1 (ri_PUT_job now id body d HP)).
  - exact (proj1 (ri_DELETE_job id d HP)).
  - exact (proj1 (ri_toggle id d HP)).
  - exact (proj1 (ri_POST_resumes now file b d HP)).
  - exact (proj1 (ri_PUT_resume now id file b d HP)).
  - exact (proj1 (ri_DELETE_resume id d HP)).
  - exact (proj1 (ri_analyze resume {| AI.db := d; AI.service := service |} HP)).
  - exact (proj1 (ri_match_jobs resume {| AI.db := d; AI.service := service |} HP)).
  - exact (proj1 (ri_skill_gap resume role industry
                    {| AI.db := d; AI.service := service |} HP)).
  - exact (proj1 (ri_improve resume {| AI.db := d; AI.service := service |} HP)).
Qed.

End User.

(** The statements of the four routers leave the users table alone. *)
Lemma users_kept (U : list User) : kept_by_statements (fun d => users d = U).
Proof.
  constructor; unfold keeps; try (intros; assumption).
  - intros j a r c s d H. unfold Applications.Application_create.
    destruct (existsb _ _); exact H.
  - intros n c d H. unfold Resumes.Skill_findOrCreate. destruct (find _ _); exact H.
  - intros r s p y d H. unfold Resumes.ResumeSkill_create. destruct (existsb _ _); exact H.
Qed.

(** X4.  No request of the applications, jobs, resumes and AI routers
    adds, removes or rewrites a row of the users table, whatever the
    request and whether it is answered with success or with an error. *)
Theorem users_untouched (is_email : string -> bool) (to_number to_date : string -> option Z)
    (JSON_parse : string -> option value) (rs : list Server.Request) (d : DB) :
  users (Server.serve is_email to_number to_date JSON_parse rs d) = users d.
Proof.
  exact (KeptProofs.serve_keeps (fun d' => users d' = users d) (users_kept (users d))
           is_email to_number to_date JSON_parse rs d eq_refl).
Qed.

(** X5.  When every foreign key of the store points at a row and the
    requests served come from users that are rows of the users table, every
    foreign key points at a row afterwards: what the handlers insert
    references the job, resume, skill or user they have just read or
    created, also when a handler stops half way. *)
Theorem requests_keep_integrity (is_email : string -> bool)
    (to_number to_date : string -> option Z) (JSON_parse : string -> option value)
    (rs : list Server.Request) (d : DB) :
  referential_integrity d ->
  Forall (fun r => has_user d (user_id (request_user r))) rs ->
  referential_integrity (Server.serve is_email to_number to_date JSON_parse rs d).
Proof.
  revert d. induction rs as [|r rs IH]; intros d H Hrs; simpl; [exact H|].
  inversion Hrs as [|r' rs' Hr Hrest]; subst.
  pose proof (KeptProofs.handle_keeps (fun d' => users d' = users d) (users_kept (users d))
                is_email to_number to_date JSON_parse r d eq_refl) as HU.
  apply IH.
  - exact (handle_keeps_integrity (request_user r) is_email to_number to_date JSON_parse
             r d eq_refl Hr H).
  - apply Forall_forall. intros x Hx.
    pose proof (proj1 (Forall_forall _ _) Hrest x Hx) as (y & Hy & E).
    exists y. split; [rewrite HU; exact Hy | exact E].
Qed.

Lemma requests_keep_integrity_witness :
  referential_integrity
    (Server.serve Sample.is_email JS.integer_of_string Sample.to_date Sample.JSON_parse
       [Server.DeleteApplication Sample.applicant7 5;
        Server.PostApplication 0%Z Sample.applicant7 Sample.apply_body;
        Server.PostResume 0 Sample.applicant7 None (Sample.resume_body Sample.two_skills);
        Server.ToggleJob Sample.employer1 1]
       (Sample.db1 "pending")).
Proof.
  apply requests_keep_integrity; [exact CascadeProofs.db1_integrity|].
  repeat constructor;
    first [ exists Sample.applicant7; simpl; tauto | exists Sample.employer1; simpl; tauto ].
Defined.

End IntegrityProofs.
